(** * The speedtest dashboard's data loader, embedded and verified

    Source: [dashboard/app/data_loader.py], and [render_recent_table]
    of [dashboard/app/components.py].  The Python functions are
    embedded as Rocq functions of the same names.  Library calls
    (hashlib, re, datetime, json, pandas) are modelled by small
    executable definitions that follow the libraries' documented
    behaviour on the inputs this program gives them.

    Conventions of the embedding:
    - a Python [str] is a [string]; an [ascii] stands for the code point
      0..255 of one character;
    - Python values (JSON payloads, the records built by the extractor,
      the cells of a data frame) are the inductive [pyval];
    - a Python [float] is an IEEE 754 double, [float]: the rational it
      stands for, a negative zero, an infinity or a NaN; a division
      rounds to the nearest double, ties to even ([round_double]);
    - a raised exception is the [Raise] branch of [result];
    - a [pandas.DataFrame] is a list of column names and a list of rows,
      each row a finite map from column name to cell (absent = NaN/NaT);
      the row labels (the index) are not part of a frame, so frames
      are compared by their columns and their rows in order; the labels
      that a sort leaves are given apart, by [sort_values_index];
    - what the functions read from their surroundings (the global
      [DATA_DIR], the temp directory, the directory listing, the content
      of the files, the order in which pool tasks finish) is the record
      [Env]; what they change (the parquet files) is the state [World],
      which also logs the calls of the Record Extractor;
    - what the source leaves to the version of pandas (the float
      arithmetic of ["mean"], [agg] with an empty dict) is the record
      [Pandas], a parameter of the Aggregator;
    - a UI component returns the Streamlit calls it made.

    Left out: the [st.cache_data] memoisation around [load_all_data];
    what pandas does with rows of equal sort key (the sort is stable
    here; statements that depend on it are made for datasets without
    equal timestamps); what a parquet file does to a frame (reading
    gives back the frame that was written) and a write that fails
    after the file was opened; the dtypes of columns, and with them the
    text that [strftime] and number formatting produce (parameters of
    [render_recent_table]) and the components [render_header] and
    [render_latest_summary]. *)

From Stdlib Require Import ZArith QArith Qabs Qcanon String Ascii List.
From Stdlib.Strings Require Import Byte.
From Stdlib Require Import Lia Permutation Sorted.
From stdpp Require Import gmap strings list pretty.

Local Open Scope string_scope.
Local Open Scope Z_scope.

(* ================================================================= *)
(** ** Exceptions and results *)

(** The exception classes that occur in the module, with the part of
    Python's class hierarchy that its [except] clauses can observe. *)
Inductive exn : Type :=
  | JSONDecodeError      (* subclass of ValueError *)
  | UnicodeDecodeError   (* subclass of ValueError *)
  | ValueError
  | KeyError
  | TypeError
  | OSError              (* FileNotFoundError, PermissionError, ... *)
  | AttributeError
  | OverflowError.

Definition exn_eqb (a b : exn) : bool :=
  match a, b with
  | JSONDecodeError, JSONDecodeError | UnicodeDecodeError, UnicodeDecodeError
  | ValueError, ValueError | KeyError, KeyError | TypeError, TypeError
  | OSError, OSError | AttributeError, AttributeError
  | OverflowError, OverflowError => true
  | _, _ => false
  end.

(** [issubclass e cls]: an exception of class [e] is caught by
    [except cls]. *)
Definition issubclass (e cls : exn) : bool :=
  match cls, e with
  | ValueError, (JSONDecodeError | UnicodeDecodeError) => true
  | _, _ => exn_eqb e cls
  end.

Inductive result (A : Type) : Type :=
  | Ok (a : A)
  | Raise (e : exn).
Arguments Ok {A} a.
Arguments Raise {A} e.

#[global] Instance result_ret : MRet result := fun _ a => Ok a.

#[global] Instance result_bind : MBind result := fun _ _ k m =>
  match m with
  | Ok a => k a
  | Raise e => Raise e
  end.

(** [try: body except classes: handler]. *)
Definition try_except {A} (body : result A) (classes : list exn)
    (handler : result A) : result A :=
  match body with
  | Ok a => Ok a
  | Raise e => if existsb (issubclass e) classes then handler else Raise e
  end.

(* ================================================================= *)
(** ** hashlib.md5 (RFC 1321) *)

Module MD5.

Definition w32 (x : Z) : Z := x mod 2 ^ 32.

Definition not32 (x : Z) : Z := Z.lxor x (2 ^ 32 - 1).

Definition rotl32 (x c : Z) : Z :=
  w32 (Z.lor (Z.shiftl x c) (Z.shiftr x (32 - c))).

Definition shifts : list Z :=
  [7; 12; 17; 22; 7; 12; 17; 22; 7; 12; 17; 22; 7; 12; 17; 22;
   5; 9; 14; 20; 5; 9; 14; 20; 5; 9; 14; 20; 5; 9; 14; 20;
   4; 11; 16; 23; 4; 11; 16; 23; 4; 11; 16; 23; 4; 11; 16; 23;
   6; 10; 15; 21; 6; 10; 15; 21; 6; 10; 15; 21; 6; 10; 15; 21].

(** [floor (2^32 * |sin (i + 1)|)] for [i = 0 .. 63]. *)
Definition sines : list Z :=
  [3614090360; 3905402710; 606105819; 3250441966;
   4118548399; 1200080426; 2821735955; 4249261313;
   1770035416; 2336552879; 4294925233; 2304563134;
   1804603682; 4254626195; 2792965006; 1236535329;
   4129170786; 3225465664; 643717713; 3921069994;
   3593408605; 38016083; 3634488961; 3889429448;
   568446438; 3275163606; 4107603335; 1163531501;
   2850285829; 4243563512; 1735328473; 2368359562;
   4294588738; 2272392833; 1839030562; 4259657740;
   2763975236; 1272893353; 4139469664; 3200236656;
   681279174; 3936430074; 3572445317; 76029189;
   3654602809; 3873151461; 530742520; 3299628645;
   4096336452; 1126891415; 2878612391; 4237533241;
   1700485571; 2399980690; 4293915773; 2240044497;
   1873313359; 4264355552; 2734768916; 1309151649;
   4149444226; 3174756917; 718787259; 3951481745].

(** Little-endian bytes of a [k]-byte integer, and back. *)
Fixpoint le_bytes (k : nat) (x : Z) : list Z :=
  match k with
  | O => []
  | S k' => x mod 256 :: le_bytes k' (x / 256)
  end.

Fixpoint le_value (bs : list Z) : Z :=
  match bs with
  | [] => 0
  | b :: bs' => b + 256 * le_value bs'
  end.

(** Message padding: one 0x80 byte, zeros up to 56 modulo 64, then the
    bit length on 64 bits. *)
Definition pad (msg : list Z) : list Z :=
  let n := Z.of_nat (length msg) in
  let zeros := Z.to_nat ((55 - n) mod 64) in
  msg ++ [128] ++ repeat 0 zeros ++ le_bytes 8 ((8 * n) mod 2 ^ 64).

Fixpoint words (k : nat) (block : list Z) : list Z :=
  match k with
  | O => []
  | S k' => le_value (firstn 4 block) :: words k' (skipn 4 block)
  end.

Definition state : Type := Z * Z * Z * Z.

Definition step (M : list Z) (st : state) (i : nat) : state :=
  let '(a, b, c, d) := st in
  let iz := Z.of_nat i in
  let '(f, g) :=
    if (i <? 16)%nat then
      (Z.lor (Z.land b c) (Z.land (not32 b) d), iz)
    else if (i <? 32)%nat then
      (Z.lor (Z.land d b) (Z.land (not32 d) c), (5 * iz + 1) mod 16)
    else if (i <? 48)%nat then
      (Z.lxor (Z.lxor b c) d, (3 * iz + 5) mod 16)
    else
      (Z.lxor c (Z.lor b (not32 d)), (7 * iz) mod 16) in
  let f' := w32 (f + a + nth i sines 0 + nth (Z.to_nat g) M 0) in
  (d, w32 (b + rotl32 f' (nth i shifts 0)), b, c).

Definition compress (st : state) (block : list Z) : state :=
  let '(a0, b0, c0, d0) := st in
  let '(a, b, c, d) := fold_left (step (words 16 block)) (seq 0 64) st in
  (w32 (a0 + a), w32 (b0 + b), w32 (c0 + c), w32 (d0 + d)).

Fixpoint blocks (k : nat) (st : state) (bs : list Z) : state :=
  match k with
  | O => st
  | S k' => blocks k' (compress st (firstn 64 bs)) (skipn 64 bs)
  end.

Definition init : state := (1732584193, 4023233417, 2562383102, 271733878).

Definition digest (msg : list Z) : list Z :=
  let p := pad msg in
  let '(a, b, c, d) := blocks (length p / 64) init p in
  le_bytes 4 a ++ le_bytes 4 b ++ le_bytes 4 c ++ le_bytes 4 d.

Definition hex_digit (n : Z) : ascii :=
  if n <? 10 then ascii_of_N (Z.to_N (48 + n))
  else ascii_of_N (Z.to_N (87 + n)).

Fixpoint hex (bs : list Z) : string :=
  match bs with
  | [] => EmptyString
  | b :: bs' => String (hex_digit (b / 16)) (String (hex_digit (b mod 16)) (hex bs'))
  end.

(** [hashlib.md5(data).hexdigest()]. *)
Definition hexdigest (data : list byte) : string :=
  hex (digest (map (fun b => Z.of_N (Byte.to_N b)) data)).

End MD5.

(* ================================================================= *)
(** ** Strings and paths *)

(** [s.encode()]: UTF-8, for the code points 0..255. *)
Definition encode_char (c : ascii) : list byte :=
  let n := N_of_ascii c in
  if (n <? 128)%N then [byte_of_ascii c]
  else
    match Byte.of_N (192 + n / 64), Byte.of_N (128 + n mod 64) with
    | Some hi, Some lo => [hi; lo]
    | _, _ => []
    end.

Fixpoint encode (s : string) : list byte :=
  match s with
  | EmptyString => []
  | String c s' => encode_char c ++ encode s'
  end.

(** [s[:n]]. *)
Fixpoint str_prefix (n : nat) (s : string) : string :=
  match n, s with
  | S n', String c s' => String c (str_prefix n' s')
  | _, _ => EmptyString
  end.

(** A [pathlib.Path] as its parent directory and its final component
    ([Path.name]); [Path(dir) / name] is [{| parent := dir; name := name |}]. *)
Record Path : Type := { parent : string; name : string }.

(* ================================================================= *)
(** ** Cache Store: the path of the snapshot *)

(** [_get_cache_path]; the two ambient values it reads, the result of
    [tempfile.gettempdir()] and the global [DATA_DIR], are arguments. *)
Definition _get_cache_path (tempdir DATA_DIR : string) : Path :=
  let dir_hash := str_prefix 12 (MD5.hexdigest (encode DATA_DIR)) in
  {| parent := tempdir;
     name := "speedtest_cache_" +:+ dir_hash +:+ ".parquet" |}.

(* ================================================================= *)
(** ** re.match for the patterns of this module *)

(** The two patterns of the module are sequences of one-character
    atoms with capture groups; no alternation, no repetition of
    variable length.  [re.match] anchors the pattern at the start of
    the string only: text after the match is allowed. *)
Inductive atom : Type :=
  | Chr (c : ascii)          (* a literal character *)
  | Dig                      (* \d *)
  | OneOf (cs : list ascii)  (* [...] *)
  | GroupOpen                (* ( *)
  | GroupClose.              (* ) *)

(** [\d] on the code points 0..255: the ten ASCII digits. *)
Definition is_digit (c : ascii) : bool :=
  let n := N_of_ascii c in ((48 <=? n) && (n <=? 57))%N.

Definition accepts (a : atom) (c : ascii) : bool :=
  match a with
  | Chr c' => Ascii.eqb c' c
  | Dig => is_digit c
  | OneOf cs => existsb (Ascii.eqb c) cs
  | GroupOpen | GroupClose => false
  end.

(** A match object: the captured groups, first group first, and the
    text left after the match. *)
Record Match : Type := { groups : list string; rest : string }.

Fixpoint re_run (p : list atom) (s : string) (cur : string) (gs : list string)
    : option Match :=
  match p with
  | [] => Some {| groups := gs; rest := s |}
  | GroupOpen :: p' => re_run p' s "" gs
  | GroupClose :: p' => re_run p' s "" (gs ++ [cur])%list
  | a :: p' =>
      match s with
      | EmptyString => None
      | String c s' =>
          if accepts a c then re_run p' s' (cur +:+ String c "") gs else None
      end
  end.

Definition re_match (p : list atom) (s : string) : option Match :=
  re_run p s "" [].

(** [m.group(i)], for [i >= 1]. *)
Definition group (m : Match) (i : nat) : string := nth (i - 1) (groups m) "".

Fixpoint lits (s : string) : list atom :=
  match s with
  | EmptyString => []
  | String c s' => Chr c :: lits s'
  end.

Definition digits (n : nat) : list atom := repeat Dig n.

(** r"speedtest-(\d{4}-\d{2}-\d{2}T\d{2}-\d{2}-\d{2}-\d{3}Z)\.json" *)
Definition filename_pattern : list atom :=
  lits "speedtest-" ++ [GroupOpen] ++
  digits 4 ++ lits "-" ++ digits 2 ++ lits "-" ++ digits 2 ++ lits "T" ++
  digits 2 ++ lits "-" ++ digits 2 ++ lits "-" ++ digits 2 ++ lits "-" ++
  digits 3 ++ lits "Z" ++ [GroupClose] ++ lits ".json".

(** r"(\d{2})-(\d{2})-(\d{2})-(\d{3})Z" *)
Definition time_pattern : list atom :=
  [GroupOpen] ++ digits 2 ++ [GroupClose] ++ lits "-" ++
  [GroupOpen] ++ digits 2 ++ [GroupClose] ++ lits "-" ++
  [GroupOpen] ++ digits 2 ++ [GroupClose] ++ lits "-" ++
  [GroupOpen] ++ digits 3 ++ [GroupClose] ++ lits "Z".

(** [s.split(sep)] for a one-character separator. *)
Fixpoint split (sep : ascii) (s : string) : list string :=
  match s with
  | EmptyString => [""]
  | String c s' =>
      if Ascii.eqb c sep then "" :: split sep s'
      else
        match split sep s' with
        | [] => [String c ""]
        | w :: ws => String c w :: ws
        end
  end.

(** [s.replace(old, new)] for a one-character [old]. *)
Fixpoint replace (old : ascii) (new : string) (s : string) : string :=
  match s with
  | EmptyString => ""
  | String c s' =>
      if Ascii.eqb c old then new +:+ replace old new s'
      else String c (replace old new s')
  end.

(* ================================================================= *)
(** ** datetime *)

(** An aware [datetime.datetime]; [utcoffset] is in minutes. *)
Record datetime : Type := {
  year : Z; month : Z; day : Z;
  hour : Z; minute : Z; second : Z; microsecond : Z;
  utcoffset : Z
}.

Definition is_leap (y : Z) : bool :=
  (y mod 4 =? 0) && (negb (y mod 100 =? 0) || (y mod 400 =? 0)).

Definition days_in_month (y m : Z) : Z :=
  if m =? 2 then (if is_leap y then 29 else 28)
  else if (m =? 4) || (m =? 6) || (m =? 9) || (m =? 11) then 30
  else 31.

(** [int(s)] for a string of ASCII digits. *)
Definition int_of_digits (s : string) : Z :=
  fold_left (fun acc c => 10 * acc + (Z.of_N (N_of_ascii c) - 48))
            (list_ascii_of_string s) 0.

(** "YYYY-MM-DDTHH:MM:SS.fff+HH:MM", the one layout this module builds. *)
Definition isoformat_pattern : list atom :=
  [GroupOpen] ++ digits 4 ++ [GroupClose] ++ lits "-" ++
  [GroupOpen] ++ digits 2 ++ [GroupClose] ++ lits "-" ++
  [GroupOpen] ++ digits 2 ++ [GroupClose] ++ lits "T" ++
  [GroupOpen] ++ digits 2 ++ [GroupClose] ++ lits ":" ++
  [GroupOpen] ++ digits 2 ++ [GroupClose] ++ lits ":" ++
  [GroupOpen] ++ digits 2 ++ [GroupClose] ++ lits "." ++
  [GroupOpen] ++ digits 3 ++ [GroupClose] ++
  [GroupOpen; OneOf ["+"; "-"]%char; GroupClose] ++
  [GroupOpen] ++ digits 2 ++ [GroupClose] ++ lits ":" ++
  [GroupOpen] ++ digits 2 ++ [GroupClose].

(** [datetime.fromisoformat], on the layout above: the whole string
    must have the layout and the fields must be in range ([ValueError]
    otherwise).  The other layouts the library accepts never reach it
    here and are rejected by this model. *)
Definition fromisoformat (s : string) : result datetime :=
  match re_match isoformat_pattern s with
  | Some m =>
      let y := int_of_digits (group m 1) in
      let mo := int_of_digits (group m 2) in
      let d := int_of_digits (group m 3) in
      let h := int_of_digits (group m 4) in
      let mi := int_of_digits (group m 5) in
      let sec := int_of_digits (group m 6) in
      let ms := int_of_digits (group m 7) in
      let sign := if String.eqb (group m 8) "-" then -1 else 1 in
      let oh := int_of_digits (group m 9) in
      let om := int_of_digits (group m 10) in
      if String.eqb (rest m) "" &&
         (1 <=? y) && (1 <=? mo) && (mo <=? 12) &&
         (1 <=? d) && (d <=? days_in_month y mo) &&
         (h <=? 23) && (mi <=? 59) && (sec <=? 59) &&
         (oh <=? 23) && (om <=? 59)
      then Ok {| year := y; month := mo; day := d;
                 hour := h; minute := mi; second := sec;
                 microsecond := 1000 * ms;
                 utcoffset := sign * (60 * oh + om) |}
      else Raise ValueError
  | None => Raise ValueError
  end.

(* ================================================================= *)
(** ** Filename Timestamp Parser *)

Definition parse_timestamp_from_filename (filename : string)
    : result (option datetime) :=
  match re_match filename_pattern filename with
  | None => Ok None
  | Some m =>
      let timestamp_str := group m 1 in
      let parts := split "T" timestamp_str in
      if negb (length parts =? 2)%nat then Ok None
      else
        let date_part := nth 0 parts "" in
        let time_part := nth 1 parts "" in
        match re_match time_pattern time_part with
        | None => Ok None
        | Some time_match =>
            let hour := group time_match 1 in
            let minute := group time_match 2 in
            let second := group time_match 3 in
            let ms := group time_match 4 in
            let iso_str :=
              date_part +:+ "T" +:+ hour +:+ ":" +:+ minute +:+ ":" +:+
              second +:+ "." +:+ ms +:+ "Z" in
            try_except
              (t ← fromisoformat (replace "Z" "+00:00" iso_str); Ok (Some t))
              [ValueError]
              (Ok None)
        end
  end.

(* ================================================================= *)
(** ** float *)

(** An IEEE 754 double: a finite number, given by the rational it
    stands for ([+0.0] is [Fnum 0]), the negative zero, an infinity or
    a NaN.  The numbers that the functions below return are in lowest
    terms. *)
Inductive float : Type :=
  | Fnum (q : Q)
  | Fnegzero
  | Finf (negative : bool)
  | Fnan.

(** [2^k <= n / d], for [0 < d]. *)
Definition pow2_le (k n d : Z) : bool :=
  d * 2 ^ Z.max k 0 <=? n * 2 ^ Z.max (- k) 0.

(** The largest [k] with [2^k <= n / d], for positive [n] and [d]. *)
Definition floor_log2 (n d : Z) : Z :=
  let k := Z.log2 n - Z.log2 d in
  if pow2_le k n d then k else k - 1.

(** [n / d] rounded to the nearest integer, a tie to the even one, for
    [0 <= n] and [0 < d]. *)
Definition round_half_even (n d : Z) : Z :=
  let f := n / d in
  match 2 * (n mod d) ?= d with
  | Lt => f
  | Gt => f + 1
  | Eq => if Z.even f then f else f + 1
  end.

(** A double has 53 significant bits and no bit below [2^-1074]: the
    exponent of the last bit of the doubles next to [n / d]. *)
Definition last_bit (n d : Z) : Z := Z.max (floor_log2 n d - 52) (-1074).

(** Round to nearest, ties to even: the double nearest to a rational.
    A magnitude that rounds to [2^1024] or more gives an infinity. *)
Definition round_double (q : Q) : float :=
  let n := Z.abs (Qnum q) in
  let d := Zpos (Qden q) in
  let negative := Qnum q <? 0 in
  if n =? 0 then Fnum 0
  else
    let e := last_bit n d in
    let m := round_half_even (n * 2 ^ Z.max (- e) 0) (d * 2 ^ Z.max e 0) in
    if m =? 0 then (if negative then Fnegzero else Fnum 0)
    else if 2 ^ 1024 <=? m * 2 ^ Z.max e 0 then Finf negative
    else Fnum (Qred ((if negative then - m else m) * 2 ^ Z.max e 0
                     # Z.to_pos (2 ^ Z.max (- e) 0))).

(** [x / d] for a float [x] and a positive integer [d] that is a double
    (the divisor is converted without rounding). *)
Definition float_div (x : float) (d : Z) : float :=
  match x with
  | Fnum q => round_double (q / inject_Z d)
  | Fnegzero => Fnegzero
  | Finf negative => Finf negative
  | Fnan => Fnan
  end.

(** The doubles, scaled by [2^1074] so that they are integers:
    [m * 2^e] with [|m| < 2^53] and [0 <= e <= 2045]. *)
Definition int_double (y : Z) : Prop :=
  exists m e, Z.abs m < 2 ^ 53 /\ 0 <= e <= 2045 /\ y = m * 2 ^ e.

(** The rationals that are finite doubles: [m * 2^(e - 1074)] with
    [|m| < 2^53] and [0 <= e <= 2045], from the least subnormal
    [2^-1074] to the greatest double [(2^53 - 1) * 2^971]. *)
Definition is_double (q : Q) : Prop :=
  exists y, int_double y /\ (q == (y # Z.to_pos (2 ^ 1074)))%Q.

(* ================================================================= *)
(** ** Python values *)

#[warnings="-register-all"]
Inductive pyval : Type :=
  | PNone
  | PBool (b : bool)
  | PInt (n : Z)
  | PFloat (x : float)
  | PStr (s : string)
  | PList (l : list pyval)
  | PDict (d : list (string * pyval))   (* keys in insertion order *)
  | PDatetime (t : datetime)            (* datetime.datetime *)
  | PTimestamp (us : Z).                (* pandas.Timestamp: microseconds since
                                           1970-01-01T00:00:00 UTC *)

(** A [dict] with string keys, in insertion order. *)
Fixpoint dict_get {V} (d : list (string * V)) (k : string) : option V :=
  match d with
  | [] => None
  | (k', v) :: d' => if String.eqb k' k then Some v else dict_get d' k
  end.

(** [d[k] = v]: an existing key keeps its position. *)
Fixpoint dict_set {V} (d : list (string * V)) (k : string) (v : V)
    : list (string * V) :=
  match d with
  | [] => [(k, v)]
  | (k', v') :: d' =>
      if String.eqb k' k then (k', v) :: d' else (k', v') :: dict_set d' k v
  end.

Definition dict_keys {V} (d : list (string * V)) : list string := List.map fst d.

(** [bool(v)]. *)
Definition truthy (v : pyval) : bool :=
  match v with
  | PNone => false
  | PBool b => b
  | PInt n => negb (n =? 0)
  | PFloat (Fnum q) => negb (Qeq_bool q 0)
  | PFloat Fnegzero => false
  | PFloat (Finf _) | PFloat Fnan => true
  | PStr s => negb (String.eqb s "")
  | PList l => match l with [] => false | _ => true end
  | PDict d => match d with [] => false | _ => true end
  | PDatetime _ | PTimestamp _ => true
  end.

(** [v == k] for a string [k]. *)
Definition py_eq_str (k : string) (v : pyval) : bool :=
  match v with
  | PStr s => String.eqb s k
  | _ => false
  end.

Fixpoint str_contains (s k : string) : bool :=
  String.prefix k s ||
  match s with
  | EmptyString => false
  | String _ s' => str_contains s' k
  end.

(** [data.get(key, default)]: only a dict has the method. *)
Definition py_get (data : pyval) (key : string) (default : pyval) : result pyval :=
  match data with
  | PDict d => Ok (match dict_get d key with Some v => v | None => default end)
  | _ => Raise AttributeError
  end.

(** [key in container]. *)
Definition py_contains (key : string) (container : pyval) : result bool :=
  match container with
  | PDict d => Ok (match dict_get d key with Some _ => true | None => false end)
  | PList l => Ok (existsb (py_eq_str key) l)
  | PStr s => Ok (str_contains s key)
  | _ => Raise TypeError    (* argument of type ... is not iterable *)
  end.

(** [container[key]] for a string [key]. *)
Definition py_getitem (container : pyval) (key : string) : result pyval :=
  match container with
  | PDict d =>
      match dict_get d key with
      | Some v => Ok v
      | None => Raise KeyError
      end
  | _ => Raise TypeError    (* indices must be integers / not subscriptable *)
  end.

Definition Qc_of_Z (n : Z) : Qc := Q2Qc (inject_Z n).

(** The largest magnitude that still rounds into the range of a float:
    [2^1024 - 2^970] and above overflow. *)
Definition float_overflows (q : Qc) : bool :=
  Qle_bool (inject_Z (2 ^ 1024 - 2 ^ 970)) (Qabs q).

(** [x / d] for a positive integer constant [d] (true division).  The
    quotient of two integers is rounded once, to the nearest double,
    and is an [OverflowError] when it is too large for one; a float is
    divided by the double [d]. *)
Definition py_truediv (x : pyval) (d : Z) : result pyval :=
  match x with
  | PInt n =>
      let q := (Qc_of_Z n / Qc_of_Z d)%Qc in
      if float_overflows q then Raise OverflowError
      else Ok (PFloat (round_double (inject_Z n / inject_Z d)))
  | PBool b =>
      Ok (PFloat (round_double (inject_Z (if b then 1 else 0) / inject_Z d)))
  | PFloat x => Ok (PFloat (float_div x d))
  | _ => Raise TypeError    (* unsupported operand type(s) for / *)
  end.

(* ================================================================= *)
(** ** Metric definitions *)

Record metric_config : Type := {
  m_name : string;
  m_unit : string;
  convert : pyval -> result pyval
}.

Definition METRICS : list (string * metric_config) :=
  [ ("download",
     {| m_name := "Download"; m_unit := "Mbps";
        convert := fun x => py_truediv x 1000000 |});
    ("upload",
     {| m_name := "Upload"; m_unit := "Mbps";
        convert := fun x => py_truediv x 1000000 |});
    ("latency",
     {| m_name := "Latency"; m_unit := "ms"; convert := fun x => Ok x |});
    ("jitter",
     {| m_name := "Jitter"; m_unit := "ms"; convert := fun x => Ok x |});
    ("downLoadedLatency",
     {| m_name := "Loaded Latency (Down)"; m_unit := "ms";
        convert := fun x => Ok x |});
    ("downLoadedJitter",
     {| m_name := "Loaded Jitter (Down)"; m_unit := "ms";
        convert := fun x => Ok x |});
    ("upLoadedLatency",
     {| m_name := "Loaded Latency (Up)"; m_unit := "ms";
        convert := fun x => Ok x |});
    ("upLoadedJitter",
     {| m_name := "Loaded Jitter (Up)"; m_unit := "ms";
        convert := fun x => Ok x |}) ].

(** [col in METRICS]. *)
Definition in_METRICS (col : string) : bool :=
  match dict_get METRICS col with Some _ => true | None => false end.

(* ================================================================= *)
(** ** Record Extractor *)

(** A record is the Python dict the extractor builds. *)
Abbreviation record := (list (string * pyval)).

(** The loop [for key, config in METRICS.items(): ...] over the
    remaining entries [ms]. *)
Fixpoint convert_metrics (ms : list (string * metric_config)) (data : pyval)
    (rec : record) : result record :=
  match ms with
  | [] => Ok rec
  | (key, config) :: ms' =>
      payload ← py_getitem data "result";
      present ← py_contains key payload;
      if (present : bool) then
        x ← py_getitem payload key;
        v ← convert config x;
        convert_metrics ms' data (dict_set rec key v)
      else convert_metrics ms' data rec
  end.

(** [load_single_file].  [open_json filepath] is the outcome of
    [open(filepath, "r")] followed by [json.load]: the parsed document,
    or the exception one of the two raised. *)
Definition load_single_file (open_json : Path -> result pyval) (filepath : Path)
    : result (option record) :=
  try_except
    (data ← open_json filepath;
     success ← py_get data "success" (PBool false);
     if negb (truthy success) then Ok None
     else
       has_result ← py_contains "result" data;
       if negb has_result then Ok None
       else
         timestamp ← parse_timestamp_from_filename (name filepath);
         match timestamp with
         | None => Ok None
         | Some ts =>
             sessionID ← py_get data "sessionID" PNone;
             endpoint ← py_get data "endpoint" PNone;
             let rec :=
               [ ("timestamp", PDatetime ts);
                 ("source_file", PStr (name filepath));
                 ("sessionID", sessionID);
                 ("endpoint", endpoint) ] in
             rec' ← convert_metrics METRICS data rec;
             Ok (Some rec')
         end)
    [JSONDecodeError; KeyError; TypeError; OSError]
    (Ok None).

(* ================================================================= *)
(** ** pandas.DataFrame *)

(** [date.toordinal], as in CPython's datetime module. *)
Definition days_before_year (y : Z) : Z :=
  let y' := y - 1 in y' * 365 + y' / 4 - y' / 100 + y' / 400.

Definition days_before_month (y m : Z) : Z :=
  fold_left (fun acc k => acc + days_in_month y (Z.of_nat k))
            (seq 1 (Z.to_nat (m - 1))) 0.

Definition toordinal (t : datetime) : Z :=
  days_before_year (year t) + days_before_month (year t) (month t) + day t.

(** The instant of an aware datetime, in microseconds since the epoch
    (ordinal 719163 is 1970-01-01). *)
Definition to_timestamp (t : datetime) : Z :=
  ((((toordinal t - 719163) * 24 + hour t) * 60 + minute t - utcoffset t) * 60
   + second t) * 1000000 + microsecond t.

(** A frame: the column labels in order, and the rows in order.  A row
    maps a column label to its cell; a label without a cell is a
    missing value (NaN, NaT).  The row labels (the index) are not part
    of it: two frames are the same here when they have the same columns
    and the same rows in the same order.  No function of this module
    reads the labels. *)
Record DataFrame : Type := {
  columns : list string;
  rows : list (gmap string pyval)
}.

(** [pd.DataFrame()]. *)
Definition pd_DataFrame : DataFrame := {| columns := []; rows := [] |}.

(** [df.empty]: some axis has length 0. *)
Definition df_empty (df : DataFrame) : bool :=
  match columns df, rows df with
  | [], _ | _, [] => true
  | _, _ => false
  end.

Definition has_column (df : DataFrame) (c : string) : bool :=
  existsb (String.eqb c) (columns df).

(** Labels of [ks] not yet in [cols] are appended, in order. *)
Definition add_new (cols ks : list string) : list string :=
  fold_left (fun cs k => if existsb (String.eqb k) cs then cs else (cs ++ [k])%list) ks cols.

(** What pandas stores for a Python object: a datetime becomes a
    Timestamp. *)
Definition to_cell (v : pyval) : pyval :=
  match v with
  | PDatetime t => PTimestamp (to_timestamp t)
  | _ => v
  end.

Definition row_of_record (r : record) : gmap string pyval :=
  list_to_map (List.map (fun kv => (fst kv, to_cell (snd kv))) r).

(** [pd.DataFrame(records)] for a list of dicts: the columns are the
    keys in order of first appearance. *)
Definition DataFrame_of_records (records : list record) : DataFrame :=
  {| columns := fold_left (fun cs r => add_new cs (dict_keys r)) records [];
     rows := List.map row_of_record records |}.

(** [df[c]]: the cells of a column. *)
Definition series (df : DataFrame) (c : string) : result (list (option pyval)) :=
  if has_column df c then Ok (List.map (fun r => r !! c) (rows df))
  else Raise KeyError.

(** [df.drop(columns=[c])]. *)
Definition drop_columns (df : DataFrame) (c : string) : result DataFrame :=
  if has_column df c then
    Ok {| columns := List.filter (fun k => negb (String.eqb k c)) (columns df);
          rows := List.map (delete c) (rows df) |}
  else Raise KeyError.

(** [pd.concat([a, b], ignore_index=True)]. *)
Definition concat (a b : DataFrame) : DataFrame :=
  {| columns := add_new (columns a) (columns b);
     rows := rows a ++ rows b |}.

(** [df.rename(columns={old: new})]. *)
Definition rename_row (old new : string) (r : gmap string pyval) : gmap string pyval :=
  match r !! old with
  | Some v => <[new := v]> (delete old r)
  | None => r
  end.

Definition rename_columns (df : DataFrame) (old new : string) : DataFrame :=
  {| columns := List.map (fun k => if String.eqb k old then new else k) (columns df);
     rows := List.map (rename_row old new) (rows df) |}.

(** The sort key of a row: its timestamp, [None] for NaT. *)
Definition ts_key (col : string) (r : gmap string pyval) : option Z :=
  match r !! col with
  | Some (PTimestamp t) => Some t
  | _ => None
  end.

(** Ascending order with missing values last ([na_position="last"]). *)
Definition key_leb (a b : option Z) : bool :=
  match a, b with
  | Some x, Some y => x <=? y
  | _, None => true
  | None, Some _ => false
  end.

(** What a timestamp column may hold: timestamps and missing values
    (an absent cell or [None]). *)
Definition sortable (cell : option pyval) : bool :=
  match cell with
  | None | Some PNone | Some (PTimestamp _) => true
  | _ => false
  end.

Fixpoint insert_sorted {A} (leb : A -> A -> bool) (x : A) (l : list A) : list A :=
  match l with
  | [] => [x]
  | y :: l' => if leb x y then x :: l else y :: insert_sorted leb x l'
  end.

(** A stable sort (insertion sort). *)
Definition sort_by {A} (leb : A -> A -> bool) (l : list A) : list A :=
  fold_right (insert_sorted leb) [] l.

(** [df.sort_values(col, ascending=True)] on a column of timestamps.
    pandas sorts with quicksort, which does not promise the order of
    rows with equal keys; here they keep their order.  Both agree on
    rows with pairwise distinct keys, where one ascending arrangement
    exists.  A column holding anything but timestamps and missing
    values is outside the model: [TypeError]. *)
Definition sort_values (df : DataFrame) (col : string) : result DataFrame :=
  if has_column df col then
    if forallb (fun r => sortable (r !! col)) (rows df) then
      Ok {| columns := columns df;
            rows := sort_by (fun r1 r2 => key_leb (ts_key col r1) (ts_key col r2))
                            (rows df) |}
    else Raise TypeError
  else Raise KeyError.

(** The row labels of [df.sort_values(col)] for a frame labelled
    0, 1, 2, ... (a [RangeIndex]): [sort_values] moves the label of a
    row with the row, so the labels of the result are the positions its
    rows had before.  Every frame that [load_all_data] sorts is labelled
    so: [pd.DataFrame(records)], [pd.read_parquet] of a file written
    with [index=False] and [pd.concat(..., ignore_index=True)] label the
    rows 0, 1, 2, ..., and [drop(columns=...)] keeps the labels. *)
Definition sort_values_index (df : DataFrame) (col : string) : list nat :=
  List.map fst
    (sort_by (fun p1 p2 => key_leb (ts_key col (snd p1)) (ts_key col (snd p2)))
             (combine (seq 0 (length (rows df))) (rows df))).

(** Python's [l[start:]]. *)
Definition slice_from {A} (start : Z) (l : list A) : list A :=
  let n := Z.of_nat (length l) in
  if start <? 0 then skipn (Z.to_nat (Z.max (n + start) 0)) l
  else skipn (Z.to_nat (Z.min start n)) l.

(** [df.tail(n)]: [iloc[0:0]] for 0, [iloc[-n:]] otherwise. *)
Definition tail (df : DataFrame) (n : Z) : DataFrame :=
  {| columns := columns df;
     rows := if n =? 0 then [] else slice_from (- n) (rows df) |}.

(** [df.iloc[::-1]]. *)
Definition iloc_reversed (df : DataFrame) : DataFrame :=
  {| columns := columns df; rows := rev (rows df) |}.

(* ================================================================= *)
(** ** Parallel File Loader *)

(** What the loader reads from its surroundings. *)
Record Env : Type := {
  DATA_DIR : string;
  tempdir : string;                      (* tempfile.gettempdir() *)
  dir_exists : bool;                     (* Path(DATA_DIR).exists() *)
  listing : list string;                 (* the names in DATA_DIR *)
  open_json : Path -> result pyval;      (* open + json.load *)
  as_completed : list Path -> list Path; (* the order in which the tasks finish *)
  parquet_writable : bool                (* whether to_parquet succeeds *)
}.

(** The file at a cache path. *)
Inductive parquet : Type :=
  | NoFile
  | Unreadable
  | Snapshot (df : DataFrame).

(** What the loader changes: the parquet files, and (as instrumentation)
    the paths the Record Extractor was invoked on, oldest first. *)
Record World : Type := {
  parquet_files : Path -> parquet;
  extractor_calls : list Path
}.

Definition Path_eqb (p q : Path) : bool :=
  String.eqb (parent p) (parent q) && String.eqb (name p) (name q).

(** The loop over the finished tasks: [future.result()] re-raises the
    task's exception. *)
Fixpoint collect (outcomes : list (result (option record))) (records : list record)
    : result (list record) :=
  match outcomes with
  | [] => Ok records
  | o :: os =>
      r ← o;
      match r with
      | Some rec =>
          if truthy (PDict rec) then collect os (records ++ [rec])%list
          else collect os records
      | None => collect os records
      end
  end.

(** Every submitted task runs, also when the loop stops at an exception:
    leaving the [with] block waits for the pool. *)
Definition _load_json_files_parallel (env : Env) (filepaths : list Path) (w : World)
    : result (list record) * World :=
  match filepaths with
  | [] => (Ok [], w)
  | _ =>
      (collect (List.map (load_single_file (open_json env))
                         (as_completed env filepaths)) [],
       {| parquet_files := parquet_files w;
          extractor_calls := (extractor_calls w ++ filepaths)%list |})
  end.

(* ================================================================= *)
(** ** Cache Store *)

(** Reading a parquet file gives back the frame that was written to it
    (without row labels: [index=False]); what the file format does to
    the cells of a frame is not modelled. *)
Definition _load_cache (cache_path : Path) (w : World) : option DataFrame :=
  match parquet_files w cache_path with
  | NoFile => None
  | Unreadable => None
  | Snapshot df => Some df
  end.

(** A write succeeds, or fails before the file is touched; the
    exception of a failed write is swallowed. *)
Definition _save_cache (env : Env) (df : DataFrame) (cache_path : Path) (w : World)
    : World :=
  if parquet_writable env then
    {| parquet_files := fun p =>
         if Path_eqb p cache_path then Snapshot df else parquet_files w p;
       extractor_calls := extractor_calls w |}
  else w.

(* ================================================================= *)
(** ** Dataset Loader *)

(** [fnmatch(name, "speedtest-*.json")]. *)
Definition glob_match (n : string) : bool :=
  (15 <=? String.length n)%nat && String.prefix "speedtest-" n &&
  String.eqb (substring (String.length n - 5) 5 n) ".json".

(** [set(cached_df["source_file"].unique())], as far as file names can
    be members: the cells that are strings. *)
Definition source_files (cells : list (option pyval)) : gset string :=
  list_to_set (omap (fun cell => match cell with
                                 | Some (PStr s) => Some s
                                 | _ => None
                                 end) cells).

(** The tail of [load_all_data]: sort, save, drop. *)
Definition sort_and_save (env : Env) (cache_path : Path) (df : DataFrame) (w : World)
    : result DataFrame * World :=
  match sort_values df "timestamp" with
  | Raise e => (Raise e, w)
  | Ok df' =>
      let w' := _save_cache env df' cache_path w in
      (drop_columns df' "source_file", w')
  end.

(** [{fp.name: fp for fp in data_path.glob("speedtest-*.json")}]. *)
Definition glob_json_files (env : Env) : list (string * Path) :=
  fold_left (fun d n => dict_set d n {| parent := DATA_DIR env; name := n |})
            (List.filter glob_match (listing env)) [].

(** [load_all_data], without the [st.cache_data] memoisation around it. *)
Definition load_all_data (env : Env) (w : World) : result DataFrame * World :=
  if negb (dir_exists env) then (Ok pd_DataFrame, w)
  else
    let cache_path := _get_cache_path (tempdir env) (DATA_DIR env) in
    let all_json_files := glob_json_files env in
    match all_json_files with
    | [] => (Ok pd_DataFrame, w)
    | _ =>
        let cached_df := _load_cache cache_path w in
        (* cached_df is not None and not cached_df.empty *)
        match match cached_df with
              | Some cdf => if df_empty cdf then None else Some cdf
              | None => None
              end
        with
        | Some cdf =>
            match series cdf "source_file" with
            | Raise e => (Raise e, w)
            | Ok cells =>
                let cached_files := source_files cells in
                let new_files :=
                  List.map snd
                    (List.filter (fun kv => bool_decide (fst kv ∉ cached_files))
                                 all_json_files) in
                match new_files with
                | [] =>
                    (d ← drop_columns cdf "source_file"; sort_values d "timestamp", w)
                | _ =>
                    match _load_json_files_parallel env new_files w with
                    | (Raise e, w1) => (Raise e, w1)
                    | (Ok new_records, w1) =>
                        let df :=
                          match new_records with
                          | [] => cdf
                          | _ => concat cdf (DataFrame_of_records new_records)
                          end in
                        sort_and_save env cache_path df w1
                    end
                end
            end
        | None =>
            match _load_json_files_parallel env (List.map snd all_json_files) w with
            | (Raise e, w1) => (Raise e, w1)
            | (Ok [], w1) => (Ok pd_DataFrame, w1)
            | (Ok records, w1) =>
                sort_and_save env cache_path (DataFrame_of_records records) w1
            end
        end
    end.

(* ================================================================= *)
(** ** Latest measurements *)

Definition get_latest_measurements (df : DataFrame) (count : Z) : DataFrame :=
  if df_empty df then df
  else iloc_reversed (tail df count).

(* ================================================================= *)
(** ** Aggregator *)

(** What the source leaves to pandas, and pandas to its version:
    - [agg_mean], the ["mean"] of the numbers of one group (at least
      one), given in the order of the rows: a sum of float64 values
      divided by their count, where the order and the compensation of
      the summation and the conversion of the integers are pandas' own
      (an integer beyond the range of int64, on which the mean can
      raise, is left out);
    - [agg_empty_raises], whether [agg] with an empty dict raises
      [ValueError] (pandas up to 3.0) or returns the frame of the group
      keys (pandas 3.1). *)
Record Pandas : Type := {
  agg_mean : list pyval -> float;
  agg_empty_raises : bool
}.

(** Flooring an instant to a multiple of [unit] microseconds, for a
    positive [unit].  A zero frequency leaves the instant as it is; a
    negative one goes through the same arithmetic, where the remainder
    has the sign of the divisor. *)
Definition floor_to (unit t : Z) : Z :=
  if unit =? 0 then t else unit * (t / unit).

(** One cell of [df["timestamp"].dt.floor(f"{interval_minutes}min")]. *)
Definition dt_floor (interval_minutes : Z) (cell : option pyval)
    : result (option pyval) :=
  match cell with
  | Some (PTimestamp t) =>
      Ok (Some (PTimestamp (floor_to (interval_minutes * 60000000) t)))
  | None | Some PNone => Ok None    (* NaT stays NaT *)
  | _ => Raise AttributeError       (* .dt needs datetimelike values *)
  end.

Definition set_cell (c : string) (cell : option pyval) (r : gmap string pyval)
    : gmap string pyval :=
  match cell with
  | Some v => <[c := v]> r
  | None => delete c r
  end.

(** [df[c] = cells]. *)
Definition set_column (df : DataFrame) (c : string) (cells : list (option pyval))
    : DataFrame :=
  {| columns := if has_column df c then columns df else (columns df ++ [c])%list;
     rows := zip_with (fun r cell => set_cell c cell r) (rows df) cells |}.

(** The group keys: the distinct timestamps, ascending ([sort=True]);
    rows with a missing key belong to no group ([dropna=True]). *)
Fixpoint insert_key (k : Z) (l : list Z) : list Z :=
  match l with
  | [] => [k]
  | x :: l' =>
      if k <? x then k :: l
      else if k =? x then l
      else x :: insert_key k l'
  end.

Definition group_keys (col : string) (rs : list (gmap string pyval)) : list Z :=
  fold_right insert_key [] (omap (ts_key col) rs).

Definition in_group (col : string) (k : Z) (r : gmap string pyval) : bool :=
  match ts_key col r with
  | Some t => t =? k
  | None => false
  end.

(** A value that can be averaged: an int, a bool (an int in Python) or
    a float. *)
Definition numeric (v : pyval) : bool :=
  match v with
  | PBool _ | PInt _ | PFloat _ => true
  | _ => false
  end.

(** The numbers of a column's non-missing cells, a NaN being a missing
    value; a cell that holds anything else cannot be averaged
    ([TypeError]). *)
Fixpoint numbers (cells : list (option pyval)) : result (list pyval) :=
  match cells with
  | [] => Ok []
  | cell :: cells' =>
      match cell with
      | None | Some PNone | Some (PFloat Fnan) => numbers cells'
      | Some v =>
          if numeric v then qs ← numbers cells'; Ok (v :: qs)
          else Raise TypeError
      end
  end.

(** ["mean"] with [skipna]: no number gives a missing value. *)
Definition mean (pd : Pandas) (cells : list (option pyval)) : result (option pyval) :=
  qs ← numbers cells;
  match qs with
  | [] => Ok None
  | _ => Ok (Some (PFloat (agg_mean pd qs)))
  end.

(** The row of one group: its key and the mean of each column. *)
Fixpoint group_row (pd : Pandas) (members : list (gmap string pyval))
    (cols : list string) (r : gmap string pyval) : result (gmap string pyval) :=
  match cols with
  | [] => Ok r
  | c :: cols' =>
      m ← mean pd (List.map (fun x => x !! c) members);
      group_row pd members cols' (set_cell c m r)
  end.

(** [df.groupby(col).agg({c: "mean" for c in cols}).reset_index()]:
    one row per group key, with the mean of each column of the dict.
    For an empty dict see [agg_empty_raises]. *)
Definition groupby_agg_mean (pd : Pandas) (df : DataFrame) (col : string)
    (cols : list string) : result DataFrame :=
  match cols, agg_empty_raises pd with
  | [], true => Raise ValueError
  | _, _ =>
      rs ← mapM (fun k =>
                   group_row pd (List.filter (in_group col k) (rows df)) cols
                             {[ col := PTimestamp k ]})
                (group_keys col (rows df));
      Ok {| columns := col :: cols; rows := rs |}
  end.

Definition aggregate_to_intervals (pd : Pandas) (df : DataFrame)
    (interval_minutes : Z) : result DataFrame :=
  if df_empty df then Ok df
  else
    ts ← series df "timestamp";
    intervals ← mapM (dt_floor interval_minutes) ts;
    let df := set_column df "interval" intervals in
    let metric_cols := List.filter in_METRICS (columns df) in
    let agg_dict := fold_left (fun d col => dict_set d col "mean") metric_cols [] in
    agg_df ← groupby_agg_mean pd df "interval" (dict_keys agg_dict);
    let agg_df := rename_columns agg_df "interval" "timestamp" in
    sort_values agg_df "timestamp".

(* ================================================================= *)
(** ** The table of recent measurements

    Source: [dashboard/app/components.py], [render_recent_table]. *)

(** Python's [l[:stop]]. *)
Definition slice_to {A} (stop : Z) (l : list A) : list A :=
  let n := Z.of_nat (length l) in
  if stop <? 0 then firstn (Z.to_nat (Z.max (n + stop) 0)) l
  else firstn (Z.to_nat (Z.min stop n)) l.

(** [df.head(n)]: [iloc[:n]]. *)
Definition head (df : DataFrame) (n : Z) : DataFrame :=
  {| columns := columns df; rows := slice_to n (rows df) |}.

(** [df[cols]] for a list of labels: all of them must be columns. *)
Definition select_columns (df : DataFrame) (cols : list string) : result DataFrame :=
  if forallb (has_column df) cols then
    Ok {| columns := cols;
          rows := List.map (filter (fun kv : string * pyval => fst kv ∈ cols)) (rows df) |}
  else Raise KeyError.

(** [df.rename(columns=names)]; no new label of the dict used here is an
    old label, so the entries can be applied one after the other. *)
Definition rename_all (df : DataFrame) (names : list (string * string)) : DataFrame :=
  fold_left (fun d on => rename_columns d (fst on) (snd on)) names df.

(** The Streamlit calls the component makes; the layout options of
    [st.dataframe] are left out. *)
Inductive st_call : Type :=
  | st_subheader (body : string)
  | st_dataframe (data : DataFrame).

(** The two formatting calls are parameters of the model: what
    [Series.dt.strftime(format)] and
    [Series.apply(lambda x: f"{x:.2f}")] return, or raise, for the cells
    of a column.  What they do depends on the dtype pandas gave the
    column, which a frame does not record here; [apply_2f] is given the
    label of the column. *)
Record Formatting : Type := {
  dt_strftime : string -> list (option pyval) -> result (list (option pyval));
  apply_2f : string -> list (option pyval) -> result (list (option pyval))
}.

(** The loop [for col in [...]: display_df[col] = display_df[col].apply(...)]. *)
Fixpoint format_columns (fmt : Formatting) (cols : list string) (df : DataFrame)
    : result DataFrame :=
  match cols with
  | [] => Ok df
  | col :: cols' =>
      cells ← series df col;
      out ← apply_2f fmt col cells;
      format_columns fmt cols' (set_column df col out)
  end.

Definition columns_to_show : list string :=
  ["timestamp"; "download"; "upload"; "latency"; "jitter"].

Definition column_rename : list (string * string) :=
  [ ("timestamp", "Time"); ("download", "Download (Mbps)");
    ("upload", "Upload (Mbps)"); ("latency", "Latency (ms)");
    ("jitter", "Jitter (ms)") ].

(** [render_recent_table]: its outcome and the Streamlit calls it made,
    in order. *)
Definition render_recent_table (fmt : Formatting) (df : DataFrame) (count : Z)
    : result unit * list st_call :=
  if df_empty df then (Ok tt, [])
  else
    let calls :=
      [ st_subheader ("Last " +:+ pretty (Z.min count (Z.of_nat (length (rows df))))
                      +:+ " Measurements") ] in
    let display_df := head df count in
    match
      (ts ← series display_df "timestamp";
       texts ← dt_strftime fmt "%Y-%m-%d %H:%M" ts;
       let display_df := set_column display_df "timestamp" texts in
       display_df ← select_columns display_df columns_to_show;
       let display_df := rename_all display_df column_rename in
       format_columns fmt
         ["Download (Mbps)"; "Upload (Mbps)"; "Latency (ms)"; "Jitter (ms)"]
         display_df)
    with
    | Ok display_df => (Ok tt, (calls ++ [st_dataframe display_df])%list)
    | Raise e => (Raise e, calls)
    end.

(* ================================================================= *)
(** ** Vocabulary of the specification *)

(** The exact shape of a measurement file name,
    speedtest-<YYYY-MM-DD>T<HH>-<MM>-<SS>-<mmm>Z.json: in the template a
    ['#'] stands for one decimal digit, any other character for itself. *)
Definition shape_template : string := "speedtest-####-##-##T##-##-##-###Z.json".

Fixpoint fits (template s : string) : bool :=
  match template, s with
  | EmptyString, EmptyString => true
  | String t template', String c s' =>
      (if Ascii.eqb t "#" then is_digit c else Ascii.eqb t c) && fits template' s'
  | _, _ => false
  end.

Definition has_shape (filename : string) : bool := fits shape_template filename.

(** The characters a pattern consumes, group marks left out, and
    whether a string starts with characters they accept. *)
Definition consuming (a : atom) : bool :=
  match a with
  | GroupOpen | GroupClose => false
  | _ => true
  end.

Fixpoint starts_with (atoms : list atom) (s : string) : bool :=
  match atoms with
  | [] => true
  | a :: atoms' =>
      match s with
      | EmptyString => false
      | String c s' => accepts a c && starts_with atoms' s'
      end
  end.

Definition atom_of_template (t : ascii) : atom :=
  if Ascii.eqb t "#" then Dig else Chr t.

(** "The last [k] rows"; none for [k <= 0]. *)
Definition last_rows {A} (k : Z) (l : list A) : list A :=
  skipn (length l - Z.to_nat k) l.

(** The raw value of a metric in a parsed document: [data["result"][key]]. *)
Definition raw_metric (data : pyval) (key : string) : option pyval :=
  match data with
  | PDict d =>
      match dict_get d "result" with
      | Some (PDict payload) => dict_get payload key
      | _ => None
      end
  | _ => None
  end.

(** Whether the success field of a parsed document is present and truthy. *)
Definition success_truthy (data : pyval) : bool :=
  match data with
  | PDict d =>
      match dict_get d "success" with
      | Some v => truthy v
      | None => false
      end
  | _ => false
  end.

(** The number a payload value stands for in an arithmetic expression;
    an infinity and a NaN stand for none. *)
Definition as_number (x : pyval) : option Q :=
  match x with
  | PInt n => Some (inject_Z n)
  | PBool b => Some (inject_Z (if b then 1 else 0))
  | PFloat (Fnum q) => Some q
  | PFloat Fnegzero => Some 0%Q
  | _ => None
  end.

(** What float arithmetic gives for [x / d], [d] a positive integer:
    for an integer the double nearest to the quotient, for a float the
    quotient of two doubles, rounded likewise. *)
Definition quotient_in_float (x : pyval) (d : Z) : option float :=
  match x with
  | PInt n => Some (round_double (inject_Z n / inject_Z d))
  | PBool b => Some (round_double (inject_Z (if b then 1 else 0) / inject_Z d))
  | PFloat f => Some (float_div f d)
  | _ => None
  end.

(** Ascending by timestamp, rows without one last. *)
Definition ts_le (r1 r2 : gmap string pyval) : Prop :=
  key_leb (ts_key "timestamp" r1) (ts_key "timestamp" r2) = true.










(** The value of a computation, when it returns one. *)
Definition value_or {A} (d : A) (m : result A) : A :=
  match m with
  | Ok a => a
  | Raise _ => d
  end.





(** What consumers may rely on: rows ascending by timestamp, no
    source-identifier column and no source-identifier cell. *)
Definition public (df : DataFrame) : Prop :=
  StronglySorted ts_le (rows df) /\
  has_column df "source_file" = false /\
  List.Forall (fun r => r !! "source_file" = None) (rows df).

(* ================================================================= *)
(** ** Vocabulary of the further properties *)

(** The decimal number written in the [len] characters of [s] that
    start at position [start]. *)
Definition number_at (start len : nat) (s : string) : Z :=
  int_of_digits (substring start len s).

(** The instant a measurement file name writes, read field by field. *)
Definition written (filename : string) : datetime :=
  {| year := number_at 10 4 filename; month := number_at 15 2 filename;
     day := number_at 18 2 filename;
     hour := number_at 21 2 filename; minute := number_at 24 2 filename;
     second := number_at 27 2 filename;
     microsecond := 1000 * number_at 30 3 filename;
     utcoffset := 0 |}.

(** The fields form a date of the calendar and a time of day. *)
Definition valid_datetime (t : datetime) : bool :=
  (1 <=? year t) && (1 <=? month t) && (month t <=? 12) &&
  (1 <=? day t) && (day t <=? days_in_month (year t) (month t)) &&
  (hour t <=? 23) && (minute t <=? 59) && (second t <=? 59).

(** Whether the payload of a document has a metric. *)
Definition has_metric (data : pyval) (key : string) : bool :=
  match raw_metric data key with Some _ => true | None => false end.

(** [data.get(key)] on a document that is an object. *)
Definition field_or_None (data : pyval) (key : string) : pyval :=
  match data with
  | PDict d => match dict_get d key with Some v => v | None => PNone end
  | _ => PNone
  end.

(** A byte rate that is an integer too large for a float division. *)
Definition overflowing (data : pyval) : Prop :=
  exists key n,
    In key ["download"; "upload"] /\ raw_metric data key = Some (PInt n) /\
    float_overflows (Qc_of_Z n / Qc_of_Z 1000000)%Qc = true.

(** The record a path yields, if it yields one. *)
Definition yields (load : Path -> result (option record)) (p : Path) : option record :=
  match load p with
  | Ok (Some rec) => Some rec
  | _ => None
  end.

(** The snapshot a run works with: the cache file's frame when the file
    is readable and the frame is not empty. *)
Definition usable_snapshot (env : Env) (w : World) : option DataFrame :=
  match _load_cache (_get_cache_path (tempdir env) (DATA_DIR env)) w with
  | Some cdf => if df_empty cdf then None else Some cdf
  | None => None
  end.

(** A file name is in the source_file column of a snapshot. *)
Definition named_in (snapshot : DataFrame) (n : string) : Prop :=
  In (Some (PStr n)) (List.map (fun r => r !! "source_file") (rows snapshot)).

(** The rows of the usable snapshot; none without one. *)
Definition snapshot_rows (env : Env) (w : World) : list (gmap string pyval) :=
  match usable_snapshot env w with
  | Some snapshot => rows snapshot
  | None => []
  end.

(** The files a run hands to the Record Extractor: the matching files
    that the usable snapshot does not name. *)
Definition parsed_files (env : Env) (w : World) : list Path :=
  match usable_snapshot env w with
  | Some snapshot =>
      List.map snd
        (List.filter
           (fun kv => bool_decide
              (fst kv ∉ source_files (List.map (fun r => r !! "source_file")
                                               (rows snapshot))))
           (glob_json_files env))
  | None => List.map snd (glob_json_files env)
  end.

(** The snapshot holds the records of the files [fs], which are in the
    directory and yield a record. *)
Definition snapshot_of (env : Env) (snapshot : DataFrame) (fs : list Path) : Prop :=
  List.NoDup fs /\
  (forall p, In p fs ->
     In (name p, p) (glob_json_files env) /\
     exists rec, load_single_file (open_json env) p = Ok (Some rec)) /\
  Permutation (rows snapshot)
    (List.map row_of_record (omap (yields (load_single_file (open_json env))) fs)).

(** The same surroundings, with the given outcome of writing the cache. *)
Definition with_parquet_writable (b : bool) (env : Env) : Env :=
  {| DATA_DIR := DATA_DIR env; tempdir := tempdir env; dir_exists := dir_exists env;
     listing := listing env; open_json := open_json env;
     as_completed := as_completed env; parquet_writable := b |}.

(** The surroundings of a later run over the same directory: the pool
    tasks may finish in another order, and the cache may be writable or
    not. *)
Definition later_run (order : list Path -> list Path) (writable : bool) (env : Env) : Env :=
  {| DATA_DIR := DATA_DIR env; tempdir := tempdir env; dir_exists := dir_exists env;
     listing := listing env; open_json := open_json env;
     as_completed := order; parquet_writable := writable |}.

(** The value a computation returned, if it returned. *)
Definition value_of {A} (m : result A) : option A :=
  match m with
  | Ok a => Some a
  | Raise _ => None
  end.

(** A row holds a timestamp. *)
Definition has_timestamp (r : gmap string pyval) : Prop :=
  exists t, r !! "timestamp" = Some (PTimestamp t).


(** One of the characters 0..9 and a..f. *)
Definition is_lower_hex (c : ascii) : bool :=
  let n := N_of_ascii c in
  ((48 <=? n) && (n <=? 57) || (97 <=? n) && (n <=? 102))%N.



(** A formatting call returns one cell per cell. *)
Definition length_preserving (f : list (option pyval) -> result (list (option pyval)))
    : Prop :=
  forall cells out, f cells = Ok out -> length out = length cells.

(* ================================================================= *)
(** ** Sample inputs *)

Definition sample_name : string := "speedtest-2024-01-15T10-30-00-000Z.json".

Definition sample_path : Path := {| parent := "/data"; name := sample_name |}.

Definition no_parquet : World :=
  {| parquet_files := fun _ => NoFile; extractor_calls := [] |}.

(** A directory whose only file holds the JSON document [[]]. *)
Definition env_list_document : Env :=
  {| DATA_DIR := "/data"; tempdir := "/tmp"; dir_exists := true;
     listing := [sample_name];
     open_json := fun _ => Ok (PList []);
     as_completed := fun l => l;
     parquet_writable := true |}.

(** A successful measurement with a raw download value of 50,000,000,
    and the record the extractor builds from it. *)
Definition download_document : pyval :=
  PDict [ ("success", PBool true);
          ("result", PDict [("download", PInt 50000000); ("latency", PInt 12)]) ].

Definition download_record : record :=
  [ ("timestamp",
     PDatetime {| year := 2024; month := 1; day := 15;
                  hour := 10; minute := 30; second := 0; microsecond := 0;
                  utcoffset := 0 |});
    ("source_file", PStr sample_name);
    ("sessionID", PNone);
    ("endpoint", PNone);
    ("download", PFloat (Fnum 50));
    ("latency", PInt 12) ].

(** A data directory with four measurements, at 10:00:00, 10:01:00,
    10:11:00 and 10:21:00, a file that is not JSON, and a file that is
    not a measurement. *)
Definition file_1000 : string := "speedtest-2024-01-15T10-00-00-000Z.json".
Definition file_1001 : string := "speedtest-2024-01-15T10-01-00-000Z.json".
Definition file_1011 : string := "speedtest-2024-01-15T10-11-00-000Z.json".
Definition file_1021 : string := "speedtest-2024-01-15T10-21-00-000Z.json".
Definition file_corrupt : string := "speedtest-2024-01-15T10-31-00-000Z.json".

Definition measurement (download : Z) : pyval :=
  PDict [ ("success", PBool true); ("sessionID", PStr "abc");
          ("result", PDict [("download", PInt download); ("latency", PInt 12)]) ].

Definition sample_files (p : Path) : result pyval :=
  if String.eqb (name p) file_1000 then Ok (measurement 10000000)
  else if String.eqb (name p) file_1001 then Ok (measurement 30000000)
  else if String.eqb (name p) file_1011 then Ok (measurement 50000000)
  else if String.eqb (name p) file_1021 then Ok (measurement 70000000)
  else if String.eqb (name p) file_corrupt then Raise JSONDecodeError
  else Raise OSError.

Definition env_sample : Env :=
  {| DATA_DIR := "/data"; tempdir := "/tmp"; dir_exists := true;
     listing := [file_1011; file_1000; "notes.txt"; file_corrupt; file_1021; file_1001];
     open_json := sample_files;
     as_completed := fun l => rev l;
     parquet_writable := true |}.

(** The same directory without the file that is not JSON. *)
Definition env_clean : Env :=
  {| DATA_DIR := "/data"; tempdir := "/tmp"; dir_exists := true;
     listing := [file_1011; file_1000; "notes.txt"; file_1021; file_1001];
     open_json := sample_files;
     as_completed := fun l => rev l;
     parquet_writable := true |}.

Definition sample_row (ts download : Z) : gmap string pyval :=
  list_to_map [ ("timestamp", PTimestamp ts); ("sessionID", PStr "abc");
                ("endpoint", PNone);
                ("download", PFloat (Fnum (inject_Z download)));
                ("latency", PInt 12) ].

(** The dataset of the four measurements; 1705312800000000 is
    2024-01-15T10:00:00Z. *)
Definition sample_dataset : DataFrame :=
  {| columns := ["timestamp"; "sessionID"; "endpoint"; "download"; "latency"];
     rows := [ sample_row 1705312800000000 10;
               sample_row 1705312860000000 30;
               sample_row 1705313460000000 50;
               sample_row 1705314060000000 70 ] |}.



(** An instant of 2024-01-15, UTC. *)
Definition on_2024_01_15 (h mi s : Z) : Z :=
  to_timestamp {| year := 2024; month := 1; day := 15;
                  hour := h; minute := mi; second := s; microsecond := 0;
                  utcoffset := 0 |}.

(** A pandas whose mean rounds once, the exact mean of the numbers to
    the nearest double, and whose [agg] refuses an empty dict. *)
Definition exact_sum (xs : list pyval) : Q :=
  fold_right (fun x acc => (match as_number x with Some q => q | None => 0 end + acc)%Q)
             0%Q xs.

Definition sample_pandas : Pandas :=
  {| agg_mean := fun xs => round_double (exact_sum xs / inject_Z (Z.of_nat (length xs)));
     agg_empty_raises := true |}.

(** The aggregate of the four measurements over 10 minutes. *)
Definition sample_aggregate : DataFrame :=
  match aggregate_to_intervals sample_pandas sample_dataset 10 with
  | Ok agg => agg
  | Raise _ => pd_DataFrame
  end.

(** Three rows with a timestamp column. *)
Definition three_rows : DataFrame :=
  {| columns := ["timestamp"];
     rows := [ {[ "timestamp" := PTimestamp 1 ]};
               {[ "timestamp" := PTimestamp 2 ]};
               {[ "timestamp" := PTimestamp 3 ]} ] |}.

(** A world whose cache files are all unreadable. *)
Definition broken_cache : World :=
  {| parquet_files := fun _ => Unreadable; extractor_calls := [] |}.


(** A directory with two measurements that report different metrics,
    and a cache that cannot be written. *)
Definition env_two_shapes : Env :=
  {| DATA_DIR := "/data"; tempdir := "/tmp"; dir_exists := true;
     listing := [file_1000; file_1001];
     open_json := fun p =>
       if String.eqb (name p) file_1000
       then Ok (PDict [ ("success", PBool true);
                        ("result", PDict [("latency", PInt 12)]) ])
       else Ok (measurement 30000000);
     as_completed := fun l => rev l;
     parquet_writable := false |}.

(** A formatting that leaves the cells as they are. *)
Definition sample_formatting : Formatting :=
  {| dt_strftime := fun _ cells => Ok cells;
     apply_2f := fun _ cells => Ok cells |}.

(** Three measurements with the four displayed metrics. *)
Definition full_row (ts : Z) : gmap string pyval :=
  list_to_map [ ("timestamp", PTimestamp ts); ("download", PFloat (Fnum 50));
                ("upload", PFloat (Fnum 10)); ("latency", PInt 12);
                ("jitter", PInt 2) ].

Definition full_dataset : DataFrame :=
  {| columns := ["timestamp"; "sessionID"; "download"; "upload"; "latency"; "jitter"];
     rows := [ full_row 1705312800000000; full_row 1705312860000000;
               full_row 1705313460000000 ] |}.

(* ================================================================= *)
(** * Properties *)

(** ** Strings *)

Lemma chars_append (a b : string) :
  list_ascii_of_string (a +:+ b) = (list_ascii_of_string a ++ list_ascii_of_string b)%list.
Proof. induction a as [|c a IH]; simpl; [reflexivity | now rewrite IH]. Qed.

Lemma chars_inj (a b : string) :
  list_ascii_of_string a = list_ascii_of_string b -> a = b.
Proof.
  intros H.
  rewrite <- (string_of_list_ascii_of_string a), <- (string_of_list_ascii_of_string b).
  now rewrite H.
Qed.

Lemma append_inv_tail (a b x : string) : a +:+ x = b +:+ x -> a = b.
Proof.
  intros H. apply chars_inj.
  apply (f_equal list_ascii_of_string) in H.
  rewrite !chars_append in H.
  now apply app_inv_tail in H.
Qed.

(** ** float: rounding to the nearest double *)

Lemma pow2_le_iff k n d s t :
  0 < d -> 0 <= s -> 0 <= t -> t - s = k ->
  pow2_le k n d = true <-> d * 2 ^ t <= n * 2 ^ s.
Proof.
  intros Hd Hs Ht Hk. unfold pow2_le. rewrite Z.leb_le.
  destruct (Z.le_ge_cases 0 k) as [Hk0|Hk0].
  - rewrite (Z.max_l k 0), (Z.max_r (- k) 0) by lia.
    replace t with (k + s) by lia. rewrite Z.pow_add_r by lia.
    assert (0 < 2 ^ s) by (apply Z.pow_pos_nonneg; lia).
    assert (0 < 2 ^ k) by (apply Z.pow_pos_nonneg; lia).
    change (2 ^ 0) with 1. nia.
  - rewrite (Z.max_r k 0), (Z.max_l (- k) 0) by lia.
    replace s with (- k + t) by lia. rewrite Z.pow_add_r by lia.
    assert (0 < 2 ^ t) by (apply Z.pow_pos_nonneg; lia).
    assert (0 < 2 ^ (- k)) by (apply Z.pow_pos_nonneg; lia).
    change (2 ^ 0) with 1. nia.
Qed.

Lemma pow2_le_antitone k k' n d :
  0 < d -> 0 <= n -> k' <= k -> pow2_le k n d = true -> pow2_le k' n d = true.
Proof.
  intros Hd Hn Hkk H.
  set (s := Z.abs k + Z.abs k').
  apply (pow2_le_iff k n d s (k + s)) in H; try (unfold s; lia).
  apply (pow2_le_iff k' n d s (k' + s)); try (unfold s; lia).
  assert (2 ^ (k' + s) <= 2 ^ (k + s)) by (apply Z.pow_le_mono_r; unfold s; lia).
  assert (0 < 2 ^ (k' + s)) by (apply Z.pow_pos_nonneg; unfold s; lia).
  nia.
Qed.

Lemma floor_log2_spec n d :
  0 < n -> 0 < d ->
  pow2_le (floor_log2 n d) n d = true /\ pow2_le (floor_log2 n d + 1) n d = false.
Proof.
  intros Hn Hd. unfold floor_log2.
  destruct (Z.log2_spec n Hn) as [Hn1 Hn2]. destruct (Z.log2_spec d Hd) as [Hd1 Hd2].
  pose proof (Z.log2_nonneg n) as Hln. pose proof (Z.log2_nonneg d) as Hld.
  set (ln := Z.log2 n) in *. set (ld := Z.log2 d) in *.
  rewrite Z.pow_succ_r in Hn2, Hd2 by assumption.
  assert (HA : 0 < 2 ^ ln) by (apply Z.pow_pos_nonneg; lia).
  assert (HB : 0 < 2 ^ ld) by (apply Z.pow_pos_nonneg; lia).
  assert (Hlow : pow2_le (ln - ld - 1) n d = true).
  { apply (pow2_le_iff _ n d (ld + 1) ln); try lia.
    rewrite Z.pow_add_r by lia. change (2 ^ 1) with 2. nia. }
  assert (Hhigh : pow2_le (ln - ld + 1) n d = false).
  { apply not_true_is_false. intros H.
    apply (pow2_le_iff _ n d ld (ln + 1)) in H; try lia.
    rewrite Z.pow_add_r in H by lia. change (2 ^ 1) with 2 in H. nia. }
  destruct (pow2_le (ln - ld) n d) eqn:E.
  - split; [exact E | exact Hhigh].
  - split; [exact Hlow|]. now replace (ln - ld - 1 + 1) with (ln - ld) by lia.
Qed.

(** [round_half_even] gives a nearest integer. *)
Lemma round_half_even_nearest n d j :
  0 < d ->
  Z.abs (round_half_even n d * d - n) <= Z.abs (j * d - n).
Proof.
  intros Hd. unfold round_half_even.
  pose proof (Z.div_mod n d ltac:(lia)) as Hdiv.
  pose proof (Z.mod_pos_bound n d Hd) as Hmod.
  set (f := n / d) in *. set (r := n mod d) in *. clearbody f r.
  assert (Hj : j * d <= f * d \/ (f + 1) * d <= j * d).
  { destruct (Z.le_gt_cases j f); [left|right]; apply Z.mul_le_mono_nonneg_r; lia. }
  rewrite (Z.mul_comm d f) in Hdiv. rewrite Z.mul_add_distr_r in Hj.
  destruct (Z.compare_spec (2 * r) d) as [E|E|E].
  - destruct (Z.even f); rewrite ?Z.mul_add_distr_r; lia.
  - lia.
  - rewrite Z.mul_add_distr_r; lia.
Qed.

Lemma round_half_even_bounds n d :
  0 < d -> 0 <= n ->
  0 <= round_half_even n d /\ 2 * round_half_even n d * d <= 2 * n + d.
Proof.
  intros Hd Hn. unfold round_half_even.
  pose proof (Z.div_mod n d ltac:(lia)) as Hdiv.
  pose proof (Z.mod_pos_bound n d Hd) as Hmod.
  pose proof (Z.div_pos n d Hn Hd) as Hf.
  set (f := n / d) in *. set (r := n mod d) in *. clearbody f r.
  destruct (Z.compare_spec (2 * r) d) as [E|E|E].
  - destruct (Z.even f); split; nia.
  - split; nia.
  - split; nia.
Qed.

Lemma int_double_opp y : int_double y -> int_double (- y).
Proof.
  intros (m & e & Hm & He & ->). exists (- m), e.
  split; [now rewrite Z.abs_opp|]. split; [exact He|]. ring.
Qed.

Section Rounding.

Variables n d : Z.
Hypothesis Hn : 0 < n.
Hypothesis Hd : 0 < d.

Let e := last_bit n d.
Let m := round_half_even (n * 2 ^ Z.max (- e) 0) (d * 2 ^ Z.max e 0).

Lemma last_bit_scaling :
  exists c, 0 < c /\
    forall j, j * 2 ^ (e + 1074) * d - n * 2 ^ 1074 =
              c * (j * (d * 2 ^ Z.max e 0) - n * 2 ^ Z.max (- e) 0).
Proof.
  assert (He : -1074 <= e) by (unfold e, last_bit; lia).
  destruct (Z.le_gt_cases 0 e) as [H0|H0].
  - exists (2 ^ 1074). split; [apply Z.pow_pos_nonneg; lia|]. intros j.
    rewrite (Z.max_l e 0), (Z.max_r (- e) 0) by lia.
    rewrite Z.pow_add_r by lia. change (2 ^ 0) with 1.
    generalize (2 ^ 1074), (2 ^ e). intros. ring.
  - exists (2 ^ (e + 1074)). split; [apply Z.pow_pos_nonneg; lia|]. intros j.
    rewrite (Z.max_r e 0), (Z.max_l (- e) 0) by lia.
    assert (HT : 2 ^ 1074 = 2 ^ (e + 1074) * 2 ^ (- e)).
    { rewrite <- Z.pow_add_r by lia. f_equal. lia. }
    rewrite HT. change (2 ^ 0) with 1.
    generalize (2 ^ (e + 1074)), (2 ^ (- e)). intros. ring.
Qed.

Lemma mantissa_nearest_multiple j :
  Z.abs (m * 2 ^ (e + 1074) * d - n * 2 ^ 1074) <=
  Z.abs (j * 2 ^ (e + 1074) * d - n * 2 ^ 1074).
Proof.
  destruct last_bit_scaling as (c & Hc & HS). rewrite !HS, !Z.abs_mul.
  apply Z.mul_le_mono_nonneg_l; [lia|].
  apply round_half_even_nearest.
  assert (0 < 2 ^ Z.max e 0) by (apply Z.pow_pos_nonneg; lia). nia.
Qed.

Lemma nearest_scaled y :
  int_double y ->
  Z.abs (m * 2 ^ (e + 1074) * d - n * 2 ^ 1074) <= Z.abs (y * d - n * 2 ^ 1074).
Proof.
  intros (M & E & HM & HE & ->).
  destruct (floor_log2_spec n d Hn Hd) as [Hlo _].
  assert (He : e = Z.max (floor_log2 n d - 52) (-1074)) by reflexivity.
  set (k := floor_log2 n d) in *.
  destruct (Z.le_gt_cases (e + 1074) E) as [HeE|HeE].
  - replace (M * 2 ^ E) with (M * 2 ^ (E - (e + 1074)) * 2 ^ (e + 1074)).
    + apply mantissa_nearest_multiple.
    + rewrite <- Z.mul_assoc, <- Z.pow_add_r by lia. do 2 f_equal. lia.
  - assert (Hek : e + 1074 = k + 1022) by lia.
    pose proof (mantissa_nearest_multiple (2 ^ 52)) as Hnear.
    apply (pow2_le_iff k n d 1074 (k + 1074)) in Hlo; try lia.
    replace (k + 1074) with (52 + (e + 1074)) in Hlo by lia.
    rewrite Z.pow_add_r in Hlo by lia.
    assert (HP : 2 ^ (e + 1074) = 2 * 2 ^ (e + 1074 - 1)).
    { rewrite <- Z.pow_succ_r by lia. f_equal. lia. }
    assert (HPE : 2 ^ E <= 2 ^ (e + 1074 - 1)) by (apply Z.pow_le_mono_r; lia).
    assert (HE0 : 0 < 2 ^ E) by (apply Z.pow_pos_nonneg; lia).
    revert Hnear Hlo HP HPE HE0.
    generalize (2 ^ 1074) (2 ^ (e + 1074)) (2 ^ (e + 1074 - 1)) (2 ^ E).
    intros T P P' PE Hnear Hlo HP HPE HE0.
    assert (HY : M * PE < 2 ^ 52 * P).
    { assert (M * PE <= Z.abs M * PE) by (apply Z.mul_le_mono_nonneg_r; lia).
      assert (Z.abs M * PE <= (2 ^ 53 - 1) * PE) by (apply Z.mul_le_mono_nonneg_r; lia).
      assert ((2 ^ 53 - 1) * PE <= (2 ^ 53 - 1) * P') by (apply Z.mul_le_mono_nonneg_l; lia).
      lia. }
    assert (HYd : M * PE * d < 2 ^ 52 * P * d) by (apply Z.mul_lt_mono_pos_r; lia).
    lia.
Qed.

Lemma below_next_binade :
  n * 2 ^ Z.max (- e) 0 < 2 ^ 53 * (d * 2 ^ Z.max e 0).
Proof.
  destruct (floor_log2_spec n d Hn Hd) as [_ Hhi].
  assert (He : e = Z.max (floor_log2 n d - 52) (-1074)) by reflexivity.
  set (k := floor_log2 n d) in *.
  destruct (pow2_le (e + 53) n d) eqn:Hp.
  - apply (pow2_le_antitone _ (k + 1)) in Hp; [congruence|lia..].
  - apply Z.nle_gt. intros H. apply not_true_iff_false in Hp. apply Hp.
    apply (pow2_le_iff _ n d (Z.max (- e) 0) (Z.max e 0 + 53)); try lia.
    rewrite Z.pow_add_r by lia. lia.
Qed.

Lemma mantissa_bounds : 0 <= m <= 2 ^ 53.
Proof.
  assert (HD : 0 < d * 2 ^ Z.max e 0).
  { assert (0 < 2 ^ Z.max e 0) by (apply Z.pow_pos_nonneg; lia). nia. }
  assert (HN : 0 <= n * 2 ^ Z.max (- e) 0).
  { assert (0 < 2 ^ Z.max (- e) 0) by (apply Z.pow_pos_nonneg; lia). nia. }
  destruct (round_half_even_bounds _ _ HD HN) as [H0 H1]. fold m in H0, H1.
  pose proof below_next_binade as H2.
  revert HD HN H0 H1 H2. generalize (d * 2 ^ Z.max e 0) (n * 2 ^ Z.max (- e) 0).
  intros D N HD HN H0 H1 H2. split; [exact H0|].
  apply Z.nlt_ge. intros Hm.
  assert ((2 ^ 53 + 1) * D <= m * D) by (apply Z.mul_le_mono_nonneg_r; lia).
  lia.
Qed.

Lemma rounded_is_double :
  m * 2 ^ Z.max e 0 < 2 ^ 1024 -> int_double (m * 2 ^ (e + 1074)).
Proof.
  intros Hfin. destruct mantissa_bounds as [Hm0 Hm1].
  assert (He : -1074 <= e) by (unfold e, last_bit; lia).
  destruct (Z.le_gt_cases e 971) as [Hsmall|Hbig].
  - destruct (Z.eq_dec m (2 ^ 53)) as [Hm|Hm].
    + exists (2 ^ 52), (e + 1074 + 1). split; [reflexivity|]. split.
      * split; [lia|]. apply Z.nlt_ge. intros He1. assert (e = 971) as He971 by lia.
        rewrite Hm, He971 in Hfin. vm_compute in Hfin. discriminate Hfin.
      * rewrite Hm, (Z.pow_add_r 2 (e + 1074) 1) by lia.
        change (2 ^ 53) with (2 ^ 52 * 2). change (2 ^ 1) with 2.
        generalize (2 ^ 52) (2 ^ (e + 1074)). intros. ring.
    + exists m, (e + 1074). split; [lia|]. split; [lia|reflexivity].
  - exists (m * 2 ^ (e - 971)), 2045. rewrite Z.max_l in Hfin by lia. split; [|split; [lia|]].
    + assert (HT : 2 ^ e = 2 ^ (e - 971) * 2 ^ 971).
      { rewrite <- Z.pow_add_r by lia. f_equal. lia. }
      rewrite HT in Hfin. change (2 ^ 1024) with (2 ^ 53 * 2 ^ 971) in Hfin.
      assert (0 < 2 ^ (e - 971)) by (apply Z.pow_pos_nonneg; lia).
      rewrite Z.abs_eq by nia.
      apply (Z.mul_lt_mono_pos_r (2 ^ 971)); [reflexivity|]. lia.
    + rewrite <- Z.mul_assoc, <- Z.pow_add_r by lia. do 2 f_equal. lia.
Qed.

Lemma exact_scaled y :
  int_double y -> y * d = n * 2 ^ 1074 ->
  m * 2 ^ (e + 1074) * d = n * 2 ^ 1074 /\ 0 < m /\ m * 2 ^ Z.max e 0 < 2 ^ 1024.
Proof.
  intros Hy Heq. pose proof (nearest_scaled y Hy) as Hnear.
  destruct mantissa_bounds as [Hm0 Hm1].
  assert (He : -1074 <= e) by (unfold e, last_bit; lia).
  assert (HT : 0 < 2 ^ 1074) by (apply Z.pow_pos_nonneg; lia).
  assert (HV : m * 2 ^ (e + 1074) * d = n * 2 ^ 1074) by lia.
  split; [exact HV|].
  assert (Hm : 0 < m).
  { destruct (Z.eq_dec m 0) as [Hz|Hz]; [|lia].
    rewrite Hz in HV. assert (0 < n * 2 ^ 1074) by (apply Z.mul_pos_pos; assumption). lia. }
  split; [exact Hm|].
  destruct (Z.le_gt_cases 0 e) as [Hpos|Hneg].
  - rewrite Z.max_l by lia.
    destruct Hy as (M & E & HM & HE & ->).
    assert (HVy : m * 2 ^ (e + 1074) = M * 2 ^ E).
    { apply (Z.mul_cancel_r _ _ d); lia. }
    rewrite Z.pow_add_r in HVy by lia.
    assert (HPE : 2 ^ E <= 2 ^ 2045) by (apply Z.pow_le_mono_r; lia).
    assert (HE0 : 0 < 2 ^ E) by (apply Z.pow_pos_nonneg; lia).
    assert (H1 : M * 2 ^ E <= Z.abs M * 2 ^ E) by (apply Z.mul_le_mono_nonneg_r; lia).
    assert (H2 : Z.abs M * 2 ^ E <= (2 ^ 53 - 1) * 2 ^ E) by (apply Z.mul_le_mono_nonneg_r; lia).
    assert (H3 : (2 ^ 53 - 1) * 2 ^ E <= (2 ^ 53 - 1) * 2 ^ 2045) by (apply Z.mul_le_mono_nonneg_l; lia).
    assert (H4 : (2 ^ 53 - 1) * 2 ^ 2045 < 2 ^ 1024 * 2 ^ 1074) by reflexivity.
    apply (Z.mul_lt_mono_pos_r (2 ^ 1074)); [exact HT|].
    rewrite <- Z.mul_assoc.
    revert HVy H1 H2 H3 H4.
    generalize (2 ^ 1024 * 2 ^ 1074) ((2 ^ 53 - 1) * 2 ^ 2045) ((2 ^ 53 - 1) * 2 ^ E)
               (m * (2 ^ e * 2 ^ 1074)) (Z.abs M * 2 ^ E) (M * 2 ^ E).
    intros. lia.
  - rewrite Z.max_r by lia. change (2 ^ 0) with 1.
    apply Z.le_lt_trans with (2 ^ 53); [lia | reflexivity].
Qed.

End Rounding.

Lemma Qabs_diff_le (V Y n : Z) (T d : positive) :
  Z.abs (V * Zpos d - n * Zpos T) <= Z.abs (Y * Zpos d - n * Zpos T) ->
  (Qabs ((V # T) - (n # d)) <= Qabs ((Y # T) - (n # d)))%Q.
Proof.
  intros H. unfold Qle, Qabs, Qminus, Qplus, Qopp. cbn [Qnum Qden].
  apply Z.mul_le_mono_nonneg_r; [lia|].
  replace (V * Zpos d + - n * Zpos T) with (V * Zpos d - n * Zpos T) by ring.
  replace (Y * Zpos d + - n * Zpos T) with (Y * Zpos d - n * Zpos T) by ring.
  exact H.
Qed.

(** The shape of a finite result of [round_double]. *)
Lemma round_double_Fnum q v :
  round_double q = Fnum v ->
  (Qnum q = 0 /\ v = 0%Q) \/
  (Qnum q <> 0 /\
   let n := Z.abs (Qnum q) in
   let d := Zpos (Qden q) in
   let e := last_bit n d in
   let m := round_half_even (n * 2 ^ Z.max (- e) 0) (d * 2 ^ Z.max e 0) in
   m * 2 ^ Z.max e 0 < 2 ^ 1024 /\
   (v == (Z.sgn (Qnum q) * m * 2 ^ Z.max e 0 # Z.to_pos (2 ^ Z.max (- e) 0)))%Q).
Proof.
  intros H. unfold round_double in H. cbv zeta in H |- *.
  destruct (Z.eqb_spec (Z.abs (Qnum q)) 0) as [H0|H0].
  - left. split; [lia|]. now injection H as <-.
  - right. split; [lia|].
    set (n := Z.abs (Qnum q)) in *. set (d := Zpos (Qden q)) in *.
    set (e := last_bit n d) in *.
    set (m := round_half_even (n * 2 ^ Z.max (- e) 0) (d * 2 ^ Z.max e 0)) in *.
    destruct (Z.eqb_spec m 0) as [Hm|Hm].
    + destruct (Z.ltb_spec (Qnum q) 0) as [Hneg|Hneg]; [discriminate H|].
      injection H as <-. rewrite Hm. split; [reflexivity|].
      rewrite Z.mul_0_r, Z.mul_0_l. reflexivity.
    + destruct (Z.leb_spec (2 ^ 1024) (m * 2 ^ Z.max e 0)) as [Hinf|Hfin]; [discriminate H|].
      injection H as <-. split; [exact Hfin|]. rewrite Qred_correct.
      destruct (Z.ltb_spec (Qnum q) 0) as [Hneg|Hneg].
      * rewrite (Z.sgn_neg (Qnum q)) by lia.
        replace (-1 * m) with (- m) by ring. reflexivity.
      * rewrite (Z.sgn_pos (Qnum q)) by lia.
        replace (1 * m) with m by ring. reflexivity.
Qed.

(** A finite result of [round_double] is a double, and no double is nearer
    to the rational that was rounded. *)
Lemma round_double_nearest q v :
  round_double q = Fnum v ->
  is_double v /\ forall y, is_double y -> (Qabs (v - q) <= Qabs (y - q))%Q.
Proof.
  intros H. apply round_double_Fnum in H. destruct H as [[H0 ->]|(H0 & Hfin & Hv)].
  - split.
    + exists 0. split; [|reflexivity]. exists 0, 0. split; [reflexivity|]. split; [lia|reflexivity].
    + intros y _. apply Qle_trans with 0%Q; [|apply Qabs_nonneg].
      destruct q as [qn qd]. cbn [Qnum] in H0. subst qn.
      unfold Qle, Qabs, Qminus, Qplus, Qopp. cbn. lia.
  - cbv zeta in Hfin, Hv.
    assert (Hn : 0 < Z.abs (Qnum q)) by lia.
    assert (Hd : 0 < Zpos (Qden q)) by reflexivity.
    set (n := Z.abs (Qnum q)) in *. set (d := Zpos (Qden q)) in *.
    pose proof (rounded_is_double n d Hn Hd Hfin) as Hdbl.
    pose proof (nearest_scaled n d Hn Hd) as Hnear.
    cbv zeta in Hdbl, Hnear.
    set (e := last_bit n d) in *.
    set (m := round_half_even (n * 2 ^ Z.max (- e) 0) (d * 2 ^ Z.max e 0)) in *.
    set (s := Z.sgn (Qnum q)) in *.
    assert (Hs : s = 1 \/ s = -1) by (unfold s; lia).
    assert (Hq : Qnum q = s * n) by (unfold s, n; lia).
    assert (He : -1074 <= e) by (unfold e, last_bit; lia).
    assert (HT : 0 < 2 ^ 1074) by (apply Z.pow_pos_nonneg; lia).
    assert (Hb : 0 < 2 ^ Z.max (- e) 0) by (apply Z.pow_pos_nonneg; lia).
    assert (Hv' : (v == (s * (m * 2 ^ (e + 1074)) # Z.to_pos (2 ^ 1074)))%Q).
    { rewrite Hv. unfold Qeq. cbn [Qnum Qden]. rewrite !Z2Pos.id by assumption.
      destruct (Z.le_gt_cases 0 e) as [Hpos|Hneg].
      - rewrite (Z.max_l e 0), (Z.max_r (- e) 0), Z.pow_add_r by lia.
        change (2 ^ 0) with 1. generalize (2 ^ 1074) (2 ^ e). intros. ring.
      - rewrite (Z.max_r e 0), (Z.max_l (- e) 0) by lia.
        replace (2 ^ 1074) with (2 ^ (e + 1074) * 2 ^ (- e)).
        + change (2 ^ 0) with 1. generalize (2 ^ (e + 1074)) (2 ^ (- e)). intros. ring.
        + rewrite <- Z.pow_add_r by lia. f_equal. lia. }
    assert (Hq' : (q == (s * n # Qden q))%Q).
    { destruct q as [qn qd]. cbn [Qnum Qden] in *. rewrite Hq. reflexivity. }
    split.
    + exists (s * (m * 2 ^ (e + 1074))). split; [|exact Hv'].
      destruct Hs as [-> | ->].
      * now rewrite Z.mul_1_l.
      * replace (-1 * (m * 2 ^ (e + 1074))) with (- (m * 2 ^ (e + 1074))) by ring.
        now apply int_double_opp.
    + intros y (Y & HY & Hy). rewrite Hv', Hy, Hq'.
      apply Qabs_diff_le. rewrite !Z2Pos.id by assumption. fold d.
      assert (HsY : int_double (s * Y)).
      { destruct Hs as [-> | ->]; [now rewrite Z.mul_1_l|].
        replace (-1 * Y) with (- Y) by ring. now apply int_double_opp. }
      specialize (Hnear (s * Y) HsY). revert Hnear.
      generalize (m * 2 ^ (e + 1074)) (2 ^ 1074). intros V T Hnear.
      destruct Hs as [-> | ->].
      * replace (1 * V * d - 1 * n * T) with (V * d - n * T) by ring.
        replace (Y * d - 1 * n * T) with (1 * Y * d - n * T) by ring. exact Hnear.
      * replace (-1 * V * d - -1 * n * T) with (- (V * d - n * T)) by ring.
        replace (Y * d - -1 * n * T) with (- (-1 * Y * d - n * T)) by ring.
        rewrite !Z.abs_opp. exact Hnear.
Qed.

(** A rational that is a double is rounded to itself. *)
Lemma round_double_exact q :
  is_double q -> round_double q = Fnum (Qred q).
Proof.
  intros (Y & HY & Hq).
  assert (HT : 0 < 2 ^ 1074) by (apply Z.pow_pos_nonneg; lia).
  unfold Qeq in Hq. cbn [Qnum Qden] in Hq. rewrite Z2Pos.id in Hq by assumption.
  unfold round_double.
  destruct (Z.eqb_spec (Z.abs (Qnum q)) 0) as [H0|H0].
  - f_equal. change 0%Q with (Qred 0). apply Qred_complete.
    unfold Qeq. cbn [Qnum Qden]. lia.
  - assert (Hn : 0 < Z.abs (Qnum q)) by lia.
    assert (Hd : 0 < Zpos (Qden q)) by reflexivity.
    set (n := Z.abs (Qnum q)) in *. set (d := Zpos (Qden q)) in *.
    set (s := Z.sgn (Qnum q)).
    assert (Hs : s = 1 \/ s = -1) by (unfold s; lia).
    assert (Hqn : Qnum q = s * n) by (unfold s, n; lia).
    assert (HsY : int_double (s * Y)).
    { destruct Hs as [-> | ->]; [now rewrite Z.mul_1_l|].
      replace (-1 * Y) with (- Y) by ring. now apply int_double_opp. }
    assert (Heq : s * Y * d = n * 2 ^ 1074).
    { rewrite Hqn in Hq. revert Hq. generalize (2 ^ 1074). intros T Hq.
      destruct Hs as [-> | ->]; lia. }
    destruct (exact_scaled n d Hn Hd (s * Y) HsY Heq) as (HV & Hm & Hfin).
    cbv zeta in HV, Hm, Hfin.
    set (e := last_bit n d) in *.
    set (m := round_half_even (n * 2 ^ Z.max (- e) 0) (d * 2 ^ Z.max e 0)) in *.
    assert (He : -1074 <= e) by (unfold e, last_bit; lia).
    assert (Hb : 0 < 2 ^ Z.max (- e) 0) by (apply Z.pow_pos_nonneg; lia).
    destruct (Z.eqb_spec m 0) as [Hz|_]; [lia|].
    destruct (Z.leb_spec (2 ^ 1024) (m * 2 ^ Z.max e 0)) as [Hinf|_]; [lia|].
    f_equal. apply Qred_complete. unfold Qeq. cbn [Qnum Qden].
    rewrite Z2Pos.id by assumption. fold d.
    assert (Hcore : m * 2 ^ Z.max e 0 * d = n * 2 ^ Z.max (- e) 0).
    { destruct (Z.le_gt_cases 0 e) as [Hpos|Hneg].
      - rewrite (Z.max_l e 0), (Z.max_r (- e) 0) by lia.
        rewrite Z.pow_add_r in HV by lia. change (2 ^ 0) with 1.
        apply (Z.mul_cancel_r _ _ (2 ^ 1074)); [lia|].
        revert HV. generalize (2 ^ 1074) (2 ^ e). intros T P HV.
        rewrite Z.mul_1_r, <- HV. ring.
      - rewrite (Z.max_r e 0), (Z.max_l (- e) 0) by lia.
        assert (HTe : 2 ^ 1074 = 2 ^ (e + 1074) * 2 ^ (- e)).
        { rewrite <- Z.pow_add_r by lia. f_equal. lia. }
        rewrite HTe in HV. change (2 ^ 0) with 1.
        assert (HP : 0 < 2 ^ (e + 1074)) by (apply Z.pow_pos_nonneg; lia).
        apply (Z.mul_cancel_r _ _ (2 ^ (e + 1074))); [lia|].
        revert HV. generalize (2 ^ (e + 1074)) (2 ^ (- e)). intros P P' HV.
        replace (n * P' * P) with (n * (P * P')) by ring. rewrite <- HV. ring. }
    revert Hcore. generalize (2 ^ Z.max e 0) (2 ^ Z.max (- e) 0). intros A B Hcore.
    destruct (Z.ltb_spec (Qnum q) 0) as [Hneg|Hneg]; rewrite Hqn.
    + assert (s = -1) as -> by (unfold s; lia).
      replace (- m * A * d) with (- (m * A * d)) by ring. rewrite Hcore. ring.
    + assert (s = 1) as -> by (unfold s; lia).
      rewrite Hcore. ring.
Qed.

(** The range of the finite results. *)
Section Range.

Variables n d : Z.
Hypothesis Hn : 0 < n.
Hypothesis Hd : 0 < d.

Let e := last_bit n d.
Let m := round_half_even (n * 2 ^ Z.max (- e) 0) (d * 2 ^ Z.max e 0).

Lemma no_overflow_scaled :
  n < (2 ^ 54 - 1) * 2 ^ 970 * d -> m * 2 ^ Z.max e 0 < 2 ^ 1024.
Proof.
  intros Hlt. destruct (mantissa_bounds n d Hn Hd) as [Hm0 Hm1]. fold e m in Hm0, Hm1.
  apply Z.nle_gt. intros Hov.
  destruct (floor_log2_spec n d Hn Hd) as [Hlo _].
  assert (He : e = Z.max (floor_log2 n d - 52) (-1074)) by reflexivity.
  set (k := floor_log2 n d) in *.
  assert (Hk : k <= 1023).
  { apply Z.nlt_ge. intros Hk.
    apply (pow2_le_antitone k 1024 n d Hd (Z.lt_le_incl _ _ Hn) ltac:(lia)) in Hlo.
    apply (pow2_le_iff 1024 n d 0 1024 Hd (Z.le_refl 0) ltac:(discriminate) eq_refl) in Hlo.
    change (2 ^ 0) with 1 in Hlo.
    assert (HC : (2 ^ 54 - 1) * 2 ^ 970 * d < 2 ^ 1024 * d)
      by (apply Z.mul_lt_mono_pos_r; [exact Hd | reflexivity]).
    revert Hlt Hlo HC. generalize ((2 ^ 54 - 1) * 2 ^ 970 * d) (2 ^ 1024). intros. lia. }
  assert (Ha : Z.max e 0 = 971).
  { apply Z.le_antisymm; [lia|]. apply Z.nlt_ge. intros Ha.
    assert (H1 : 2 ^ Z.max e 0 <= 2 ^ 970) by (apply Z.pow_le_mono_r; lia).
    assert (H2 : m * 2 ^ Z.max e 0 <= 2 ^ 53 * 2 ^ 970) by (apply Z.mul_le_mono_nonneg; try lia;
      apply Z.pow_nonneg; lia).
    assert (H3 : 2 ^ 53 * 2 ^ 970 < 2 ^ 1024) by reflexivity.
    revert Hov H2 H3. generalize (m * 2 ^ Z.max e 0) (2 ^ 53 * 2 ^ 970) (2 ^ 1024). intros. lia. }
  assert (He971 : e = 971) by lia.
  assert (Hm : m = 2 ^ 53).
  { apply Z.le_antisymm; [exact Hm1|]. apply Z.nlt_ge. intros Hm.
    rewrite Ha in Hov.
    assert (H2 : m * 2 ^ 971 <= (2 ^ 53 - 1) * 2 ^ 971)
      by (apply Z.mul_le_mono_nonneg_r; [apply Z.pow_nonneg|]; lia).
    assert (H3 : (2 ^ 53 - 1) * 2 ^ 971 < 2 ^ 1024) by reflexivity.
    revert Hov H2 H3. generalize (m * 2 ^ 971) ((2 ^ 53 - 1) * 2 ^ 971) (2 ^ 1024). intros. lia. }
  assert (HD : 0 < d * 2 ^ Z.max e 0).
  { assert (0 < 2 ^ Z.max e 0) by (apply Z.pow_pos_nonneg; lia). nia. }
  assert (HN : 0 <= n * 2 ^ Z.max (- e) 0).
  { assert (0 < 2 ^ Z.max (- e) 0) by (apply Z.pow_pos_nonneg; lia). nia. }
  destruct (round_half_even_bounds _ _ HD HN) as [_ Hb]. fold m in Hb.
  rewrite Hm, Ha in Hb. rewrite He971 in Hb. change (Z.max (- 971) 0) with 0 in Hb.
  change (2 ^ 0) with 1 in Hb. rewrite Z.mul_1_r in Hb.
  assert (HE : 2 * 2 ^ 53 * (d * 2 ^ 971) - d * 2 ^ 971 = 2 * ((2 ^ 54 - 1) * 2 ^ 970 * d)).
  { change (2 ^ 971) with (2 * 2 ^ 970). change (2 ^ 54) with (2 * 2 ^ 53).
    generalize (2 ^ 53) (2 ^ 970). intros. ring. }
  revert Hlt Hb HE.
  generalize (2 * 2 ^ 53 * (d * 2 ^ 971)) (d * 2 ^ 971) ((2 ^ 54 - 1) * 2 ^ 970 * d).
  intros. lia.
Qed.

Lemma mantissa_positive :
  d < 2 * n * 2 ^ 1074 -> 0 < m.
Proof.
  intros Hbig. destruct (mantissa_bounds n d Hn Hd) as [Hm0 _]. fold e m in Hm0.
  destruct (Z.eq_dec m 0) as [Hz|Hz]; [exfalso|lia].
  destruct (floor_log2_spec n d Hn Hd) as [Hlo _].
  assert (He : e = Z.max (floor_log2 n d - 52) (-1074)) by reflexivity.
  set (k := floor_log2 n d) in *.
  assert (HA : 0 < 2 ^ Z.max e 0) by (apply Z.pow_pos_nonneg; lia).
  assert (HB : 0 < 2 ^ Z.max (- e) 0) by (apply Z.pow_pos_nonneg; lia).
  assert (HD : 0 < d * 2 ^ Z.max e 0) by nia.
  assert (HN : 0 < n * 2 ^ Z.max (- e) 0) by nia.
  pose proof (round_half_even_nearest (n * 2 ^ Z.max (- e) 0) (d * 2 ^ Z.max e 0) 1 HD)
    as Hnear.
  fold m in Hnear. rewrite Hz in Hnear.
  assert (Hhalf : 2 * (n * 2 ^ Z.max (- e) 0) <= d * 2 ^ Z.max e 0) by lia.
  destruct (Z.eq_dec e (-1074)) as [Hsub|Hnorm].
  - rewrite Hsub in Hhalf. change (Z.max (- -1074) 0) with 1074 in Hhalf.
    change (Z.max (-1074) 0) with 0 in Hhalf. change (2 ^ 0) with 1 in Hhalf.
    revert Hbig Hhalf. generalize (2 ^ 1074). intros. lia.
  - apply (pow2_le_iff k n d (Z.max (- e) 0) (Z.max e 0 + 52) Hd ltac:(lia) ltac:(lia) ltac:(lia))
      in Hlo.
    rewrite Z.pow_add_r in Hlo by lia.
    assert (H52 : 2 ^ 52 = 4503599627370496) by reflexivity. rewrite H52 in Hlo.
    revert HD HN Hhalf Hlo. generalize (2 ^ Z.max e 0) (2 ^ Z.max (- e) 0). intros. nia.
Qed.

End Range.

(** The quotient of an integer by 1,000,000 that does not overflow is
    rounded to a finite double. *)
Lemma int_quotient_finite z :
  float_overflows (Qc_of_Z z / Qc_of_Z 1000000) = false ->
  exists r, round_double (inject_Z z / inject_Z 1000000) = Fnum r.
Proof.
  intros Hov.
  assert (Hq : (inject_Z z / inject_Z 1000000)%Q = (z * 1 # 1000000)%Q) by reflexivity.
  rewrite Hq, Z.mul_1_r. clear Hq.
  assert (Hlt : Z.abs z < (2 ^ 54 - 1) * 2 ^ 970 * 1000000).
  { unfold float_overflows in Hov. apply not_true_iff_false in Hov.
    apply Z.nle_gt. intros Hle. apply Hov. apply Qle_bool_iff.
    assert (Hthis : (Qc_of_Z z / Qc_of_Z 1000000)%Qc == (z # 1000000)%Q).
    { unfold Qcdiv, Qcmult, Qcinv, Qc_of_Z, Q2Qc, this.
      rewrite !Qred_correct. unfold Qeq. cbn. lia. }
    rewrite Hthis. unfold Qle, Qabs. cbn [Qnum Qden inject_Z].
    change (2 ^ 1024 - 2 ^ 970) with ((2 ^ 54 - 1) * 2 ^ 970).
    rewrite Z.mul_1_r. exact Hle. }
  unfold round_double. cbn [Qnum Qden].
  destruct (Z.eqb_spec (Z.abs z) 0) as [H0|H0]; [now eexists|].
  assert (Hn : 0 < Z.abs z) by lia.
  assert (Hd : 0 < 1000000) by reflexivity.
  pose proof (no_overflow_scaled _ _ Hn Hd Hlt) as Hfin.
  assert (Hbig : 1000000 < 2 * Z.abs z * 2 ^ 1074).
  { assert (2 ^ 20 <= 2 ^ 1074) by (apply Z.pow_le_mono_r; lia).
    assert (H20 : 2 ^ 20 = 1048576) by reflexivity. rewrite H20 in *.
    revert H. generalize (2 ^ 1074). intros. nia. }
  pose proof (mantissa_positive _ _ Hn Hd Hbig) as Hpos.
  cbv zeta in Hfin, Hpos.
  set (n := Z.abs z) in *. set (e := last_bit n 1000000) in *.
  set (m := round_half_even (n * 2 ^ Z.max (- e) 0) (1000000 * 2 ^ Z.max e 0)) in *.
  destruct (Z.eqb_spec m 0) as [Hz|_]; [lia|].
  destruct (Z.leb_spec (2 ^ 1024) (m * 2 ^ Z.max e 0)) as [Hinf|_]; [lia|].
  now eexists.
Qed.

(** A quotient in float arithmetic, when it is finite, is the double
    nearest to the quotient of the numbers, and is that quotient exactly
    when the quotient is a double. *)
Lemma quotient_in_float_nearest x d v a r :
  quotient_in_float x d = Some v -> as_number x = Some a -> v = Fnum r ->
  is_double r /\
  (forall y, is_double y ->
     (Qabs (r - a / inject_Z d) <= Qabs (y - a / inject_Z d))%Q) /\
  (is_double (a / inject_Z d) <-> (r == a / inject_Z d)%Q).
Proof.
  intros Hq Ha ->.
  assert (Hr : round_double (a / inject_Z d) = Fnum r).
  { destruct x as [| | |f| | | | |]; try discriminate Ha; cbn in Hq, Ha.
    - injection Ha as <-. now injection Hq.
    - injection Ha as <-. now injection Hq.
    - destruct f; try discriminate Ha; cbn in Hq.
      + injection Ha as <-. now injection Hq.
      + discriminate Hq. }
  destruct (round_double_nearest _ _ Hr) as [Hdbl Hnear].
  split; [exact Hdbl|]. split; [exact Hnear|]. split.
  - intros Hex. rewrite (round_double_exact _ Hex) in Hr. injection Hr as <-.
    apply Qred_correct.
  - intros Heq. destruct Hdbl as (y & Hy & Hry). exists y.
    split; [exact Hy|]. rewrite <- Heq. exact Hry.
Qed.

(** ** Cache Store *)

Example md5_empty : MD5.hexdigest (encode "") = "d41d8cd98f00b204e9800998ecf8427e".
Proof. vm_compute. reflexivity. Qed.

Example md5_abc : MD5.hexdigest (encode "abc") = "900150983cd24fb0d6963f7d28e17f72".
Proof. vm_compute. reflexivity. Qed.

(** A message of two blocks. *)
Example md5_digits :
  MD5.hexdigest
    (encode "12345678901234567890123456789012345678901234567890123456789012345678901234567890")
  = "57edf4a22be3c955ac49da2e2107b67a".
Proof. vm_compute. reflexivity. Qed.

(** Outside ASCII the encoding takes two bytes: the digest of the
    encoded one-character string U+00E9. *)
Example md5_e_acute :
  MD5.hexdigest (encode (String (ascii_of_nat 233) ""))
  = "66ddcd97cfdeabb2f6fb8a999b4bc76f".
Proof. vm_compute. reflexivity. Qed.

Example cache_path_default :
  _get_cache_path "/tmp" "/data"
  = {| parent := "/tmp"; name := "speedtest_cache_4caa791091d2.parquet" |}.
Proof. vm_compute. reflexivity. Qed.

(** C3, as stated, fails: two distinct data directories whose MD5
    digests share their first 12 hex digits (9e0bc8903325) resolve to
    the same cache file. *)
Lemma cache_path_collision :
  "/data/4cf12f9f7809" <> "/data/10981a01b1c8" /\
  _get_cache_path "/tmp" "/data/4cf12f9f7809"
  = _get_cache_path "/tmp" "/data/10981a01b1c8".
Proof. split; [discriminate | vm_compute; reflexivity]. Qed.

(** C3, amended: the cache path is a function of the data directory
    (and of the temp directory), and two data directories resolve to the
    same path exactly when the first 12 hex digits of their MD5 digests
    are equal. *)
Theorem cache_path_determined_by_digest (tmp d1 d2 : string) :
  _get_cache_path tmp d1 = _get_cache_path tmp d2 <->
  str_prefix 12 (MD5.hexdigest (encode d1)) = str_prefix 12 (MD5.hexdigest (encode d2)).
Proof.
  unfold _get_cache_path.
  generalize (str_prefix 12 (MD5.hexdigest (encode d1))) as h1.
  generalize (str_prefix 12 (MD5.hexdigest (encode d2))) as h2.
  intros h2 h1. split.
  - intros H. injection H as H.
    exact (append_inv_tail h1 h2 ".parquet" H).
  - intros H. now rewrite H.
Qed.

(** ** Record Extractor *)

Lemma try_except_Some_inv {A} (body : result (option A)) classes (a : A) :
  try_except body classes (Ok None) = Ok (Some a) -> body = Ok (Some a).
Proof.
  unfold try_except. destruct body as [o|e]; [easy|].
  destruct (existsb _ _); discriminate.
Qed.

Lemma bind_Ok_inv {A B} (m : result A) (k : A -> result B) (b : B) :
  (m ≫= k) = Ok b -> exists a, m = Ok a /\ k a = Ok b.
Proof. destruct m as [a|e]; [eauto | discriminate]. Qed.

#[local] Arguments convert_metrics : simpl never.
#[local] Arguments parse_timestamp_from_filename : simpl never.

Tactic Notation "bind_inv" hyp(H) "as" ident(a) ident(Ha) :=
  apply bind_Ok_inv in H; destruct H as (a & Ha & H).

(** What a produced record tells about the file it came from. *)
Lemma load_single_file_Some_inv open_json p rec :
  load_single_file open_json p = Ok (Some rec) ->
  exists d v ts,
    open_json p = Ok (PDict d) /\
    dict_get d "success" = Some v /\ truthy v = true /\
    parse_timestamp_from_filename (name p) = Ok (Some ts) /\
    convert_metrics METRICS (PDict d)
      [ ("timestamp", PDatetime ts); ("source_file", PStr (name p));
        ("sessionID", match dict_get d "sessionID" with Some x => x | None => PNone end);
        ("endpoint", match dict_get d "endpoint" with Some x => x | None => PNone end) ]
    = Ok rec.
Proof.
  intros H. apply try_except_Some_inv in H.
  bind_inv H as data Hdata. destruct data as [| | | | |l|d| |]; try discriminate H.
  cbn in H. destruct (dict_get d "success") as [v|] eqn:Hs.
  2:{ discriminate H. }
  destruct (truthy v) eqn:Hv; [|discriminate H].
  cbn in H. destruct (dict_get d "result") as [payload|] eqn:Hr; [|discriminate H].
  cbn in H. bind_inv H as timestamp Hts. destruct timestamp as [ts|]; [|discriminate H].
  bind_inv H as rec' Hrec. injection H as <-.
  exists d, v, ts. repeat split; assumption.
Qed.

(** The documents that are skipped on purpose: everything the
    [except] clause names. *)
Lemma load_single_file_skips_caught open_json p e :
  open_json p = Raise e ->
  existsb (issubclass e) [JSONDecodeError; KeyError; TypeError; OSError] = true ->
  load_single_file open_json p = Ok None.
Proof.
  intros Hopen Hcaught. unfold load_single_file. rewrite Hopen. cbn [mbind result_bind].
  unfold try_except. now rewrite Hcaught.
Qed.

Lemma load_single_file_skips_missing_result open_json p d :
  open_json p = Ok (PDict d) -> dict_get d "result" = None ->
  load_single_file open_json p = Ok None.
Proof.
  intros Hopen Hr. unfold load_single_file. rewrite Hopen. cbn.
  destruct (dict_get d "success") as [v|]; [destruct (truthy v)|]; cbn; try reflexivity.
  now rewrite Hr.
Qed.

(** C1 fails on a file that holds valid JSON which is not an object:
    [data.get] raises [AttributeError], which the [except] clause of
    [load_single_file] does not name, and the exception leaves
    [load_all_data].  A file whose bytes are not valid text fails the
    same way: reading it raises [UnicodeDecodeError], a [ValueError]
    that is no [JSONDecodeError]. *)
Theorem load_single_file_raises_on_non_object :
  load_single_file (fun _ => Ok (PList [])) sample_path = Raise AttributeError /\
  fst (load_all_data env_list_document no_parquet) = Raise AttributeError /\
  load_single_file (fun _ => Raise UnicodeDecodeError) sample_path
  = Raise UnicodeDecodeError.
Proof. repeat split; vm_compute; reflexivity. Qed.

(** C8: a document whose success field is absent or falsy yields no
    record (for an object the extractor returns [None]); a record is
    produced only when the field is truthy. *)
Theorem no_record_unless_success_truthy open_json p data :
  open_json p = Ok data ->
  success_truthy data = false ->
  (forall rec, load_single_file open_json p <> Ok (Some rec)) /\
  (forall d, data = PDict d -> load_single_file open_json p = Ok None).
Proof.
  intros Hopen Hfalsy. split.
  - intros rec H. apply load_single_file_Some_inv in H.
    destruct H as (d & v & ts & Hd & Hs & Hv & _).
    rewrite Hopen in Hd. injection Hd as ->.
    cbn in Hfalsy. rewrite Hs in Hfalsy. congruence.
  - intros d ->. unfold load_single_file. rewrite Hopen. cbn.
    cbn in Hfalsy. destruct (dict_get d "success") as [v|].
    + now rewrite Hfalsy.
    + reflexivity.
Qed.

Lemma no_record_unless_success_truthy_witness :
  load_single_file
    (fun _ => Ok (PDict [("success", PInt 0); ("result", PDict [("download", PInt 5)])]))
    sample_path = Ok None.
Proof.
  refine (proj2 (no_record_unless_success_truthy _ sample_path _ eq_refl _) _ eq_refl).
  reflexivity.
Defined.

Lemma dict_get_set_eq {V} (d : list (string * V)) k v :
  dict_get (dict_set d k v) k = Some v.
Proof.
  induction d as [|[k' v'] d IH]; simpl.
  - now rewrite String.eqb_refl.
  - destruct (String.eqb k' k) eqn:E; simpl; rewrite E; [reflexivity | exact IH].
Qed.

Lemma dict_get_set_ne {V} (d : list (string * V)) k k' v :
  k <> k' -> dict_get (dict_set d k v) k' = dict_get d k'.
Proof.
  intros Hne. induction d as [|[k0 v0] d IH]; simpl.
  - apply String.eqb_neq in Hne. now rewrite Hne.
  - destruct (String.eqb k0 k) eqn:E; simpl.
    + apply String.eqb_eq in E. subst k0.
      apply String.eqb_neq in Hne. now rewrite Hne.
    + destruct (String.eqb k0 k'); [reflexivity | exact IH].
Qed.

Lemma dict_get_None_keys {V} (d : list (string * V)) k :
  ~ In k (dict_keys d) -> dict_get d k = None.
Proof.
  induction d as [|[k0 v0] d IH]; simpl; [reflexivity|].
  intros Hnin. destruct (String.eqb k0 k) eqn:E.
  - apply String.eqb_eq in E. tauto.
  - apply IH. tauto.
Qed.

(** The metric loop, entry by entry: a key of the table that is in the
    payload gets its converted value, every other key of the record is
    left as it was. *)
Lemma convert_metrics_spec ms :
  List.NoDup (dict_keys ms) ->
  forall data rec rec',
  convert_metrics ms data rec = Ok rec' ->
  forall key,
    match dict_get ms key, raw_metric data key with
    | Some cfg, Some x => exists v, convert cfg x = Ok v /\ dict_get rec' key = Some v
    | _, _ => dict_get rec' key = dict_get rec key
    end.
Proof.
  induction ms as [|[k cfg] ms IH]; intros Hnd data rec rec' H key.
  - cbn in H. injection H as <-. reflexivity.
  - cbn [dict_keys List.map fst] in Hnd. apply List.NoDup_cons_iff in Hnd as [Hk Hnd].
    cbn [convert_metrics] in H.
    bind_inv H as payload Hpayload.
    bind_inv H as present Hpresent.
    assert (Hdata : exists d, data = PDict d /\ dict_get d "result" = Some payload).
    { destruct data; try discriminate Hpayload. cbn in Hpayload.
      destruct (dict_get d "result") eqn:E; [|discriminate].
      injection Hpayload as ->. eauto. }
    destruct Hdata as (d & -> & Hres).
    cbn [dict_get]. destruct (String.eqb k key) eqn:Ekey.
    + apply String.eqb_eq in Ekey. subst key.
      pose proof (IH Hnd (PDict d)) as IH'.
      unfold raw_metric. rewrite Hres.
      destruct present.
      * bind_inv H as x Hx. bind_inv H as v Hv.
        destruct payload; try discriminate Hx. cbn in Hx.
        destruct (dict_get d0 k) eqn:E; [|discriminate]. injection Hx as ->.
        specialize (IH' _ _ H k).
        rewrite (dict_get_None_keys ms k Hk) in IH'.
        exists v. split; [assumption|].
        rewrite IH'. apply dict_get_set_eq.
      * specialize (IH' _ _ H k).
        rewrite (dict_get_None_keys ms k Hk) in IH'.
        destruct payload; try exact IH'.
        cbn in Hpresent. destruct (dict_get d0 k); [discriminate | exact IH'].
    + apply String.eqb_neq in Ekey.
      destruct present.
      * bind_inv H as x Hx. bind_inv H as v Hv.
        specialize (IH Hnd (PDict d) _ _ H key).
        rewrite (dict_get_set_ne rec k key v Ekey) in IH. exact IH.
      * exact (IH Hnd (PDict d) _ _ H key).
Qed.

Lemma METRICS_keys_NoDup : List.NoDup (dict_keys METRICS).
Proof.
  cbn. repeat (apply List.NoDup_cons; [cbn; intuition discriminate|]).
  apply List.NoDup_nil.
Qed.

(** C7, as stated, fails: a raw download value of 12,345,678 is
    converted to the double nearest to 12.345678, which is
    1737499713763629 / 2^47 and not the quotient itself. *)
Lemma metrics_not_divided_exactly :
  exists rec,
    load_single_file (fun _ => Ok (measurement 12345678)) sample_path = Ok (Some rec) /\
    raw_metric (measurement 12345678) "download" = Some (PInt 12345678) /\
    dict_get rec "download" = Some (PFloat (Fnum (1737499713763629 # 2 ^ 47))) /\
    ~ (1737499713763629 # 2 ^ 47 == 12345678 / 1000000)%Q.
Proof.
  eexists. split; [vm_compute; reflexivity|].
  split; [reflexivity|]. split; [reflexivity|].
  intros H. vm_compute in H. discriminate H.
Qed.

(** C7, amended: in every extracted record the byte-rate metrics are
    the raw payload value divided by 1,000,000 in float arithmetic and
    the latency and jitter metrics are the raw payload value itself; a
    metric that the payload lacks is not in the record.  A byte-rate
    metric is a finite number when the raw value is an integer; when it
    is a finite number it is a double, no double is nearer to the
    quotient of the raw value by 1,000,000, and it is that quotient
    exactly when the quotient is a double. *)
Theorem metrics_converted open_json p rec data :
  load_single_file open_json p = Ok (Some rec) ->
  open_json p = Ok data ->
  (forall key, In key ["download"; "upload"] ->
     match raw_metric data key with
     | Some x =>
         exists v, quotient_in_float x 1000000 = Some v /\
                   dict_get rec key = Some (PFloat v) /\
                   (forall z, x = PInt z -> exists r, v = Fnum r) /\
                   forall a r, as_number x = Some a -> v = Fnum r ->
                     is_double r /\
                     (forall y, is_double y ->
                        (Qabs (r - a / 1000000) <= Qabs (y - a / 1000000))%Q) /\
                     (is_double (a / 1000000) <-> (r == a / 1000000)%Q)
     | None => dict_get rec key = None
     end) /\
  (forall key,
     In key ["latency"; "jitter"; "downLoadedLatency"; "downLoadedJitter";
             "upLoadedLatency"; "upLoadedJitter"] ->
     dict_get rec key = raw_metric data key).
Proof.
  intros H Hopen. apply load_single_file_Some_inv in H.
  destruct H as (d & v & ts & Hd & _ & _ & _ & Hconv).
  rewrite Hopen in Hd. injection Hd as ->.
  pose proof (convert_metrics_spec METRICS METRICS_keys_NoDup _ _ _ Hconv) as Hspec.
  split; intros key Hkey; specialize (Hspec key);
    cbn [In] in Hkey; repeat (destruct Hkey as [<-|Hkey]); try contradiction;
    cbn [METRICS dict_get String.eqb Ascii.eqb Bool.eqb convert] in Hspec;
    destruct (raw_metric (PDict d) _) as [x|]; try exact Hspec.
  1,2: destruct Hspec as (w & Hw & Hget);
       assert (Hq : exists q, quotient_in_float x 1000000 = Some q /\ w = PFloat q /\
                              forall z, x = PInt z -> exists r, q = Fnum r)
         by (destruct x; cbn [py_truediv] in Hw; try discriminate Hw;
             try (destruct (float_overflows _) eqn:Hov; [discriminate Hw|]);
             injection Hw as <-; eexists; (split; [reflexivity|]);
             (split; [reflexivity|]);
             intros z Hz; try discriminate Hz; injection Hz as <-;
             exact (int_quotient_finite _ Hov));
       destruct Hq as (q & Hq & -> & Hfinite); exists q;
       (split; [exact Hq|]); (split; [exact Hget|]); (split; [exact Hfinite|]);
       intros a r Ha Hr; exact (quotient_in_float_nearest x 1000000 q a r Hq Ha Hr).
  all: destruct Hspec as (w & Hw & Hget); injection Hw as <-; exact Hget.
Qed.

Lemma metrics_converted_witness :
  dict_get download_record "download" = Some (PFloat (Fnum 50)) /\
  dict_get download_record "latency" = Some (PInt 12).
Proof.
  assert (Hload : load_single_file (fun _ => Ok download_document) sample_path
                  = Ok (Some download_record)) by (vm_compute; reflexivity).
  destruct (metrics_converted _ _ _ _ Hload eq_refl) as [Hrate Hpass].
  split.
  - specialize (Hrate "download" (or_introl eq_refl)).
    change (raw_metric download_document "download")
      with (Some (PInt 50000000)) in Hrate.
    destruct Hrate as (v & Hv & Hget & _). rewrite Hget.
    injection Hv as <-. vm_compute. reflexivity.
  - exact (Hpass "latency" (or_introl eq_refl)).
Defined.

(** ** Latest measurements *)

Lemma tail_rows_nonneg {A} (l : list A) (count : Z) :
  0 <= count ->
  (if count =? 0 then [] else slice_from (- count) l)
  = last_rows (Z.min count (Z.of_nat (length l))) l.
Proof.
  intros Hcount. unfold last_rows, slice_from.
  destruct (Z.eqb_spec count 0) as [->|Hne].
  - rewrite Z.min_l by lia. cbn. rewrite Nat.sub_0_r. symmetry. apply skipn_all.
  - destruct (Z.ltb_spec (- count) 0) as [_|Hge]; [|lia].
    f_equal. lia.
Qed.

(** C9, as stated, fails for a negative count: [tail(-1)] keeps all rows
    but the first one, where "the last min(N, rows) rows" are none. *)
Lemma latest_negative_count :
  rows (get_latest_measurements three_rows (-1))
  <> rev (last_rows (Z.min (-1) (Z.of_nat (length (rows three_rows)))) (rows three_rows)).
Proof.
  intros H. apply (f_equal (@length _)) in H. vm_compute in H. discriminate H.
Qed.

(** X17: what a negative count does.  For [count < 0] the result is the
    input without its first [|count|] rows, in reverse order. *)
Lemma get_latest_measurements_negative df count :
  count < 0 -> df_empty df = false ->
  get_latest_measurements df count
  = {| columns := columns df; rows := rev (skipn (Z.to_nat (- count)) (rows df)) |}.
Proof.
  intros Hneg Hne. unfold get_latest_measurements, iloc_reversed, tail, slice_from.
  rewrite Hne. cbn [columns rows].
  destruct (Z.eqb_spec count 0) as [->|_]; [lia|].
  destruct (Z.ltb_spec (- count) 0) as [?|_]; [lia|].
  do 2 f_equal.
  destruct (Z.min_spec (- count) (Z.of_nat (length (rows df)))) as [[_ ->]|[Hle ->]].
  - reflexivity.
  - rewrite Nat2Z.id. rewrite !skipn_all2; [reflexivity | lia | lia].
Qed.

Lemma get_latest_measurements_negative_witness :
  get_latest_measurements three_rows (-1)
  = {| columns := columns three_rows;
       rows := rev (skipn (Z.to_nat (- -1)) (rows three_rows)) |}.
Proof. apply get_latest_measurements_negative; [lia | reflexivity]. Defined.

(** C9, amended: for a count [N >= 0] the result is the last
    [min(N, rows)] rows of the input in reverse order, under the same
    columns; an empty dataset is returned as it is. *)
Theorem get_latest_measurements_spec df count :
  0 <= count ->
  get_latest_measurements df count =
    if df_empty df then df
    else {| columns := columns df;
            rows := rev (last_rows (Z.min count (Z.of_nat (length (rows df))))
                                   (rows df)) |}.
Proof.
  intros Hcount. unfold get_latest_measurements.
  destruct (df_empty df); [reflexivity|].
  unfold iloc_reversed, tail. cbn [columns rows].
  now rewrite tail_rows_nonneg.
Qed.

Lemma get_latest_measurements_spec_witness :
  rows (get_latest_measurements three_rows 2)
  = [ {[ "timestamp" := PTimestamp 3 ]}; {[ "timestamp" := PTimestamp 2 ]} ].
Proof.
  rewrite (get_latest_measurements_spec three_rows 2); [|lia].
  vm_compute. reflexivity.
Defined.

(** ** Filename Timestamp Parser *)

Lemma re_run_starts_with p :
  forall s cur gs m,
  re_run p s cur gs = Some m -> starts_with (List.filter consuming p) s = true.
Proof.
  induction p as [|a p IH]; intros s cur gs m H; [reflexivity|].
  destruct a; cbn [re_run] in H; cbn [List.filter consuming];
    try (destruct s as [|ch rest]; [discriminate H|];
         cbn [starts_with];
         destruct (accepts _ ch); [cbn [andb]; eauto | discriminate H]);
    eauto.
Qed.

Lemma starts_with_fits template :
  forall s,
  starts_with (List.map atom_of_template (list_ascii_of_string template)) s = true ->
  fits template (str_prefix (String.length template) s) = true.
Proof.
  induction template as [|t template IH]; intros s H; [now destruct s|].
  cbn [list_ascii_of_string List.map starts_with] in H.
  destruct s as [|c s]; [discriminate H|].
  apply andb_prop in H as [Hc Hs].
  cbn [String.length str_prefix fits].
  rewrite (IH s Hs), Bool.andb_true_r.
  unfold atom_of_template in Hc. now destruct (Ascii.eqb t "#").
Qed.

(** A file name that the first pattern matches starts with 39
    characters of the exact shape. *)
Lemma filename_pattern_shape filename m :
  re_match filename_pattern filename = Some m ->
  has_shape (str_prefix 39 filename) = true.
Proof.
  intros H. apply re_run_starts_with in H.
  exact (starts_with_fits shape_template filename H).
Qed.

Lemma fromisoformat_raises_ValueError s e :
  fromisoformat s = Raise e -> e = ValueError.
Proof.
  unfold fromisoformat. destruct (re_match _ s); [|congruence].
  destruct (_ && _); [discriminate | congruence].
Qed.

(** The parser returns for every file name: no exception leaves it. *)
Lemma parse_timestamp_never_raises filename :
  exists o, parse_timestamp_from_filename filename = Ok o.
Proof.
  unfold parse_timestamp_from_filename.
  destruct (re_match filename_pattern filename); [|eauto].
  destruct (negb _); [eauto|].
  destruct (re_match time_pattern _); [|eauto].
  match goal with |- context [fromisoformat ?x] =>
    destruct (fromisoformat x) as [t|e] eqn:E end.
  - cbn. eauto.
  - apply fromisoformat_raises_ValueError in E. subst e. cbn. eauto.
Qed.

Lemma re_run_append p :
  forall s cur gs m t,
  re_run p s cur gs = Some m ->
  re_run p (s +:+ t) cur gs = Some {| groups := groups m; rest := rest m +:+ t |}.
Proof.
  induction p as [|a p IH]; intros s cur gs m t H.
  - cbn in *. now injection H as <-.
  - destruct a; cbn [re_run] in *;
      try (destruct s as [|ch s']; [discriminate H|];
           change (String ch s' +:+ t) with (String ch (s' +:+ t)); cbv beta iota;
           destruct (accepts _ ch); [|discriminate H]);
      now apply IH.
Qed.

Lemma starts_with_re_run p :
  forall s cur gs,
  starts_with (List.filter consuming p) s = true ->
  exists m, re_run p s cur gs = Some m.
Proof.
  induction p as [|a p IH]; intros s cur gs H; [cbn; eauto|].
  destruct a; cbn [re_run List.filter consuming] in *;
    try (cbn [starts_with] in H; destruct s as [|ch s']; [discriminate H|];
         apply andb_prop in H as [Hch Hs]; rewrite Hch);
    now apply IH.
Qed.

Lemma fits_starts_with template :
  forall s,
  fits template s = true ->
  starts_with (List.map atom_of_template (list_ascii_of_string template)) s = true.
Proof.
  induction template as [|t template IH]; intros s H; [reflexivity|].
  destruct s as [|c s]; [discriminate H|].
  cbn [fits] in H. apply andb_prop in H as [Hc Hs].
  cbn [list_ascii_of_string List.map starts_with].
  rewrite (IH s Hs), Bool.andb_true_r.
  unfold atom_of_template. now destruct (Ascii.eqb t "#").
Qed.

(** X2: text after a well-shaped name is ignored: the name is decoded
    like the well-shaped name it extends. *)
Lemma parse_ignores_trailing_text s t :
  has_shape s = true ->
  parse_timestamp_from_filename (s +:+ t) = parse_timestamp_from_filename s.
Proof.
  intros Hshape. apply fits_starts_with in Hshape.
  destruct (starts_with_re_run filename_pattern s "" [] Hshape) as (m & Hm).
  unfold parse_timestamp_from_filename, re_match.
  rewrite (re_run_append _ _ _ _ _ t Hm), Hm. reflexivity.
Qed.

Lemma parse_ignores_trailing_text_witness :
  parse_timestamp_from_filename (sample_name +:+ ".bak")
  = parse_timestamp_from_filename sample_name.
Proof. apply parse_ignores_trailing_text. reflexivity. Defined.

Example parse_well_shaped :
  has_shape sample_name = true /\
  parse_timestamp_from_filename sample_name
  = Ok (Some {| year := 2024; month := 1; day := 15;
                hour := 10; minute := 30; second := 0; microsecond := 0;
                utcoffset := 0 |}).
Proof. split; vm_compute; reflexivity. Qed.

(** A well-shaped name with fields out of range has no timestamp. *)
Example parse_invalid_date :
  has_shape "speedtest-2024-02-30T10-30-00-000Z.json" = true /\
  parse_timestamp_from_filename "speedtest-2024-02-30T10-30-00-000Z.json" = Ok None.
Proof. split; vm_compute; reflexivity. Qed.

(** C2, as stated, fails: [re.match] anchors the pattern at the start
    only, so a name with text after ".json" (a wrong extension) is
    decoded like the name it extends. *)
Lemma parse_accepts_trailing_text :
  has_shape "speedtest-2024-01-15T10-30-00-000Z.json.bak" = false /\
  parse_timestamp_from_filename "speedtest-2024-01-15T10-30-00-000Z.json.bak"
  = Ok (Some {| year := 2024; month := 1; day := 15;
                hour := 10; minute := 30; second := 0; microsecond := 0;
                utcoffset := 0 |}).
Proof. split; vm_compute; reflexivity. Qed.

(** C2, amended: a file name whose first 39 characters do not have the
    exact shape speedtest-<YYYY-MM-DD>T<HH>-<MM>-<SS>-<mmm>Z.json gets
    "no timestamp", and the parser does not raise. *)
Theorem parse_rejects_misshapen filename :
  has_shape (str_prefix 39 filename) = false ->
  parse_timestamp_from_filename filename = Ok None.
Proof.
  intros Hshape. unfold parse_timestamp_from_filename.
  destruct (re_match filename_pattern filename) as [m|] eqn:Hm; [|reflexivity].
  apply filename_pattern_shape in Hm. congruence.
Qed.

Lemma parse_rejects_misshapen_witness :
  parse_timestamp_from_filename "speedtest-2024-1-15T10-30-00-000Z.json" = Ok None /\
  parse_timestamp_from_filename "results-2024-01-15T10-30-00-000Z.json" = Ok None /\
  parse_timestamp_from_filename "speedtest-2024-01-15T10-30-00-000Z.txt" = Ok None /\
  parse_timestamp_from_filename "garbage" = Ok None.
Proof.
  split; [|split; [|split]]; apply parse_rejects_misshapen; vm_compute; reflexivity.
Defined.

(** ** Sorting *)

Section Sorting.
Context {A : Type} (leb : A -> A -> bool).
Hypothesis leb_total : forall a b, leb a b = true \/ leb b a = true.
Hypothesis leb_trans : forall a b c, leb a b = true -> leb b c = true -> leb a c = true.

Let le (a b : A) : Prop := leb a b = true.

Lemma insert_sorted_perm x l : Permutation (insert_sorted leb x l) (x :: l).
Proof.
  induction l as [|y l IH]; cbn; [reflexivity|].
  destruct (leb x y); [reflexivity|].
  rewrite IH. apply perm_swap.
Qed.

Lemma sort_by_perm l : Permutation (sort_by leb l) l.
Proof.
  induction l as [|x l IH]; [reflexivity|].
  change (sort_by leb (x :: l)) with (insert_sorted leb x (sort_by leb l)).
  rewrite insert_sorted_perm. now rewrite IH.
Qed.

Lemma insert_sorted_sorted x l :
  StronglySorted le l -> StronglySorted le (insert_sorted leb x l).
Proof.
  induction 1 as [|y l Hl IH Hy]; cbn.
  - repeat constructor.
  - destruct (leb x y) eqn:E.
    + constructor; [now constructor|].
      constructor; [exact E|].
      eapply List.Forall_impl; [|exact Hy]. intros z Hz. exact (leb_trans _ _ _ E Hz).
    + constructor; [exact IH|].
      rewrite insert_sorted_perm. constructor; [|exact Hy].
      destruct (leb_total x y) as [H|H]; [congruence | exact H].
Qed.

Lemma sort_by_sorted l : StronglySorted le (sort_by leb l).
Proof.
  induction l as [|x l IH]; cbn; [constructor | now apply insert_sorted_sorted].
Qed.

(** Sorting a sorted list changes nothing. *)
Lemma sort_by_sorted_id l : StronglySorted le l -> sort_by leb l = l.
Proof.
  induction 1 as [|x l Hl IH Hx]; [reflexivity|].
  change (sort_by leb (x :: l)) with (insert_sorted leb x (sort_by leb l)).
  rewrite IH. destruct l as [|y l]; [reflexivity|].
  cbn. inversion Hx as [|? ? Hxy _]. unfold le in Hxy. now rewrite Hxy.
Qed.
End Sorting.

(** Sorting commutes with a map that leaves the order alone. *)
Lemma sort_by_map {A B} (lebA : A -> A -> bool) (lebB : B -> B -> bool) (f : A -> B) :
  (forall a b, lebB (f a) (f b) = lebA a b) ->
  forall l, sort_by lebB (List.map f l) = List.map f (sort_by lebA l).
Proof.
  intros Hf. induction l as [|x l IH]; [reflexivity|].
  change (sort_by lebB (List.map f (x :: l)))
    with (insert_sorted lebB (f x) (sort_by lebB (List.map f l))).
  change (sort_by lebA (x :: l)) with (insert_sorted lebA x (sort_by lebA l)).
  rewrite IH. generalize (sort_by lebA l) as s. clear IH.
  induction s as [|y s IH]; cbn; [reflexivity|].
  rewrite Hf. destruct (lebA x y); cbn; [reflexivity | now rewrite IH].
Qed.

Lemma key_leb_total a b : key_leb a b = true \/ key_leb b a = true.
Proof. destruct a, b; cbn; auto. lia. Qed.

Lemma key_leb_trans a b c :
  key_leb a b = true -> key_leb b c = true -> key_leb a c = true.
Proof. destruct a, b, c; cbn; auto; try discriminate. lia. Qed.

(** ** Frames *)

Lemma sort_values_Ok_inv df c out :
  sort_values df c = Ok out ->
  has_column df c = true /\
  forallb (fun r => sortable (r !! c)) (rows df) = true /\
  out = {| columns := columns df;
           rows := sort_by (fun r1 r2 => key_leb (ts_key c r1) (ts_key c r2)) (rows df) |}.
Proof.
  unfold sort_values. destruct (has_column df c); [|discriminate].
  destruct (forallb _ _); [|discriminate].
  intros [= <-]. auto.
Qed.

Lemma drop_columns_Ok_inv df c out :
  drop_columns df c = Ok out ->
  has_column df c = true /\
  out = {| columns := List.filter (fun k => negb (String.eqb k c)) (columns df);
           rows := List.map (delete c) (rows df) |}.
Proof.
  unfold drop_columns. destruct (has_column df c); [|discriminate].
  intros [= <-]. auto.
Qed.

Lemma dropped_column_gone c cols :
  existsb (String.eqb c) (List.filter (fun k => negb (String.eqb k c)) cols) = false.
Proof.
  induction cols as [|k cols IH]; cbn; [reflexivity|].
  destruct (String.eqb k c) eqn:E; cbn; [exact IH|].
  rewrite String.eqb_sym, E. exact IH.
Qed.

Lemma ts_key_delete c (r : gmap string pyval) :
  c <> "timestamp" -> ts_key "timestamp" (delete c r) = ts_key "timestamp" r.
Proof. intros Hne. unfold ts_key. now rewrite lookup_delete_ne. Qed.

Lemma StronglySorted_map {A B} (R : A -> A -> Prop) (R' : B -> B -> Prop) (f : A -> B) l :
  (forall a b, R a b -> R' (f a) (f b)) ->
  StronglySorted R l -> StronglySorted R' (List.map f l).
Proof.
  intros Hf. induction 1 as [|x l Hl IH Hx]; cbn; constructor; [exact IH|].
  apply List.Forall_map. eapply List.Forall_impl; [|exact Hx]. intros y. apply Hf.
Qed.

Lemma sort_values_sorted df out :
  sort_values df "timestamp" = Ok out ->
  StronglySorted ts_le (rows out) /\ columns out = columns df.
Proof.
  intros H. apply sort_values_Ok_inv in H as (_ & _ & ->). cbn [rows columns].
  split; [|reflexivity].
  apply (sort_by_sorted (fun r1 r2 => key_leb (ts_key "timestamp" r1) (ts_key "timestamp" r2))).
  - intros a b. apply key_leb_total.
  - intros a b c. apply key_leb_trans.
Qed.

Lemma public_empty : public pd_DataFrame.
Proof. split; [constructor | split; [reflexivity | constructor]]. Qed.

Lemma dropped_cells_gone c (rs : list (gmap string pyval)) :
  List.Forall (fun r => r !! c = None) (List.map (delete c) rs).
Proof.
  apply List.Forall_forall. intros r' Hr'.
  apply List.in_map_iff in Hr' as (r & <- & _). apply lookup_delete_eq.
Qed.

(** The cache-hit return: drop, then sort. *)
Lemma drop_then_sort_public cdf out :
  (d ← drop_columns cdf "source_file"; sort_values d "timestamp") = Ok out ->
  public out.
Proof.
  intros H. bind_inv H as d Hd.
  apply drop_columns_Ok_inv in Hd as (_ & ->).
  pose proof (sort_values_sorted _ _ H) as (Hsorted & Hcols). cbn [columns] in Hcols.
  split; [exact Hsorted|]. split.
  - unfold has_column. rewrite Hcols. apply dropped_column_gone.
  - apply sort_values_Ok_inv in H as (_ & _ & ->). cbn [rows].
    eapply Permutation_Forall; [symmetry; apply sort_by_perm|].
    apply dropped_cells_gone.
Qed.

(** The other returns: sort, save, then drop. *)
Lemma sort_and_save_public env cache_path df w out w' :
  sort_and_save env cache_path df w = (Ok out, w') -> public out.
Proof.
  unfold sort_and_save. destruct (sort_values df "timestamp") as [s|e] eqn:Hs.
  2:{ intros [= ]. }
  intros [= Hd _]. apply sort_values_sorted in Hs as (Hsorted & _).
  apply drop_columns_Ok_inv in Hd as (_ & ->). split; [|split].
  - cbn [rows]. eapply StronglySorted_map; [|exact Hsorted].
    intros a b. unfold ts_le. now rewrite !ts_key_delete.
  - unfold has_column. cbn [columns]. apply dropped_column_gone.
  - apply dropped_cells_gone.
Qed.

(** ** Dataset Loader *)

Lemma sort_and_save_calls env cache_path df w r w' :
  sort_and_save env cache_path df w = (r, w') ->
  extractor_calls w' = extractor_calls w.
Proof.
  unfold sort_and_save, _save_cache.
  destruct (sort_values df "timestamp"); intros [= _ <-]; [|reflexivity].
  now destruct (parquet_writable env).
Qed.

Lemma parallel_calls env fps w r w' :
  _load_json_files_parallel env fps w = (r, w') ->
  extractor_calls w' = (extractor_calls w ++ fps)%list.
Proof.
  unfold _load_json_files_parallel. destruct fps; intros [= _ <-]; cbn [extractor_calls].
  - now rewrite app_nil_r.
  - reflexivity.
Qed.

(** The three ways in which [load_all_data] returns a dataset. *)
Lemma load_all_data_Ok_cases env w df w' :
  load_all_data env w = (Ok df, w') ->
  df = pd_DataFrame \/
  (exists cdf, (d ← drop_columns cdf "source_file"; sort_values d "timestamp") = Ok df) \/
  (exists df0 w0, sort_and_save env (_get_cache_path (tempdir env) (DATA_DIR env)) df0 w0
                  = (Ok df, w')).
Proof.
  intros H. unfold load_all_data in H. cbv zeta in H.
  destruct (negb (dir_exists env)).
  { injection H as <- _. now left. }
  destruct (glob_json_files env) as [|file files].
  { injection H as <- _. now left. }
  destruct (match _load_cache _ w with Some _ => _ | None => _ end) as [cdf|].
  - destruct (series cdf "source_file") as [cells|e]; [|discriminate H].
    destruct (List.map snd _) as [|new_file new_files].
    + injection H as H _. right. left. eauto.
    + destruct (_load_json_files_parallel env _ w) as [[new_records|e] w1];
        [|discriminate H].
      right. right. eauto.
  - destruct (_load_json_files_parallel env _ w) as [[records|e] w1];
      [|discriminate H].
    destruct records as [|rec records].
    + injection H as <- _. now left.
    + right. right. eauto.
Qed.

(** C5: whatever path [load_all_data] takes (missing directory, no
    matching file, cache hit, incremental merge, cold load), the dataset
    it returns is sorted ascending by timestamp and has no source_file
    field: no such column, and no such cell in any row. *)
Theorem load_all_data_public env w df w' :
  load_all_data env w = (Ok df, w') ->
  StronglySorted ts_le (rows df) /\
  has_column df "source_file" = false /\
  List.Forall (fun r => r !! "source_file" = None) (rows df).
Proof.
  intros H. change (public df).
  destruct (load_all_data_Ok_cases env w df w' H)
    as [->|[(cdf & Hhit)|(df0 & w0 & Hsave)]].
  - apply public_empty.
  - exact (drop_then_sort_public cdf df Hhit).
  - exact (sort_and_save_public _ _ _ _ _ _ Hsave).
Qed.

Lemma load_all_data_sample :
  fst (load_all_data env_sample no_parquet) = Ok sample_dataset.
Proof. vm_compute. reflexivity. Qed.

Lemma load_all_data_public_witness :
  StronglySorted ts_le (rows sample_dataset) /\
  has_column sample_dataset "source_file" = false /\
  List.Forall (fun r => r !! "source_file" = None) (rows sample_dataset).
Proof.
  apply (load_all_data_public env_sample no_parquet sample_dataset
           (snd (load_all_data env_sample no_parquet))).
  rewrite <- load_all_data_sample. apply surjective_pairing.
Defined.

(** C4, as stated, fails: a file that yields no record is not in the
    snapshot, so the second run over the unchanged directory hands it to
    the Record Extractor again (the dataset is the same both times). *)
Lemma second_run_parses_skipped_file :
  let first := load_all_data env_sample no_parquet in
  let second := load_all_data env_sample (snd first) in
  fst first = Ok sample_dataset /\
  fst second = Ok sample_dataset /\
  extractor_calls (snd second)
  = (extractor_calls (snd first) ++ [{| parent := "/data"; name := file_corrupt |}])%list.
Proof. vm_compute. repeat split; reflexivity. Qed.

Lemma dict_set_In {V} (d : list (string * V)) k v k' v' :
  In (k', v') (dict_set d k v) -> (k' = k /\ v' = v) \/ In (k', v') d.
Proof.
  induction d as [|[k0 v0] d IH]; cbn.
  - intros [[= <- <-]|[]]. auto.
  - destruct (String.eqb k0 k) eqn:E; cbn.
    + apply String.eqb_eq in E. intros [[= <- <-]|H]; auto.
    + intros [H|H]; [auto|]. apply IH in H. tauto.
Qed.

(** The files of a scan are the matching names of the directory, each
    under its own name. *)
Lemma glob_json_files_spec env n p :
  In (n, p) (glob_json_files env) ->
  p = {| parent := DATA_DIR env; name := n |} /\
  In n (listing env) /\ glob_match n = true.
Proof.
  unfold glob_json_files.
  assert (Hgen : forall names d,
    (forall n p, In (n, p) d ->
       p = {| parent := DATA_DIR env; name := n |} /\
       In n (listing env) /\ glob_match n = true) ->
    (forall n, In n names -> In n (listing env) /\ glob_match n = true) ->
    forall n p,
    In (n, p) (fold_left (fun d n => dict_set d n {| parent := DATA_DIR env; name := n |})
                         names d) ->
    p = {| parent := DATA_DIR env; name := n |} /\
    In n (listing env) /\ glob_match n = true).
  { induction names as [|x names IH]; intros d Hd Hnames n' p' Hin; cbn in Hin.
    - now apply Hd.
    - apply (IH (dict_set d x {| parent := DATA_DIR env; name := x |})); try assumption.
      + intros n0 p0 H0. apply dict_set_In in H0 as [[-> ->]|H0].
        * split; [reflexivity|]. apply Hnames. now left.
        * now apply Hd.
      + intros n0 H0. apply Hnames. now right. }
  apply Hgen.
  - intros ? ? [].
  - intros n0 H0. now apply List.filter_In in H0.
Qed.

Lemma filter_none {A} (f : A -> bool) l :
  (forall x, In x l -> f x = false) -> List.filter f l = [].
Proof.
  induction l as [|x l IH]; intros H; cbn; [reflexivity|].
  rewrite (H x) by now left. apply IH. intros y Hy. apply H. now right.
Qed.

Lemma elem_of_source_files n cells :
  n ∈ source_files cells <-> In (Some (PStr n)) cells.
Proof.
  unfold source_files. rewrite elem_of_list_to_set, list_elem_of_omap. split.
  - intros (cell & Hin & Hs). apply list_elem_of_In in Hin.
    destruct cell as [[]|]; try discriminate Hs. now injection Hs as ->.
  - intros Hin. exists (Some (PStr n)). split; [now apply list_elem_of_In | reflexivity].
Qed.

Lemma lookup_row_of_record (r : record) k :
  row_of_record r !! k = to_cell <$> dict_get r k.
Proof.
  unfold row_of_record. induction r as [|[k0 v0] r IH]; cbn [List.map dict_get fst snd].
  - apply lookup_empty.
  - rewrite list_to_map_cons. destruct (String.eqb_spec k0 k) as [->|Hne].
    + now rewrite lookup_insert_eq.
    + rewrite lookup_insert_ne by exact Hne. exact IH.
Qed.

Lemma load_single_file_keeps_source open_json p rec :
  load_single_file open_json p = Ok (Some rec) ->
  dict_get rec "source_file" = Some (PStr (name p)).
Proof.
  intros H. apply load_single_file_Some_inv in H.
  destruct H as (d & v & ts & _ & _ & _ & _ & Hconv).
  exact (convert_metrics_spec METRICS METRICS_keys_NoDup _ _ _ Hconv "source_file").
Qed.

Lemma df_empty_false df :
  columns df <> [] -> rows df <> [] -> df_empty df = false.
Proof. unfold df_empty. destruct (columns df), (rows df); congruence. Qed.

Lemma df_empty_false_inv df :
  df_empty df = false -> columns df <> [] /\ rows df <> [].
Proof. unfold df_empty. destruct (columns df), (rows df); intros; split; congruence. Qed.

Lemma has_column_nonempty df c : has_column df c = true -> columns df <> [].
Proof. unfold has_column. destruct (columns df); [discriminate | congruence]. Qed.

Lemma has_column_after_drop c c' cols :
  c <> c' ->
  existsb (String.eqb c) (List.filter (fun k => negb (String.eqb k c')) cols)
  = existsb (String.eqb c) cols.
Proof.
  intros Hne. induction cols as [|k cols IH]; [reflexivity|].
  cbn [List.filter existsb]. destruct (String.eqb_spec k c') as [->|Hk]; cbn [negb existsb].
  - apply String.eqb_neq in Hne. now rewrite Hne.
  - now rewrite IH.
Qed.

(** Sorting what was sorted before the source column was dropped
    changes nothing. *)
Lemma sort_values_dropped_id df s out :
  sort_values df "timestamp" = Ok s ->
  drop_columns s "source_file" = Ok out ->
  sort_values out "timestamp" = Ok out.
Proof.
  intros Hs Hd.
  pose proof (sort_values_sorted _ _ Hs) as [Hsorted _].
  apply sort_values_Ok_inv in Hs as (Hcol & Hcells & ->).
  apply drop_columns_Ok_inv in Hd as (_ & ->).
  cbn [rows columns] in *.
  unfold sort_values, has_column. cbn [rows columns].
  rewrite has_column_after_drop by discriminate.
  fold (has_column df "timestamp"). rewrite Hcol.
  replace (forallb _ _) with true.
  2:{ symmetry. apply forallb_forall. intros r' Hr'.
      apply List.in_map_iff in Hr' as (r & <- & Hr).
      rewrite lookup_delete_ne by discriminate.
      rewrite forallb_forall in Hcells. apply Hcells.
      eapply Permutation_in; [apply sort_by_perm | exact Hr]. }
  f_equal. f_equal.
  rewrite (sort_by_map
             (fun r1 r2 => key_leb (ts_key "timestamp" r1) (ts_key "timestamp" r2))).
  2:{ intros a b. now rewrite !ts_key_delete. }
  f_equal. apply sort_by_sorted_id. exact Hsorted.
Qed.


(** ** Aggregator *)

Lemma dict_keys_set_In {V} (d : list (string * V)) c v k :
  In k (dict_keys (dict_set d c v)) -> k = c \/ In k (dict_keys d).
Proof.
  unfold dict_keys. induction d as [|[k0 v0] d IH]; cbn.
  - intros [<-|[]]. now left.
  - destruct (String.eqb k0 c); cbn; intros [<-|H]; auto.
    apply IH in H. tauto.
Qed.

Lemma agg_dict_keys_In {V} (v : V) cols :
  forall d k,
  In k (dict_keys (fold_left (fun d col => dict_set d col v) cols d)) ->
  In k (dict_keys d) \/ In k cols.
Proof.
  induction cols as [|c cols IH]; intros d k H; cbn in H; [now left|].
  apply IH in H as [H|H]; [|right; now right].
  apply dict_keys_set_In in H as [->|H]; [right; now left | now left].
Qed.

Lemma groupby_agg_mean_Ok_inv pd df col cols agg :
  groupby_agg_mean pd df col cols = Ok agg ->
  exists rs,
    mapM (fun k => group_row pd (List.filter (in_group col k) (rows df)) cols
                             {[ col := PTimestamp k ]})
         (group_keys col (rows df)) = Ok rs /\
    agg = {| columns := col :: cols; rows := rs |}.
Proof.
  unfold groupby_agg_mean. intros H.
  destruct cols as [|c cols]; [destruct (agg_empty_raises pd); [discriminate H|]|];
    bind_inv H as rs Hrs; injection H as <-; eauto.
Qed.

Lemma groupby_agg_mean_columns pd df col cols agg :
  groupby_agg_mean pd df col cols = Ok agg -> columns agg = col :: cols.
Proof.
  intros H. apply groupby_agg_mean_Ok_inv in H as (rs & _ & ->). reflexivity.
Qed.

(** The columns of an aggregate: the bucket start under the name
    timestamp, then metric columns of the input. *)
Lemma aggregate_columns_inv pd df width out :
  df_empty df = false ->
  aggregate_to_intervals pd df width = Ok out ->
  exists cols,
    columns out = "timestamp" :: cols /\
    forall c, In c cols -> in_METRICS c = true /\ In c (columns df).
Proof.
  intros Hne H. unfold aggregate_to_intervals in H. rewrite Hne in H.
  bind_inv H as ts Hts. bind_inv H as intervals Hintervals.
  cbv zeta in H. bind_inv H as agg Hagg.
  apply sort_values_Ok_inv in H as (_ & _ & ->).
  apply groupby_agg_mean_columns in Hagg.
  unfold rename_columns. cbn [columns]. rewrite Hagg. cbn [List.map].
  rewrite String.eqb_refl. eexists. split; [reflexivity|].
  intros c Hc. apply List.in_map_iff in Hc as (k & <- & Hk).
  apply agg_dict_keys_In in Hk as [[]|Hk].
  apply List.filter_In in Hk as [Hk Hmetric].
  destruct (String.eqb_spec k "interval") as [->|Hne'].
  { vm_compute in Hmetric. discriminate Hmetric. }
  split; [exact Hmetric|].
  unfold set_column in Hk. cbn [columns] in Hk.
  destruct (has_column df "interval"); [exact Hk|].
  apply in_app_or in Hk as [Hk|[<-|[]]]; [exact Hk | congruence].
Qed.



Lemma lookup_set_cell_ne c c' cell (r : gmap string pyval) :
  c <> c' -> set_cell c cell r !! c' = r !! c'.
Proof.
  intros Hne. destruct cell as [v|]; cbn;
    [now apply lookup_insert_ne | now apply lookup_delete_ne].
Qed.

Lemma mapM_Ok_In {A B} (f : A -> result B) l ys :
  mapM f l = Ok ys -> forall y, In y ys -> exists x, In x l /\ f x = Ok y.
Proof.
  revert ys. induction l as [|x l IH]; intros ys H y Hy; cbn [mapM] in H.
  - injection H as <-. destruct Hy.
  - bind_inv H as y0 Hy0. bind_inv H as ys0 Hys0. injection H as <-.
    destruct Hy as [<-|Hy]; [exists x; split; [now left | exact Hy0]|].
    destruct (IH ys0 Hys0 y Hy) as (x' & Hx' & Hfx'). exists x'. split; [now right | exact Hfx'].
Qed.

(** A group row has cells only where it started with one and under the
    aggregated columns. *)
Lemma group_row_cells pd members cols :
  forall init row,
  group_row pd members cols init = Ok row ->
  forall c, is_Some (row !! c) -> In c cols \/ is_Some (init !! c).
Proof.
  induction cols as [|c0 cols IH]; intros init row H c Hc; cbn [group_row] in H.
  - injection H as <-. now right.
  - bind_inv H as m Hm.
    destruct (IH _ _ H c Hc) as [Hin|Hinit]; [left; now right|].
    destruct (String.eqb_spec c0 c) as [->|Hne]; [left; now left|].
    right. now rewrite lookup_set_cell_ne in Hinit.
Qed.

Lemma rename_row_cells old new (r : gmap string pyval) c :
  is_Some (rename_row old new r !! c) -> c = new \/ (c <> old /\ is_Some (r !! c)).
Proof.
  unfold rename_row. destruct (r !! old) as [v|] eqn:Hold.
  - destruct (String.eqb_spec new c) as [->|Hnew]; [now left|].
    rewrite lookup_insert_ne by exact Hnew.
    destruct (String.eqb_spec old c) as [->|Hne].
    + rewrite lookup_delete_eq. intros [? [=]].
    + rewrite lookup_delete_ne by exact Hne. right. split; [congruence | assumption].
  - intros Hc. right. split; [|exact Hc]. intros ->. rewrite Hold in Hc. now destruct Hc.
Qed.

(** The rows of an aggregate have cells only under its columns. *)
Lemma aggregate_cells_inv pd df width out :
  df_empty df = false ->
  aggregate_to_intervals pd df width = Ok out ->
  forall row c, In row (rows out) -> is_Some (row !! c) -> In c (columns out).
Proof.
  intros Hne H row c Hrow Hc. unfold aggregate_to_intervals in H. rewrite Hne in H.
  bind_inv H as ts Hts. bind_inv H as intervals Hintervals.
  cbv zeta in H. bind_inv H as agg Hagg.
  apply sort_values_Ok_inv in H as (_ & _ & ->). cbn [rows columns] in *.
  apply (Permutation_in _ (sort_by_perm _ _)) in Hrow.
  unfold rename_columns in *. cbn [rows columns] in *.
  apply List.in_map_iff in Hrow as (r & <- & Hr).
  apply groupby_agg_mean_Ok_inv in Hagg as (rs & Hrs & ->). cbn [rows columns] in *.
  destruct (mapM_Ok_In _ _ _ Hrs r Hr) as (k & _ & Hk).
  cbn [List.map]. rewrite String.eqb_refl.
  apply rename_row_cells in Hc as [->|[Hold Hc]]; [now left|].
  right. apply List.in_map_iff. exists c. split.
  - apply String.eqb_neq in Hold. now rewrite Hold.
  - destruct (group_row_cells _ _ _ _ _ Hk c Hc) as [Hcol|Hinit]; [exact Hcol|].
    rewrite lookup_singleton_ne in Hinit by congruence. now destruct Hinit.
Qed.

(** C10: the output of the Aggregator on a non-empty dataset has the
    bucket timestamp column and, besides it, only known metric columns
    of the input, and its rows have cells under these columns only;
    sessionID and endpoint are not among them. *)
Theorem aggregate_keeps_metric_columns_only pd df width out :
  df_empty df = false ->
  aggregate_to_intervals pd df width = Ok out ->
  (forall c, In c (columns out) ->
     c = "timestamp" \/ (in_METRICS c = true /\ In c (columns df))) /\
  (forall row c, In row (rows out) -> is_Some (row !! c) -> In c (columns out)) /\
  ~ In "sessionID" (columns out) /\
  ~ In "endpoint" (columns out).
Proof.
  intros Hne H.
  pose proof (aggregate_cells_inv pd df width out Hne H) as Hcells.
  destruct (aggregate_columns_inv pd df width out Hne H) as (cols & Hout & Hcols).
  assert (Honly : forall c, In c (columns out) ->
            c = "timestamp" \/ (in_METRICS c = true /\ In c (columns df))).
  { rewrite Hout. intros c [<-|Hc]; [now left | right; now apply Hcols]. }
  split; [exact Honly|]. split; [exact Hcells|].
  split; intros Hin; apply Honly in Hin as [Heq|[Hm _]];
    try discriminate Heq; vm_compute in Hm; discriminate Hm.
Qed.

Lemma aggregate_keeps_metric_columns_only_witness :
  columns sample_aggregate = ["timestamp"; "download"; "latency"] /\
  ~ In "sessionID" (columns sample_aggregate) /\
  ~ In "endpoint" (columns sample_aggregate).
Proof.
  split; [vm_compute; reflexivity|].
  refine (proj2 (proj2 (aggregate_keeps_metric_columns_only
                          sample_pandas sample_dataset 10 sample_aggregate _ _))).
  - reflexivity.
  - vm_compute. reflexivity.
Defined.

(** *** The Aggregator on datasets with a metric column *)























(** The example of the specification: measurements at 10:00:00,
    10:01:00, 10:11:00 and 10:21:00 fall into the three 10-minute
    buckets 10:00, 10:10 and 10:20, each holding the mean of its
    records (downloads of 10 and 30, of 50, and of 70 Mbps), whatever
    the float arithmetic of the mean. *)
Lemma aggregate_four_records pd :
  exists out,
    aggregate_to_intervals pd sample_dataset 10 = Ok out /\
    columns out = ["timestamp"; "download"; "latency"] /\
    List.map (fun r => r !! "timestamp") (rows out)
    = [ Some (PTimestamp (on_2024_01_15 10 0 0));
        Some (PTimestamp (on_2024_01_15 10 10 0));
        Some (PTimestamp (on_2024_01_15 10 20 0)) ] /\
    List.map (fun r => r !! "download") (rows out)
    = [ Some (PFloat (agg_mean pd [PFloat (Fnum 10); PFloat (Fnum 30)]));
        Some (PFloat (agg_mean pd [PFloat (Fnum 50)]));
        Some (PFloat (agg_mean pd [PFloat (Fnum 70)])) ].
Proof.
  eexists. split; [vm_compute; reflexivity|].
  repeat split; vm_compute; reflexivity.
Qed.

(** With a mean that rounds once these are 20, 50 and 70. *)
Lemma aggregate_sample_means :
  aggregate_to_intervals sample_pandas sample_dataset 10 = Ok sample_aggregate /\
  List.map (fun r => r !! "download") (rows sample_aggregate)
  = [ Some (PFloat (Fnum 20)); Some (PFloat (Fnum 50)); Some (PFloat (Fnum 70)) ].
Proof. split; vm_compute; reflexivity. Qed.




(* ================================================================= *)
(** * Further properties

    What the code shows besides the claims of the specification. *)

(** ** Filename Timestamp Parser: every file name *)

(** A string that fits a template has the length of the template. *)
Lemma fits_length template :
  forall s, fits template s = true -> String.length s = String.length template.
Proof.
  induction template as [|t template IH]; intros [|c s] H; try discriminate H.
  - reflexivity.
  - cbn [fits] in H. apply andb_prop in H as [_ H]. cbn. f_equal. now apply IH.
Qed.

(** Fitting a template, one character at a time. *)
Lemma fits_literal t template c s :
  Ascii.eqb t "#" = false ->
  fits (String t template) (String c s) = true -> c = t /\ fits template s = true.
Proof.
  intros Ht H. cbn [fits] in H. rewrite Ht in H. apply andb_prop in H as [Hc H].
  apply Ascii.eqb_eq in Hc. auto.
Qed.

Lemma fits_digit template c s :
  fits (String "#" template) (String c s) = true ->
  is_digit c = true /\ fits template s = true.
Proof. intros H. cbn [fits] in H. rewrite Ascii.eqb_refl in H. now apply andb_prop in H. Qed.

(** A digit differs from every character that is not a digit. *)
Lemma digit_is_not c x : is_digit c = true -> is_digit x = false -> Ascii.eqb c x = false.
Proof. intros Hc Hx. apply Ascii.eqb_neq. intros ->. congruence. Qed.

(** [split] and [replace], one character at a time. *)
Lemma split_other sep c s :
  Ascii.eqb c sep = false ->
  split sep (String c s)
  = match split sep s with [] => [String c ""] | w :: ws => String c w :: ws end.
Proof. intros H. cbn [split]. now rewrite H. Qed.

Lemma split_sep sep s : split sep (String sep s) = "" :: split sep s.
Proof. cbn [split]. now rewrite Ascii.eqb_refl. Qed.

Lemma replace_old old new s :
  replace old new (String old s) = new +:+ replace old new s.
Proof. cbn [replace]. now rewrite Ascii.eqb_refl. Qed.

Lemma replace_other old new c s :
  Ascii.eqb c old = false -> replace old new (String c s) = String c (replace old new s).
Proof. intros H. cbn [replace]. now rewrite H. Qed.

#[local] Arguments is_digit : simpl never.
#[local] Arguments int_of_digits : simpl never.

(** A name of the exact shape, possibly followed by more text, is
    decoded to the numbers written in it. *)
Lemma parse_well_shaped_name filename :
  has_shape (str_prefix 39 filename) = true ->
  parse_timestamp_from_filename filename
  = Ok (if valid_datetime (written filename) then Some (written filename) else None).
Proof.
  intros H. pose proof (fits_length _ _ H) as Hlen.
  do 39 (destruct filename as [|? filename]; [cbn in Hlen; discriminate Hlen|]).
  clear Hlen. unfold has_shape, shape_template in H.
  cbn [str_prefix] in H.
  repeat first [ apply fits_digit in H as [? H]
               | apply fits_literal in H as [-> H]; [|reflexivity] ].
  clear H.
  unfold parse_timestamp_from_filename, re_match, filename_pattern.
  cbn [lits digits repeat app re_run accepts].
  rewrite !Ascii.eqb_refl.
  repeat match goal with
         | Hd : is_digit ?c = true |- context [is_digit ?c] => rewrite Hd
         end.
  cbv [String.append group groups rest Nat.sub nth].
  repeat first [ rewrite split_sep
               | rewrite split_other
                   by (reflexivity || (apply digit_is_not; [assumption | reflexivity])) ].
  change (split "T" "") with [""]. cbv beta iota.
  cbn [length Nat.eqb negb nth re_run time_pattern lits digits repeat app accepts].
  rewrite !Ascii.eqb_refl.
  repeat match goal with
         | Hd : is_digit ?c = true |- context [is_digit ?c] => rewrite Hd
         end.
  cbv [String.append group groups rest Nat.sub nth].
  repeat first [ rewrite replace_old
               | rewrite replace_other
                   by (reflexivity || (apply digit_is_not; [assumption | reflexivity])) ].
  change (replace "Z" "+00:00" "") with "".
  cbv [String.append].
  unfold fromisoformat, re_match, isoformat_pattern.
  cbn [length Nat.eqb negb nth re_run time_pattern lits digits repeat app accepts existsb].
  rewrite !Ascii.eqb_refl.
  repeat match goal with
         | Hd : is_digit ?c = true |- context [is_digit ?c] => rewrite Hd
         end.
  change (is_digit "0") with true. cbn [orb].
  cbv [String.append group groups rest Nat.sub nth].
  change (int_of_digits "00") with 0.
  cbn [String.eqb Ascii.eqb Bool.eqb andb].
  change (0 <=? 23) with true. change (0 <=? 59) with true.
  change (1 * (60 * 0 + 0)) with 0.
  rewrite !andb_true_r.
  unfold valid_datetime, written, number_at.
  cbn [substring year month day hour minute second].
  match goal with |- context [if ?c then _ else _] => destruct c end; reflexivity.
Qed.

(** X1: the parser in closed form.  For every file name the result is
    determined by its first 39 characters: when they have the shape
    speedtest-<YYYY-MM-DD>T<HH>-<MM>-<SS>-<mmm>Z.json and the numbers
    written there form a valid date and time of day, the result is that
    instant, in UTC, with the milliseconds as microseconds; in every
    other case it is "no timestamp".  No exception is raised. *)
Theorem parse_timestamp_closed_form filename :
  parse_timestamp_from_filename filename
  = Ok (if has_shape (str_prefix 39 filename) && valid_datetime (written filename)
        then Some (written filename) else None).
Proof.
  destruct (has_shape (str_prefix 39 filename)) eqn:Hshape.
  - now apply parse_well_shaped_name.
  - unfold parse_timestamp_from_filename.
    destruct (re_match filename_pattern filename) as [m|] eqn:Hm; [|reflexivity].
    apply filename_pattern_shape in Hm. congruence.
Qed.

(** ** Record Extractor: the record and the exceptions *)

(** Setting a key that the dict does not have appends it. *)
Lemma dict_keys_set_new {V} (d : list (string * V)) k v :
  ~ In k (dict_keys d) -> dict_keys (dict_set d k v) = (dict_keys d ++ [k])%list.
Proof.
  unfold dict_keys. induction d as [|[k0 v0] d IH]; intros Hk; cbn; [reflexivity|].
  destruct (String.eqb_spec k0 k) as [->|Hne].
  - exfalso. apply Hk. now left.
  - cbn. f_equal. apply IH. intros Hin. apply Hk. now right.
Qed.

(** The metric loop appends the metrics of the table that the payload
    has, in the order of the table. *)
Lemma convert_metrics_keys ms :
  List.NoDup (dict_keys ms) ->
  forall data rec rec',
  (forall k, In k (dict_keys ms) -> ~ In k (dict_keys rec)) ->
  convert_metrics ms data rec = Ok rec' ->
  dict_keys rec' = (dict_keys rec ++ List.filter (has_metric data) (dict_keys ms))%list.
Proof.
  induction ms as [|[k cfg] ms IH]; intros Hnd data rec rec' Hfresh H.
  - cbn in H. injection H as <-. cbn. now rewrite app_nil_r.
  - cbn [dict_keys List.map fst] in Hnd. apply List.NoDup_cons_iff in Hnd as [Hk Hnd].
    cbn [convert_metrics] in H.
    bind_inv H as payload Hpayload.
    bind_inv H as present Hpresent.
    destruct data as [| | | | | |d| |]; try discriminate Hpayload.
    cbn in Hpayload. destruct (dict_get d "result") eqn:Hres; [|discriminate].
    injection Hpayload as ->.
    cbn [dict_keys List.map fst List.filter]. unfold has_metric at 1, raw_metric. rewrite Hres.
    destruct present.
    + bind_inv H as x Hx. bind_inv H as v Hv.
      destruct payload; try discriminate Hx. cbn in Hx.
      destruct (dict_get d0 k) eqn:E; [|discriminate].
      apply IH in H; [|assumption|].
      * rewrite H, dict_keys_set_new by (apply Hfresh; now left).
        now rewrite <- app_assoc.
      * intros k' Hk'. rewrite dict_keys_set_new by (apply Hfresh; now left).
        intros Hin. apply in_app_or in Hin as [Hin|[<-|[]]].
        -- revert Hin. apply Hfresh. now right.
        -- contradiction.
    + assert (Hnone : match payload with PDict d0 => dict_get d0 k | _ => None end = None).
      { destruct payload; try reflexivity. cbn in Hpresent.
        destruct (dict_get d0 k); [discriminate | reflexivity]. }
      rewrite Hnone. apply IH in H; [exact H | assumption |].
      intros k' Hk'. apply Hfresh. now right.
Qed.

(** X3: the shape of an extracted record.  Its keys are timestamp,
    source_file, sessionID and endpoint, in this order, followed by the
    metrics of the table that the payload has, in the order of the
    table; other payload keys are not copied.  The timestamp is the one
    decoded from the file name, source_file is the file name, and
    sessionID and endpoint are the document's fields, [None] when the
    document lacks them. *)
Theorem load_single_file_record_shape open_json p rec :
  load_single_file open_json p = Ok (Some rec) ->
  exists data ts,
    open_json p = Ok data /\
    parse_timestamp_from_filename (name p) = Ok (Some ts) /\
    dict_keys rec
    = (["timestamp"; "source_file"; "sessionID"; "endpoint"]
       ++ List.filter (has_metric data) (dict_keys METRICS))%list /\
    dict_get rec "timestamp" = Some (PDatetime ts) /\
    dict_get rec "source_file" = Some (PStr (name p)) /\
    dict_get rec "sessionID" = Some (field_or_None data "sessionID") /\
    dict_get rec "endpoint" = Some (field_or_None data "endpoint").
Proof.
  intros H. apply load_single_file_Some_inv in H as (d & v & ts & Hopen & _ & _ & Hts & Hrec).
  exists (PDict d), ts. split; [exact Hopen|]. split; [exact Hts|]. split.
  - apply (convert_metrics_keys _ METRICS_keys_NoDup) in Hrec; [exact Hrec|].
    intros k Hk Hin. cbn in Hk, Hin.
    repeat (destruct Hk as [<-|Hk]; [intuition discriminate|]). exact Hk.
  - pose proof (convert_metrics_spec _ METRICS_keys_NoDup _ _ _ Hrec) as Hspec.
    repeat split.
    + exact (Hspec "timestamp").
    + exact (Hspec "source_file").
    + exact (Hspec "sessionID").
    + exact (Hspec "endpoint").
Qed.

Lemma load_single_file_record_shape_witness :
  dict_keys download_record
  = ["timestamp"; "source_file"; "sessionID"; "endpoint"; "download"; "latency"].
Proof.
  assert (Hload : load_single_file (fun _ => Ok download_document) sample_path
                  = Ok (Some download_record)) by (vm_compute; reflexivity).
  destruct (load_single_file_record_shape _ _ _ Hload)
    as (data & ts & Hopen & _ & Hkeys & _).
  injection Hopen as <-. exact Hkeys.
Defined.

(** An exception of a sequence comes from its first or from its second
    part. *)
Lemma bind_Raise_inv {A B} (m : result A) (k : A -> result B) (e : exn) :
  (m ≫= k) = Raise e -> m = Raise e \/ exists a, m = Ok a /\ k a = Raise e.
Proof. destruct m as [a|e']; [eauto | intros H; injection H as ->; now left]. Qed.

(** The exceptions of the metric loop: [KeyError] and [TypeError] from
    the look-ups, or what a conversion raises. *)
Lemma convert_metrics_Raise_inv ms :
  (forall k cfg x e, In (k, cfg) ms -> convert cfg x = Raise e ->
     e = TypeError \/
     (e = OverflowError /\ In k ["download"; "upload"] /\
      exists n, x = PInt n /\ float_overflows (Qc_of_Z n / Qc_of_Z 1000000)%Qc = true)) ->
  forall data rec e,
  convert_metrics ms data rec = Raise e ->
  e = KeyError \/ e = TypeError \/ (e = OverflowError /\ overflowing data).
Proof.
  induction ms as [|[k cfg] ms IH]; intros Hcfg data rec e H.
  - discriminate H.
  - cbn [convert_metrics] in H.
    apply bind_Raise_inv in H as [H|(payload & Hpayload & H)].
    { destruct data; try (injection H as <-; auto).
      cbn in H. destruct (dict_get d "result"); [discriminate H | injection H as <-; auto]. }
    destruct data as [| | | | | |d| |]; try discriminate Hpayload.
    cbn in Hpayload. destruct (dict_get d "result") eqn:Hres; [|discriminate].
    injection Hpayload as ->.
    apply bind_Raise_inv in H as [H|(present & Hpresent & H)].
    { destruct payload; try discriminate H; injection H as <-; auto. }
    assert (Hrest : forall rec', convert_metrics ms (PDict d) rec' = Raise e ->
              e = KeyError \/ e = TypeError \/ (e = OverflowError /\ overflowing (PDict d))).
    { intros rec'. apply IH. intros k' cfg' x e' Hin. apply Hcfg. now right. }
    destruct present; [|now apply Hrest in H].
    apply bind_Raise_inv in H as [H|(x & Hx & H)].
    { destruct payload; try (injection H as <-; auto).
      cbn in H. destruct (dict_get d0 k); [discriminate H | injection H as <-; auto]. }
    apply bind_Raise_inv in H as [H|(v & Hv & H)]; [|now apply Hrest in H].
    apply (Hcfg k cfg x e (or_introl eq_refl)) in H as [->|(-> & Hk & n & -> & Hover)]; auto.
    right. right. split; [reflexivity|]. exists k, n. split; [exact Hk|]. split; [|exact Hover].
    unfold raw_metric. rewrite Hres.
    destruct payload; try discriminate Hx. cbn in Hx.
    destruct (dict_get d0 k); [|discriminate]. now injection Hx as ->.
Qed.

(** The conversions of the table raise on division only. *)
Lemma METRICS_convert_Raise k cfg x e :
  In (k, cfg) METRICS -> convert cfg x = Raise e ->
  e = TypeError \/
  (e = OverflowError /\ In k ["download"; "upload"] /\
   exists n, x = PInt n /\ float_overflows (Qc_of_Z n / Qc_of_Z 1000000)%Qc = true).
Proof.
  intros Hin H. cbn [METRICS In] in Hin.
  repeat (destruct Hin as [Hin|Hin]; [injection Hin as <- <-; cbn [convert] in H|]);
    try discriminate H; try contradiction.
  all: destruct x; cbn in H; try discriminate H; try (injection H as <-; now left).
  all: destruct (float_overflows _) eqn:Hover; [|discriminate H].
  all: injection H as <-; right; split; [reflexivity|]; split; [cbn; tauto|]; eauto.
Qed.

(** X4: the exceptions that leave the extractor.  It never raises one of
    the four classes its [except] clause names.  When it raises, either
    reading the file raised an exception outside these classes, or the
    document is not a JSON object ([AttributeError]), or the document is
    a successful measurement whose download or upload is an integer too
    large for a float division ([OverflowError]). *)
Theorem load_single_file_Raise_cases open_json p e :
  load_single_file open_json p = Raise e ->
  (open_json p = Raise e /\
   existsb (issubclass e) [JSONDecodeError; KeyError; TypeError; OSError] = false) \/
  (e = AttributeError /\
   exists data, open_json p = Ok data /\ forall d, data <> PDict d) \/
  (e = OverflowError /\
   exists data, open_json p = Ok data /\ success_truthy data = true /\ overflowing data).
Proof.
  unfold load_single_file, try_except.
  match goal with |- match ?b with _ => _ end = _ -> _ => destruct b as [o|e'] eqn:Hbody end;
    [discriminate|].
  destruct (existsb (issubclass e') _) eqn:Hcaught; [discriminate|].
  intros H. injection H as ->.
  apply bind_Raise_inv in Hbody as [Hopen|(data & Hopen & Hbody)]; [now left|].
  right.
  destruct data as [| | | | | |d| |];
    try (cbn in Hbody; injection Hbody as <-; left; split; [reflexivity|];
         eexists; split; [exact Hopen | discriminate]).
  right. cbn in Hbody.
  assert (Hs : success_truthy (PDict d) = truthy (match dict_get d "success" with
                                                  | Some v => v | None => PBool false end)).
  { unfold success_truthy. now destruct (dict_get d "success"). }
  destruct (truthy _) eqn:Hv; [|discriminate Hbody].
  cbn in Hbody. destruct (dict_get d "result") eqn:Hres; [|discriminate Hbody].
  cbn in Hbody.
  destruct (parse_timestamp_never_raises (name p)) as [o Ho]. rewrite Ho in Hbody.
  cbn in Hbody. destruct o as [ts|]; [|discriminate Hbody].
  apply bind_Raise_inv in Hbody as [Hbody|(rec' & _ & Hbody)]; [|discriminate Hbody].
  apply (convert_metrics_Raise_inv _ METRICS_convert_Raise) in Hbody
    as [->|[->|[-> Hover]]]; try discriminate Hcaught.
  split; [reflexivity|]. exists (PDict d). auto.
Qed.

Lemma load_single_file_Raise_cases_witness :
  ((fun _ : Path => @Ok pyval (PList [])) sample_path = Raise AttributeError /\
   existsb (issubclass AttributeError) [JSONDecodeError; KeyError; TypeError; OSError] = false) \/
  (AttributeError = AttributeError /\
   exists data, (fun _ : Path => Ok (PList [])) sample_path = Ok data /\
                forall d, data <> PDict d) \/
  (AttributeError = OverflowError /\
   exists data, (fun _ : Path => Ok (PList [])) sample_path = Ok data /\
                success_truthy data = true /\ overflowing data).
Proof.
  apply (load_single_file_Raise_cases (fun _ => Ok (PList [])) sample_path AttributeError).
  vm_compute. reflexivity.
Defined.

(** X5: what reading the file alone decides.  An exception of reading is
    swallowed (no record) when it is a [JSONDecodeError], [KeyError],
    [TypeError] or [OSError], and propagates otherwise; a document that
    is not an object raises [AttributeError]; an object without a truthy
    success field, without a result field, or in a file whose name has
    no decodable timestamp gives no record. *)
Theorem load_single_file_by_reading open_json p :
  match open_json p with
  | Raise e =>
      load_single_file open_json p
      = if existsb (issubclass e) [JSONDecodeError; KeyError; TypeError; OSError]
        then Ok None else Raise e
  | Ok (PDict d) =>
      success_truthy (PDict d) = false \/ dict_get d "result" = None \/
      parse_timestamp_from_filename (name p) = Ok None ->
      load_single_file open_json p = Ok None
  | Ok _ => load_single_file open_json p = Raise AttributeError
  end.
Proof.
  unfold load_single_file.
  destruct (open_json p) as [data|e]; [|reflexivity].
  destruct data; try reflexivity.
  cbn. unfold success_truthy.
  destruct (dict_get d "success") as [v|]; cbn.
  2:{ intros _. reflexivity. }
  destruct (truthy v); cbn; [|intros _; reflexivity].
  destruct (dict_get d "result"); cbn; [|intros _; reflexivity].
  intros [H|[H|H]]; try discriminate H.
  rewrite H. reflexivity.
Qed.

(** ** Parallel File Loader *)

(** An extracted record is not the empty dict: [if record:] keeps it. *)
Lemma load_single_file_nonempty open_json p rec :
  load_single_file open_json p = Ok (Some rec) -> rec <> [].
Proof.
  intros H ->. apply load_single_file_keeps_source in H. discriminate H.
Qed.

(** The loop over the finished tasks: when no task raised it keeps the
    records, in order, and skips the tasks without one. *)
Lemma collect_skips load paths :
  (forall p, In p paths -> exists o, load p = Ok o) ->
  (forall p rec, load p = Ok (Some rec) -> rec <> []) ->
  forall acc,
  collect (List.map load paths) acc = Ok (acc ++ omap (yields load) paths)%list.
Proof.
  intros Hok Hne. induction paths as [|p paths IH]; intros acc; cbn.
  - now rewrite app_nil_r.
  - destruct (Hok p (or_introl eq_refl)) as [o Ho]. unfold yields at 1. rewrite Ho. cbn.
    assert (IH' := IH (fun q Hq => Hok q (or_intror Hq))).
    destruct o as [rec|]; [|apply IH'].
    destruct rec as [|kv rec]; [now destruct (Hne p [] Ho)|].
    cbn. rewrite IH'. now rewrite <- app_assoc.
Qed.

(** A task that raised stops the loop with an exception. *)
Lemma collect_Raise (load : Path -> result (option record)) paths :
  forall acc (p : Path) e, In p paths -> load p = Raise e ->
  exists e', collect (List.map load paths) acc = Raise e'.
Proof.
  induction paths as [|q paths IH]; intros acc p e Hin Hp; [destruct Hin|].
  cbn. destruct (load q) as [o|e'] eqn:Hq; [|eauto].
  destruct Hin as [->|Hin]; [congruence|].
  cbn. destruct o as [[|kv rec]|]; cbn; eapply IH; eauto.
Qed.

(** The records of a loop that ended normally, and where they come from.
    *)
Lemma collect_Ok_inv (load : Path -> result (option record)) paths :
  (forall p rec, load p = Ok (Some rec) -> rec <> []) ->
  forall acc recs,
  collect (List.map load paths) acc = Ok recs ->
  recs = (acc ++ omap (yields load) paths)%list.
Proof.
  intros Hne. induction paths as [|p paths IH]; intros acc recs H; cbn in H.
  - injection H as <-. cbn. now rewrite app_nil_r.
  - cbn [omap list_omap]. unfold yields at 1.
    destruct (load p) as [o|e] eqn:Hp; [|discriminate H].
    cbn in H. destruct o as [rec|]; [|now apply IH].
    destruct rec as [|kv rec]; [now destruct (Hne p [] Hp)|].
    cbn in H. apply IH in H. now rewrite <- app_assoc in H.
Qed.

Lemma collect_from (load : Path -> result (option record)) paths :
  forall acc recs,
  collect (List.map load paths) acc = Ok recs ->
  forall rec, In rec recs -> In rec acc \/ exists p, load p = Ok (Some rec).
Proof.
  induction paths as [|p paths IH]; intros acc recs H rec Hrec; cbn in H.
  - injection H as <-. now left.
  - destruct (load p) as [o|e] eqn:Hp; [|discriminate H]. cbn in H.
    destruct o as [r|]; [|now apply (IH _ _ H)].
    destruct r as [|kv r]; cbn in H; [now apply (IH _ _ H)|].
    apply (IH _ _ H) in Hrec as [Hrec|Hrec]; [|now right].
    apply in_app_or in Hrec as [Hrec|[<-|[]]]; [now left | right; eauto].
Qed.

Lemma parallel_Ok_inv env fps w recs w1 :
  Permutation (as_completed env fps) fps ->
  _load_json_files_parallel env fps w = (Ok recs, w1) ->
  Permutation recs (omap (yields (load_single_file (open_json env))) fps).
Proof.
  intros Hperm H. unfold _load_json_files_parallel in H. destruct fps as [|p fps].
  - injection H as <- _. reflexivity.
  - injection H as H _. apply collect_Ok_inv in H.
    + cbn [app] in H. now rewrite H, Hperm.
    + intros q rec. apply load_single_file_nonempty.
Qed.

Lemma parallel_from env fps w recs w1 :
  _load_json_files_parallel env fps w = (Ok recs, w1) ->
  forall rec, In rec recs -> exists p, load_single_file (open_json env) p = Ok (Some rec).
Proof.
  unfold _load_json_files_parallel. destruct fps as [|p fps].
  - intros [= <- _] rec [].
  - intros [= H _] rec Hrec. apply (collect_from _ _ _ _ H) in Hrec as [[]|Hrec]. exact Hrec.
Qed.

(** The loader does not touch the parquet files, and its outcome does
    not depend on the world. *)
Lemma parallel_parquet_files env fps w :
  parquet_files (snd (_load_json_files_parallel env fps w)) = parquet_files w.
Proof. unfold _load_json_files_parallel. now destruct fps. Qed.

Lemma parallel_fst env fps w1 w2 :
  fst (_load_json_files_parallel env fps w1) = fst (_load_json_files_parallel env fps w2).
Proof. unfold _load_json_files_parallel. now destruct fps. Qed.

(** X6: the parallel loader, when every task finishes once.  If no file
    makes the extractor raise, the loader returns the records of the
    files that yield one, in the order of completion (a permutation of
    the records in submission order), skips the other files, and has
    invoked the extractor once on every path, the empty list included.
    If some file makes the extractor raise, the loader raises. *)
Theorem parallel_loader_skips_and_propagates env fps w :
  Permutation (as_completed env fps) fps ->
  let load := load_single_file (open_json env) in
  ((forall p, In p fps -> exists o, load p = Ok o) ->
   _load_json_files_parallel env fps w
   = (Ok (omap (yields load) (as_completed env fps)),
      {| parquet_files := parquet_files w;
         extractor_calls := (extractor_calls w ++ fps)%list |}) /\
   Permutation (omap (yields load) (as_completed env fps)) (omap (yields load) fps)) /\
  (forall p e, In p fps -> load p = Raise e ->
     exists e', fst (_load_json_files_parallel env fps w) = Raise e').
Proof.
  intros Hperm load. split.
  - intros Hok. split.
    + unfold _load_json_files_parallel. destruct fps as [|p fps].
      * apply Permutation_sym, Permutation_nil in Hperm. rewrite Hperm. cbn.
        destruct w. cbn. now rewrite app_nil_r.
      * f_equal. apply (collect_skips load _) with (acc := []).
        -- intros q Hq. apply Hok. now apply (Permutation_in _ Hperm).
        -- intros q rec. apply load_single_file_nonempty.
    + now rewrite Hperm.
  - intros p e Hin Hp. unfold _load_json_files_parallel.
    destruct fps as [|q fps]; [destruct Hin|]. cbn [fst].
    apply (collect_Raise load _ [] p e); [|exact Hp].
    apply Permutation_sym in Hperm. now apply (Permutation_in _ Hperm).
Qed.

Lemma parallel_loader_skips_and_propagates_witness :
  List.map (fun rec : record => dict_get rec "source_file")
    (match fst (_load_json_files_parallel env_sample
                  (List.map snd (glob_json_files env_sample)) no_parquet) with
     | Ok recs => recs
     | Raise _ => []
     end)
  = [ Some (PStr file_1001); Some (PStr file_1021); Some (PStr file_1000);
      Some (PStr file_1011) ].
Proof.
  destruct (parallel_loader_skips_and_propagates env_sample
              (List.map snd (glob_json_files env_sample)) no_parquet) as [Hok _].
  - cbn [as_completed env_sample]. apply Permutation_sym, Permutation_rev.
  - destruct Hok as [Hrun _].
    + intros p Hp. vm_compute in Hp.
      repeat (destruct Hp as [<-|Hp]; [eexists; vm_compute; reflexivity|]). destruct Hp.
    + rewrite Hrun. vm_compute. reflexivity.
Defined.

(** ** Cache Store: the path of the snapshot *)

(** [Path_eqb] decides equality of paths. *)
Lemma Path_eqb_eq p q : Path_eqb p q = true <-> p = q.
Proof.
  destruct p as [d n], q as [d' n']. unfold Path_eqb. cbn.
  rewrite andb_true_iff, !String.eqb_eq. split; [intros [-> ->]; reflexivity|].
  intros H. injection H as -> ->. auto.
Qed.

Lemma hex_digit_lower n : 0 <= n < 16 -> is_lower_hex (MD5.hex_digit n) = true.
Proof.
  intros H.
  assert (Hn : In n [0; 1; 2; 3; 4; 5; 6; 7; 8; 9; 10; 11; 12; 13; 14; 15]).
  { cbn. lia. }
  cbn [In] in Hn.
  repeat (destruct Hn as [<-|Hn]; [reflexivity|]). destruct Hn.
Qed.

Lemma hex_length bs : String.length (MD5.hex bs) = (2 * length bs)%nat.
Proof. induction bs as [|b bs IH]; cbn [MD5.hex String.length length]; lia. Qed.

Lemma le_bytes_length k x : length (MD5.le_bytes k x) = k.
Proof. revert x. induction k as [|k IH]; intros x; cbn; [reflexivity | now rewrite IH]. Qed.

Lemma le_bytes_range k : forall x, List.Forall (fun b => 0 <= b < 256) (MD5.le_bytes k x).
Proof.
  induction k as [|k IH]; intros x; cbn; constructor; [|apply IH].
  apply Z.mod_pos_bound. lia.
Qed.

Lemma hex_lower bs :
  List.Forall (fun b => 0 <= b < 256) bs ->
  forallb is_lower_hex (list_ascii_of_string (MD5.hex bs)) = true.
Proof.
  induction 1 as [|b bs Hb _ IH]; [reflexivity|].
  cbn [MD5.hex list_ascii_of_string forallb]. rewrite IH.
  rewrite !hex_digit_lower; [reflexivity | |].
  - apply Z.mod_pos_bound. lia.
  - split; [apply Z.div_pos; lia | apply Z.div_lt_upper_bound; lia].
Qed.

Lemma digest_bytes msg :
  length (MD5.digest msg) = 16%nat /\
  List.Forall (fun b => 0 <= b < 256) (MD5.digest msg).
Proof.
  unfold MD5.digest. cbv zeta.
  destruct (MD5.blocks _ MD5.init (MD5.pad msg)) as [[[a b] c] d].
  split.
  - rewrite !length_app, !le_bytes_length. reflexivity.
  - repeat (apply List.Forall_app; split); apply le_bytes_range.
Qed.

(** A prefix of a long enough string, and of a string of such
    characters. *)
Lemma str_prefix_length n s :
  (n <= String.length s)%nat -> String.length (str_prefix n s) = n.
Proof.
  revert s. induction n as [|n IH]; intros [|c s] H; cbn in *; try lia.
  rewrite IH; lia.
Qed.

Lemma str_prefix_forallb (f : ascii -> bool) n s :
  forallb f (list_ascii_of_string s) = true ->
  forallb f (list_ascii_of_string (str_prefix n s)) = true.
Proof.
  revert s. induction n as [|n IH]; intros [|c s] H; cbn in *; try reflexivity.
  apply andb_prop in H as [-> H]. now apply IH.
Qed.

(** X8: the cache file lies in the temp directory and its name is
    speedtest_cache_<h>.parquet with [h] twelve lowercase hexadecimal
    digits, whatever the data directory string is. *)
Theorem cache_path_shape tmp dir :
  exists h,
    _get_cache_path tmp dir
    = {| parent := tmp; name := "speedtest_cache_" +:+ h +:+ ".parquet" |} /\
    String.length h = 12%nat /\
    forallb is_lower_hex (list_ascii_of_string h) = true.
Proof.
  exists (str_prefix 12 (MD5.hexdigest (encode dir))).
  split; [reflexivity|].
  unfold MD5.hexdigest.
  destruct (digest_bytes (List.map (fun b => Z.of_N (Byte.to_N b)) (encode dir)))
    as [Hlen Hrange].
  split.
  - apply str_prefix_length. rewrite hex_length, Hlen. lia.
  - apply str_prefix_forallb. now apply hex_lower.
Qed.

(** ** Dataset Loader: the directory scan *)

(** The keys after setting a key. *)
Lemma dict_keys_set_old {V} (d : list (string * V)) k v :
  In k (dict_keys d) -> dict_keys (dict_set d k v) = dict_keys d.
Proof.
  unfold dict_keys. induction d as [|[k0 v0] d IH]; intros Hk; cbn; [destruct Hk|].
  destruct (String.eqb_spec k0 k) as [->|Hne]; [reflexivity|].
  cbn. f_equal. apply IH. destruct Hk as [Hk|Hk]; [contradiction | exact Hk].
Qed.

Lemma dict_keys_set {V} (d : list (string * V)) k v :
  dict_keys (dict_set d k v)
  = if List.existsb (String.eqb k) (dict_keys d) then dict_keys d
    else (dict_keys d ++ [k])%list.
Proof.
  destruct (List.existsb _ _) eqn:E.
  - apply dict_keys_set_old. apply List.existsb_exists in E as (x & Hx & Hk).
    apply String.eqb_eq in Hk. now subst.
  - apply dict_keys_set_new. intros Hin.
    assert (List.existsb (String.eqb k) (dict_keys d) = true); [|congruence].
    apply List.existsb_exists. exists k. split; [exact Hin | apply String.eqb_refl].
Qed.

(** The keys of the dict built by the scan: each name once, and no
    others. *)
Lemma scan_keys {V} (mk : string -> V) names :
  forall d,
  List.NoDup (dict_keys d) ->
  List.NoDup (dict_keys (fold_left (fun d n => dict_set d n (mk n)) names d)) /\
  (forall n, In n (dict_keys (fold_left (fun d n => dict_set d n (mk n)) names d))
             <-> In n (dict_keys d) \/ In n names).
Proof.
  induction names as [|x names IH]; intros d Hnd; cbn [fold_left].
  - split; [exact Hnd|]. intros n. cbn. tauto.
  - destruct (IH (dict_set d x (mk x))) as [Hnd' Hin'].
    + rewrite dict_keys_set. destruct (List.existsb _ _) eqn:E; [exact Hnd|].
      apply List.NoDup_app; [exact Hnd | repeat constructor; intros [] |].
      intros k Hk [->|[]].
      assert (List.existsb (String.eqb k) (dict_keys d) = true); [|congruence].
      apply List.existsb_exists. exists k. split; [exact Hk | apply String.eqb_refl].
    + split; [exact Hnd'|]. intros n. rewrite Hin', dict_keys_set.
      destruct (List.existsb _ _) eqn:E.
      * apply List.existsb_exists in E as (y & Hy & Hxy). apply String.eqb_eq in Hxy. subst y.
        cbn. split; [tauto|]. intros [H|[<-|H]]; auto.
      * rewrite in_app_iff. cbn. tauto.
Qed.

(** A name of the exact shape matches the glob pattern. *)
Lemma has_shape_glob_match n : has_shape n = true -> glob_match n = true.
Proof.
  intros H. pose proof (fits_length _ _ H) as Hlen. unfold has_shape, shape_template in H.
  do 39 (destruct n as [|? n]; [discriminate Hlen|]).
  destruct n; [|discriminate Hlen]. clear Hlen.
  repeat first [ apply fits_digit in H as [_ H]
               | apply fits_literal in H as [-> H]; [|reflexivity] ].
  vm_compute. reflexivity.
Qed.

Lemma glob_json_files_In env n p :
  In (n, p) (glob_json_files env) <->
  p = {| parent := DATA_DIR env; name := n |} /\ In n (listing env) /\ glob_match n = true.
Proof.
  split; [apply glob_json_files_spec|].
  intros (-> & Hn & Hm).
  assert (Hk : In n (dict_keys (glob_json_files env))).
  { unfold glob_json_files.
    apply (scan_keys (fun n => {| parent := DATA_DIR env; name := n |})); [constructor|].
    right. apply List.filter_In. auto. }
  unfold dict_keys in Hk. apply List.in_map_iff in Hk as ([n' p'] & Hn' & Hin).
  cbn in Hn'. subst n'.
  now rewrite (proj1 (glob_json_files_spec _ _ _ Hin)) in Hin.
Qed.

Lemma glob_json_files_keys_NoDup env : List.NoDup (dict_keys (glob_json_files env)).
Proof.
  unfold glob_json_files.
  apply (scan_keys (fun n => {| parent := DATA_DIR env; name := n |})). constructor.
Qed.

(** X9: the directory scan.  The files considered are exactly the names
    of the listing that match speedtest-*.json, each under its own name
    in the data directory and each once; every name of the exact
    measurement shape matches. *)
Theorem directory_scan env :
  (forall n p, In (n, p) (glob_json_files env) <->
     p = {| parent := DATA_DIR env; name := n |} /\
     In n (listing env) /\ glob_match n = true) /\
  List.NoDup (dict_keys (glob_json_files env)) /\
  (forall n, has_shape n = true -> glob_match n = true).
Proof.
  split; [|split].
  - apply glob_json_files_In.
  - apply glob_json_files_keys_NoDup.
  - apply has_shape_glob_match.
Qed.

(** Distinct names give distinct paths. *)
Lemma glob_json_files_paths_NoDup env (f : string * Path -> bool) :
  List.NoDup (List.map snd (List.filter f (glob_json_files env))).
Proof.
  apply List.NoDup_map_NoDup_ForallPairs.
  - intros [n p] [n' p'] Hx Hy Hsnd. cbn in Hsnd. subst p'.
    apply List.filter_In in Hx as [Hx _]. apply List.filter_In in Hy as [Hy _].
    apply glob_json_files_spec in Hx as (Hp & _). apply glob_json_files_spec in Hy as (Hp' & _).
    rewrite Hp in Hp'. now injection Hp' as ->.
  - apply List.NoDup_filter.
    apply (List.NoDup_map_inv fst). apply glob_json_files_keys_NoDup.
Qed.

(** The new files: the matching files that the snapshot does not name.
    *)
Lemma new_files_In env cells p :
  In p (List.map snd
          (List.filter (fun kv => bool_decide (fst kv ∉ source_files cells))
                       (glob_json_files env))) <->
  In (name p, p) (glob_json_files env) /\ ~ In (Some (PStr (name p))) cells.
Proof.
  rewrite List.in_map_iff. split.
  - intros ([n q] & Hq & Hin). cbn in Hq. subst q.
    apply List.filter_In in Hin as [Hin Hnew]. cbn in Hnew.
    apply bool_decide_eq_true in Hnew. rewrite elem_of_source_files in Hnew.
    pose proof (proj1 (glob_json_files_spec _ _ _ Hin)) as Hp.
    assert (Hname : name p = n) by now rewrite Hp.
    rewrite Hname. auto.
  - intros [Hin Hnew]. exists (name p, p). split; [reflexivity|].
    apply List.filter_In. split; [exact Hin|]. cbn.
    apply bool_decide_eq_true. now rewrite elem_of_source_files.
Qed.

(** ** Dataset Loader: the files a run parses *)

(** X10: the files a run parses.  Whatever the outcome of a run, the
    extractor is invoked on distinct matching files of the directory,
    none of which is named in the source_file column of a usable
    (readable, non-empty) snapshot.  When the directory exists and the
    run returns a dataset, every matching file is either parsed or named
    in that snapshot. *)
Theorem load_all_data_parses_new_files_only env w r w' :
  load_all_data env w = (r, w') ->
  exists fps,
    extractor_calls w' = (extractor_calls w ++ fps)%list /\
    List.NoDup fps /\
    (forall p, In p fps ->
       In (name p, p) (glob_json_files env) /\
       forall snapshot, usable_snapshot env w = Some snapshot ->
                        ~ named_in snapshot (name p)) /\
    (dir_exists env = true -> (exists df, r = Ok df) ->
     forall n p, In (n, p) (glob_json_files env) ->
       In p fps \/
       exists snapshot, usable_snapshot env w = Some snapshot /\ named_in snapshot n).
Proof.
  intros H. unfold load_all_data in H. cbv zeta in H.
  assert (Hnone : forall v, v = w' -> extractor_calls v = extractor_calls w ->
    (dir_exists env = true -> (exists df, r = Ok df) ->
     forall n p, In (n, p) (glob_json_files env) ->
       In p [] \/
       exists snapshot, usable_snapshot env w = Some snapshot /\ named_in snapshot n) ->
    exists fps,
    extractor_calls w' = (extractor_calls w ++ fps)%list /\
    List.NoDup fps /\
    (forall p, In p fps ->
       In (name p, p) (glob_json_files env) /\
       forall snapshot, usable_snapshot env w = Some snapshot ->
                        ~ named_in snapshot (name p)) /\
    (dir_exists env = true -> (exists df, r = Ok df) ->
     forall n p, In (n, p) (glob_json_files env) ->
       In p fps \/
       exists snapshot, usable_snapshot env w = Some snapshot /\ named_in snapshot n)).
  { intros v <- Hcalls Hcomplete. exists []. rewrite app_nil_r.
    split; [exact Hcalls|]. split; [constructor|]. split; [intros p []|exact Hcomplete]. }
  destruct (dir_exists env) eqn:Hdir; cbn [negb] in H.
  2:{ injection H as <- <-. apply (Hnone w); [reflexivity..|]. discriminate. }
  destruct (glob_json_files env) as [|file files] eqn:Hglob.
  { injection H as <- <-. apply (Hnone w); [reflexivity..|]. intros _ _ n p []. }
  rewrite <- Hglob in *. clear file files Hglob.
  fold (usable_snapshot env w) in H.
  destruct (usable_snapshot env w) as [cdf|] eqn:Husable.
  - unfold series in H. destruct (has_column cdf "source_file") eqn:Hcol.
    2:{ injection H as <- <-. apply (Hnone w); [reflexivity..|].
        intros _ [df Hdf]. discriminate Hdf. }
    set (new_files := List.map snd _) in H.
    assert (Hnew : forall p, In p new_files <->
              In (name p, p) (glob_json_files env) /\ ~ named_in cdf (name p)).
    { intros p. apply new_files_In. }
    assert (Hcalls : extractor_calls w' = (extractor_calls w ++ new_files)%list).
    { destruct new_files as [|nf nfs] eqn:E.
      - injection H as _ <-. now rewrite app_nil_r.
      - rewrite <- E in *.
        destruct (_load_json_files_parallel env new_files w) as [[recs|e] w1] eqn:Hpar.
        + apply sort_and_save_calls in H. rewrite H. now apply parallel_calls in Hpar.
        + injection H as _ <-. now apply parallel_calls in Hpar. }
    exists new_files. split; [exact Hcalls|]. split; [apply glob_json_files_paths_NoDup|].
    split.
    + intros p Hp. apply Hnew in Hp as [Hin Hn]. split; [exact Hin|].
      intros snapshot [= <-]. exact Hn.
    + intros _ _ n p Hin.
      destruct (decide (n ∈ source_files
                              (List.map (fun r => r !! "source_file") (rows cdf))))
        as [Hnamed|Hnot]; rewrite elem_of_source_files in *.
      * right. eauto.
      * left. apply Hnew. pose proof (proj1 (glob_json_files_spec _ _ _ Hin)) as Hp.
        assert (Hname : name p = n) by now rewrite Hp.
        rewrite Hname. auto.
  - exists (List.map snd (glob_json_files env)).
    assert (Hcalls : extractor_calls w'
                     = (extractor_calls w ++ List.map snd (glob_json_files env))%list).
    { destruct (_load_json_files_parallel env _ w) as [[recs|e] w1] eqn:Hpar.
      - destruct recs as [|rec recs].
        + injection H as _ <-. now apply parallel_calls in Hpar.
        + apply sort_and_save_calls in H. rewrite H. now apply parallel_calls in Hpar.
      - injection H as _ <-. now apply parallel_calls in Hpar. }
    split; [exact Hcalls|]. split.
    { rewrite <- (List.filter_true (glob_json_files env)) at 1.
      apply (glob_json_files_paths_NoDup env (fun _ => true)). }
    split.
    + intros p Hp. apply List.in_map_iff in Hp as ([n q] & Hq & Hin). cbn in Hq. subst q.
      pose proof (proj1 (glob_json_files_spec _ _ _ Hin)) as Hp.
      assert (Hname : name p = n) by now rewrite Hp.
      rewrite Hname. split; [exact Hin | discriminate].
    + intros _ _ n p Hin. left. apply List.in_map_iff. now exists (n, p).
Qed.

Lemma load_all_data_parses_new_files_only_witness :
  exists fps,
    extractor_calls (snd (load_all_data env_sample (snd (load_all_data env_sample no_parquet))))
    = (extractor_calls (snd (load_all_data env_sample no_parquet)) ++ fps)%list /\
    List.NoDup fps /\
    forall p, In p fps -> In (name p, p) (glob_json_files env_sample).
Proof.
  destruct (load_all_data_parses_new_files_only env_sample
              (snd (load_all_data env_sample no_parquet)) _ _ (surjective_pairing _))
    as (fps & Hcalls & Hnd & Hsound & _).
  exists fps. split; [exact Hcalls|]. split; [exact Hnd|].
  intros p Hp. exact (proj1 (Hsound p Hp)).
Defined.

(** ** Dataset Loader: the cache file *)

(** The tail of a run returns the same frame whether or not it can write
    the snapshot. *)
Lemma sort_and_save_writable b env cache_path df w :
  fst (sort_and_save (with_parquet_writable b env) cache_path df w)
  = fst (sort_and_save env cache_path df w).
Proof. unfold sort_and_save. now destruct (sort_values df "timestamp"). Qed.

Lemma sort_and_save_unwritable env cache_path df w :
  parquet_writable env = false ->
  parquet_files (snd (sort_and_save env cache_path df w)) = parquet_files w.
Proof.
  intros Hw. unfold sort_and_save, _save_cache. rewrite Hw.
  now destruct (sort_values df "timestamp").
Qed.

(** X11: a failing cache write is not fatal.  The outcome of a run (the
    dataset or the exception) and the extractor calls are the same
    whether or not the snapshot can be written; when it cannot, the
    parquet files are left as they were. *)
Theorem load_all_data_ignores_cache_write_failure b env w :
  fst (load_all_data (with_parquet_writable b env) w) = fst (load_all_data env w) /\
  extractor_calls (snd (load_all_data (with_parquet_writable b env) w))
  = extractor_calls (snd (load_all_data env w)) /\
  (parquet_writable env = false ->
   parquet_files (snd (load_all_data env w)) = parquet_files w).
Proof.
  unfold load_all_data. cbv zeta.
  change (glob_json_files (with_parquet_writable b env)) with (glob_json_files env).
  change (dir_exists (with_parquet_writable b env)) with (dir_exists env).
  change (tempdir (with_parquet_writable b env)) with (tempdir env).
  change (DATA_DIR (with_parquet_writable b env)) with (DATA_DIR env).
  destruct (negb (dir_exists env)); [auto|].
  destruct (glob_json_files env) as [|file files]; [auto|].
  set (all_files := file :: files).
  destruct (match _load_cache _ w with Some _ => _ | None => _ end) as [cdf|].
  - destruct (series cdf "source_file") as [cells|e]; [|auto].
    destruct (List.map snd _) as [|nf nfs]; [auto|].
    change (_load_json_files_parallel (with_parquet_writable b env))
      with (_load_json_files_parallel env).
    pose proof (parallel_parquet_files env (nf :: nfs) w) as Hfiles.
    destruct (_load_json_files_parallel env (nf :: nfs) w) as [[recs|e] w1]; [|auto].
    cbn [snd] in Hfiles.
    split; [apply sort_and_save_writable|]. split.
    + rewrite !(sort_and_save_calls _ _ _ _ _ _ (surjective_pairing _)). reflexivity.
    + intros Hw. now rewrite sort_and_save_unwritable.
  - change (_load_json_files_parallel (with_parquet_writable b env))
      with (_load_json_files_parallel env).
    pose proof (parallel_parquet_files env (List.map snd all_files) w) as Hfiles.
    destruct (_load_json_files_parallel env (List.map snd all_files) w) as [[recs|e] w1];
      [|auto].
    cbn [snd] in Hfiles.
    destruct recs as [|rec recs]; [auto|].
    split; [apply sort_and_save_writable|]. split.
    + rewrite !(sort_and_save_calls _ _ _ _ _ _ (surjective_pairing _)). reflexivity.
    + intros Hw. now rewrite sort_and_save_unwritable.
Qed.

(** The tail of a run returns the same frame in every world. *)
Lemma sort_and_save_fst env cache_path df w1 w2 :
  fst (sort_and_save env cache_path df w1) = fst (sort_and_save env cache_path df w2).
Proof. unfold sort_and_save. now destruct (sort_values df "timestamp"). Qed.

(** X12: the cache file matters through its usable snapshot only.  Two
    worlds with the same usable snapshot give the same outcome; in
    particular an unreadable or empty cache file gives what a missing
    one gives. *)
Theorem unusable_snapshot_is_no_snapshot env w1 w2 :
  usable_snapshot env w1 = usable_snapshot env w2 ->
  fst (load_all_data env w1) = fst (load_all_data env w2).
Proof.
  intros Hsnap. unfold load_all_data. cbv zeta.
  destruct (negb (dir_exists env)); [reflexivity|].
  destruct (glob_json_files env) as [|file files]; [reflexivity|].
  fold (usable_snapshot env w1). fold (usable_snapshot env w2). rewrite Hsnap.
  destruct (usable_snapshot env w2) as [cdf|].
  - destruct (series cdf "source_file") as [cells|e]; [|reflexivity].
    destruct (List.map snd _) as [|nf nfs]; [reflexivity|].
    pose proof (parallel_fst env (nf :: nfs) w1 w2) as Hpar.
    destruct (_load_json_files_parallel env (nf :: nfs) w1) as [r1 w1'].
    destruct (_load_json_files_parallel env (nf :: nfs) w2) as [r2 w2'].
    cbn [fst] in Hpar. subst r2. destruct r1 as [recs|e]; [|reflexivity].
    apply sort_and_save_fst.
  - pose proof (parallel_fst env (List.map snd (file :: files)) w1 w2) as Hpar.
    destruct (_load_json_files_parallel env _ w1) as [r1 w1'].
    destruct (_load_json_files_parallel env _ w2) as [r2 w2'].
    cbn [fst] in Hpar. subst r2. destruct r1 as [[|rec recs]|e]; try reflexivity.
    apply sort_and_save_fst.
Qed.

Lemma unusable_snapshot_is_no_snapshot_witness :
  fst (load_all_data env_sample broken_cache) = fst (load_all_data env_sample no_parquet).
Proof. apply unusable_snapshot_is_no_snapshot. reflexivity. Defined.



(** ** Dataset Loader: the rows of the dataset *)

(** The tail of a run returns the rows it is given, without their
    source_file cell. *)
Lemma sort_and_save_rows env cache_path df w out w' :
  sort_and_save env cache_path df w = (Ok out, w') ->
  Permutation (rows out) (List.map (delete "source_file") (rows df)).
Proof.
  unfold sort_and_save. destruct (sort_values df "timestamp") as [s|e] eqn:Hs;
    [|discriminate].
  intros [= Hd _]. apply sort_values_Ok_inv in Hs as (_ & _ & ->).
  apply drop_columns_Ok_inv in Hd as (_ & ->). cbn [rows].
  apply Permutation_map. apply sort_by_perm.
Qed.

(** The usable snapshot depends on the parquet files only. *)
Lemma usable_snapshot_ext env w1 w2 :
  parquet_files w1 = parquet_files w2 -> usable_snapshot env w1 = usable_snapshot env w2.
Proof. intros H. unfold usable_snapshot, _load_cache. now rewrite H. Qed.

(** The snapshot that the tail of a run leaves behind: the old one, or
    the rows it is given. *)
Lemma sort_and_save_snapshot env df0 w w1 out w' :
  sort_and_save env (_get_cache_path (tempdir env) (DATA_DIR env)) df0 w1 = (Ok out, w') ->
  parquet_files w1 = parquet_files w ->
  forall snapshot, usable_snapshot env w' = Some snapshot ->
    usable_snapshot env w = Some snapshot \/ Permutation (rows snapshot) (rows df0).
Proof.
  unfold sort_and_save. destruct (sort_values df0 "timestamp") as [s|e] eqn:Hs;
    [|discriminate].
  intros [= _ <-] Hfiles snapshot. apply sort_values_Ok_inv in Hs as (_ & _ & ->).
  unfold _save_cache. destruct (parquet_writable env).
  - unfold usable_snapshot, _load_cache. cbn [parquet_files].
    rewrite (proj2 (Path_eqb_eq _ _) eq_refl).
    destruct (df_empty _); [discriminate|]. intros [= <-]. right. cbn [rows].
    apply sort_by_perm.
  - rewrite (usable_snapshot_ext env w1 w Hfiles). now left.
Qed.

(** What a run that returns a dataset did. *)

(** What a run that returns a dataset did: the files it parsed, the rows
    it returned and the snapshot it left behind. *)
Lemma run_summary env w df w' :
  dir_exists env = true ->
  glob_json_files env <> [] ->
  (forall l, Permutation (as_completed env l) l) ->
  load_all_data env w = (Ok df, w') ->
  let new_rows :=
    List.map row_of_record
      (omap (yields (load_single_file (open_json env))) (parsed_files env w)) in
  extractor_calls w' = (extractor_calls w ++ parsed_files env w)%list /\
  Permutation (rows df)
    (List.map (delete "source_file") (snapshot_rows env w ++ new_rows)) /\
  (forall snapshot, usable_snapshot env w' = Some snapshot ->
     usable_snapshot env w = Some snapshot \/
     Permutation (rows snapshot) (snapshot_rows env w ++ new_rows)).
Proof.
  intros Hdir Hglob Hperm H. cbv zeta. unfold load_all_data in H. cbv zeta in H.
  rewrite Hdir in H. cbn [negb] in H.
  destruct (glob_json_files env) as [|file files] eqn:Hfiles; [congruence|].
  rewrite <- Hfiles in *. clear file files Hfiles.
  unfold snapshot_rows, parsed_files in *. fold (usable_snapshot env w) in H.
  destruct (usable_snapshot env w) as [cdf|] eqn:Husable.
  - destruct (series cdf "source_file") as [cells|e] eqn:Hseries; [|discriminate H].
    unfold series in Hseries. destruct (has_column cdf "source_file"); [|discriminate].
    injection Hseries as <-.
    set (new_files := List.map snd _) in *.
    destruct new_files as [|nf nfs] eqn:Hnew.
    + injection H as H <-. cbn [omap list_omap List.map].
      rewrite !app_nil_r. split; [reflexivity|].
      split; [|intros snapshot Hsnapshot; left; congruence].
      bind_inv H as d Hd. apply drop_columns_Ok_inv in Hd as (_ & ->).
      apply sort_values_Ok_inv in H as (_ & _ & ->). cbn [rows].
      apply sort_by_perm.
    + rewrite <- Hnew in *. clear Hnew nf nfs.
      pose proof (parallel_parquet_files env new_files w) as Hsame.
      destruct (_load_json_files_parallel env new_files w) as [[recs|e] w1] eqn:Hpar;
        [|discriminate H].
      cbn [snd] in Hsame.
      pose proof (parallel_calls _ _ _ _ _ Hpar) as Hcalls.
      apply parallel_Ok_inv in Hpar; [|apply Hperm].
      assert (Hrows : Permutation
                (rows match recs with
                      | [] => cdf
                      | _ :: _ => concat cdf (DataFrame_of_records recs)
                      end)
                (rows cdf ++ List.map row_of_record
                               (omap (yields (load_single_file (open_json env)))
                                     new_files))).
      { rewrite <- Hpar.
        destruct recs; cbn [rows concat DataFrame_of_records List.map];
          [now rewrite app_nil_r | reflexivity]. }
      split; [now rewrite (sort_and_save_calls _ _ _ _ _ _ H)|]. split.
      * rewrite (sort_and_save_rows _ _ _ _ _ _ H). now apply Permutation_map.
      * intros snapshot Hsnapshot.
        destruct (sort_and_save_snapshot _ _ _ _ _ _ H Hsame snapshot Hsnapshot)
          as [Hold|Hnew]; [left; congruence | right].
        now rewrite Hnew.
  - pose proof (parallel_parquet_files env (List.map snd (glob_json_files env)) w) as Hsame.
    destruct (_load_json_files_parallel env _ w) as [[recs|e] w1] eqn:Hpar;
      [|discriminate H].
    cbn [snd] in Hsame.
    pose proof (parallel_calls _ _ _ _ _ Hpar) as Hcalls.
    apply parallel_Ok_inv in Hpar; [|apply Hperm].
    cbn [app]. rewrite <- Hpar. destruct recs as [|rec recs].
    + injection H as <- <-. split; [exact Hcalls|]. split; [reflexivity|].
      intros snapshot Hsnapshot. left.
      rewrite (usable_snapshot_ext env w1 w Hsame) in Hsnapshot. congruence.
    + split; [now rewrite (sort_and_save_calls _ _ _ _ _ _ H)|]. split.
      * exact (sort_and_save_rows _ _ _ _ _ _ H).
      * intros snapshot Hsnapshot.
        destruct (sort_and_save_snapshot _ _ _ _ _ _ H Hsame snapshot Hsnapshot)
          as [Hold|Hnew]; [left; congruence | right].
        rewrite Hnew. cbn [rows DataFrame_of_records]. now apply Permutation_map.
Qed.

(** X14: the rows of the dataset.  When the directory exists and has a
    matching file and every pool task finishes once, the rows a run
    returns are, up to their order and without their source_file cell,
    the rows of the usable snapshot and one row per record of the files
    parsed in this run; their number is the sum of the two.  No snapshot
    row is dropped, also when its file is gone from the directory. *)
Theorem load_all_data_rows env w df w' :
  dir_exists env = true ->
  glob_json_files env <> [] ->
  (forall l, Permutation (as_completed env l) l) ->
  load_all_data env w = (Ok df, w') ->
  exists fps,
    extractor_calls w' = (extractor_calls w ++ fps)%list /\
    Permutation (rows df)
      (List.map (delete "source_file")
         (snapshot_rows env w ++
          List.map row_of_record
            (omap (yields (load_single_file (open_json env))) fps))) /\
    length (rows df)
    = (length (snapshot_rows env w)
       + length (omap (yields (load_single_file (open_json env))) fps))%nat.
Proof.
  intros Hdir Hglob Hperm H.
  destruct (run_summary env w df w' Hdir Hglob Hperm H) as (Hcalls & Hrows & _).
  exists (parsed_files env w). split; [exact Hcalls|]. split; [exact Hrows|].
  rewrite (Permutation_length Hrows), length_map, length_app, length_map. reflexivity.
Qed.

Lemma load_all_data_rows_witness :
  exists fps,
    extractor_calls (snd (load_all_data env_sample no_parquet)) = ([] ++ fps)%list /\
    Permutation (rows sample_dataset)
      (List.map (delete "source_file")
         (snapshot_rows env_sample no_parquet ++
          List.map row_of_record
            (omap (yields (load_single_file (open_json env_sample))) fps))) /\
    length (rows sample_dataset)
    = (length (snapshot_rows env_sample no_parquet)
       + length (omap (yields (load_single_file (open_json env_sample))) fps))%nat.
Proof.
  apply (load_all_data_rows env_sample no_parquet sample_dataset
           (snd (load_all_data env_sample no_parquet))).
  - reflexivity.
  - vm_compute. discriminate.
  - intros l. cbn [as_completed env_sample]. apply Permutation_sym, Permutation_rev.
  - rewrite <- load_all_data_sample. apply surjective_pairing.
Defined.

(** The row of an extracted record holds its timestamp. *)
Lemma record_row_has_timestamp open_json p rec :
  load_single_file open_json p = Ok (Some rec) -> has_timestamp (row_of_record rec).
Proof.
  intros H. apply load_single_file_Some_inv in H as (d & v & ts & _ & _ & _ & _ & Hrec).
  pose proof (convert_metrics_spec _ METRICS_keys_NoDup _ _ _ Hrec "timestamp") as Hts.
  cbn in Hts. exists (to_timestamp ts). rewrite lookup_row_of_record, Hts. reflexivity.
Qed.

Lemma has_timestamp_delete r : has_timestamp r -> has_timestamp (delete "source_file" r).
Proof. intros [t Ht]. exists t. now rewrite lookup_delete_ne. Qed.

(** The tail of a run keeps the timestamps, in the frame it returns and
    in the snapshot it writes. *)
Lemma sort_and_save_timestamps env cache_path df w out w' :
  sort_and_save env cache_path df w = (Ok out, w') ->
  List.Forall has_timestamp (rows df) ->
  List.Forall has_timestamp (rows out) /\
  (parquet_files w' = parquet_files w \/
   exists snapshot,
     (forall p, parquet_files w' p
                = if Path_eqb p cache_path then Snapshot snapshot else parquet_files w p) /\
     List.Forall has_timestamp (rows snapshot)).
Proof.
  unfold sort_and_save. destruct (sort_values df "timestamp") as [s|e] eqn:Hs;
    [|discriminate].
  intros [= Hd <-] Hrows. apply sort_values_Ok_inv in Hs as (_ & _ & ->).
  apply drop_columns_Ok_inv in Hd as (_ & ->). cbn [rows].
  assert (Hsorted : List.Forall has_timestamp
            (sort_by (fun r1 r2 => key_leb (ts_key "timestamp" r1) (ts_key "timestamp" r2))
                     (rows df))).
  { eapply Permutation_Forall; [|exact Hrows]. apply Permutation_sym, sort_by_perm. }
  split.
  - apply List.Forall_forall. intros r Hr. apply List.in_map_iff in Hr as (r0 & <- & Hr0).
    apply has_timestamp_delete. rewrite List.Forall_forall in Hsorted. now apply Hsorted.
  - unfold _save_cache. destruct (parquet_writable env); [|now left].
    right. eexists. split; [intros p; reflexivity|]. exact Hsorted.
Qed.

Lemma snapshot_rows_ext env w1 w2 :
  parquet_files w1 = parquet_files w2 -> snapshot_rows env w1 = snapshot_rows env w2.
Proof.
  intros H. unfold snapshot_rows, usable_snapshot, _load_cache. now rewrite H.
Qed.

(** X15: every row has a timestamp.  If every row of the usable snapshot
    holds a timestamp, so does every row of the dataset a run returns
    and every row of the usable snapshot it leaves behind. *)
Theorem loaded_rows_have_timestamps env w df w' :
  List.Forall has_timestamp (snapshot_rows env w) ->
  load_all_data env w = (Ok df, w') ->
  List.Forall has_timestamp (rows df) /\
  List.Forall has_timestamp (snapshot_rows env w').
Proof.
  intros Hsnap H. unfold load_all_data in H. cbv zeta in H.
  destruct (negb (dir_exists env)).
  { injection H as <- <-. split; [constructor | exact Hsnap]. }
  destruct (glob_json_files env) as [|file files].
  { injection H as <- <-. split; [constructor | exact Hsnap]. }
  set (all_files := file :: files) in *.
  assert (Hsave : forall df0 w1,
            parquet_files w1 = parquet_files w ->
            sort_and_save env (_get_cache_path (tempdir env) (DATA_DIR env)) df0 w1
            = (Ok df, w') ->
            List.Forall has_timestamp (rows df0) ->
            List.Forall has_timestamp (rows df) /\
            List.Forall has_timestamp (snapshot_rows env w')).
  { intros df0 w1 Hfiles Hrun Hrows.
    destruct (sort_and_save_timestamps _ _ _ _ _ _ Hrun Hrows) as [Hout Hw'].
    split; [exact Hout|].
    destruct Hw' as [Hsame|(snapshot & Hnew & Hsnapshot)].
    - rewrite (snapshot_rows_ext env w' w); [exact Hsnap | congruence].
    - unfold snapshot_rows, usable_snapshot, _load_cache.
      rewrite Hnew, (proj2 (Path_eqb_eq _ _) eq_refl).
      destruct (df_empty snapshot); [constructor | exact Hsnapshot]. }
  unfold snapshot_rows in Hsnap. fold (usable_snapshot env w) in H.
  destruct (usable_snapshot env w) as [cdf|] eqn:Husable.
  - destruct (series cdf "source_file") as [cells|e]; [|discriminate H].
    destruct (List.map snd _) as [|nf nfs].
    + injection H as H <-. split.
      * bind_inv H as d Hd. apply drop_columns_Ok_inv in Hd as (_ & ->).
        apply sort_values_Ok_inv in H as (_ & _ & ->). cbn [rows].
        eapply Permutation_Forall; [apply Permutation_sym, sort_by_perm|].
        apply List.Forall_forall. intros r Hr.
        apply List.in_map_iff in Hr as (r0 & <- & Hr0).
        apply has_timestamp_delete. rewrite List.Forall_forall in Hsnap. now apply Hsnap.
      * unfold snapshot_rows. now rewrite Husable.
    + pose proof (parallel_parquet_files env (nf :: nfs) w) as Hfiles.
      destruct (_load_json_files_parallel env (nf :: nfs) w) as [[recs|e] w1] eqn:Hpar;
        [|discriminate H].
      cbn [snd] in Hfiles. apply (Hsave _ _ Hfiles H).
      pose proof (parallel_from _ _ _ _ _ Hpar) as Hfrom.
      destruct recs as [|rec recs]; [exact Hsnap|].
      cbn [rows concat DataFrame_of_records]. apply List.Forall_app. split; [exact Hsnap|].
      apply List.Forall_forall. intros r Hr.
      apply List.in_map_iff in Hr as (rec0 & <- & Hrec0).
      destruct (Hfrom rec0 Hrec0) as [p Hp]. exact (record_row_has_timestamp _ _ _ Hp).
  - pose proof (parallel_parquet_files env (List.map snd all_files) w) as Hfiles.
    destruct (_load_json_files_parallel env (List.map snd all_files) w)
      as [[recs|e] w1] eqn:Hpar; [|discriminate H].
    cbn [snd] in Hfiles.
    pose proof (parallel_from _ _ _ _ _ Hpar) as Hfrom.
    destruct recs as [|rec recs].
    + injection H as <- <-. split; [constructor|].
      rewrite (snapshot_rows_ext env w1 w Hfiles). unfold snapshot_rows.
      now rewrite Husable.
    + apply (Hsave _ _ Hfiles H). cbn [rows DataFrame_of_records].
      apply List.Forall_forall. intros r Hr.
      apply List.in_map_iff in Hr as (rec0 & <- & Hrec0).
      destruct (Hfrom rec0 Hrec0) as [p Hp]. exact (record_row_has_timestamp _ _ _ Hp).
Qed.

Lemma loaded_rows_have_timestamps_witness :
  List.Forall has_timestamp (rows sample_dataset) /\
  List.Forall has_timestamp
    (snapshot_rows env_sample (snd (load_all_data env_sample no_parquet))).
Proof.
  apply (loaded_rows_have_timestamps env_sample no_parquet).
  - constructor.
  - rewrite <- load_all_data_sample. apply surjective_pairing.
Defined.

(** The columns of a frame built from records: every key of every
    record. *)
Lemma add_new_keeps cols ks c : In c cols -> In c (add_new cols ks).
Proof.
  unfold add_new. revert cols. induction ks as [|k ks IH]; intros cols H; cbn; [exact H|].
  apply IH. destruct (existsb (String.eqb k) cols); [exact H|].
  apply in_or_app. now left.
Qed.

Lemma add_new_adds cols ks c : In c ks -> In c (add_new cols ks).
Proof.
  unfold add_new. revert cols. induction ks as [|k ks IH]; intros cols H; [destruct H|].
  cbn. destruct H as [->|H]; [|now apply IH].
  apply (add_new_keeps _ ks). destruct (existsb (String.eqb c) cols) eqn:E.
  - apply List.existsb_exists in E as (x & Hx & Hc). apply String.eqb_eq in Hc. now subst.
  - apply in_or_app. right. now left.
Qed.

Lemma has_column_In df c : has_column df c = true <-> In c (columns df).
Proof.
  unfold has_column. rewrite List.existsb_exists. split.
  - intros (x & Hx & Hc). apply String.eqb_eq in Hc. now subst.
  - intros H. exists c. split; [exact H | apply String.eqb_refl].
Qed.

Lemma DataFrame_of_records_columns recs rec c :
  In rec recs -> In c (dict_keys rec) -> In c (columns (DataFrame_of_records recs)).
Proof.
  unfold DataFrame_of_records. cbn [columns]. generalize (@nil string) as cols.
  induction recs as [|r recs IH]; intros cols Hrec Hc; [destruct Hrec|].
  cbn [fold_left]. destruct Hrec as [->|Hrec]; [|now apply IH].
  clear IH. generalize (add_new_adds cols _ c Hc). generalize (add_new cols (dict_keys rec)).
  induction recs as [|r recs IH]; intros cols' H; cbn; [exact H|].
  apply IH. now apply add_new_keeps.
Qed.







(** ** Dataset Loader: the cache is transparent *)

(** A missing directory or a directory without a matching file: the
    empty frame. *)
Lemma load_all_data_nothing env w :
  dir_exists env = false \/ glob_json_files env = [] ->
  load_all_data env w = (Ok pd_DataFrame, w).
Proof.
  intros H. unfold load_all_data. cbv zeta.
  destruct (dir_exists env); [|reflexivity]. cbn [negb].
  destruct H as [H|H]; [discriminate H|]. now rewrite H.
Qed.

(** The files of the scan are keyed by their own name. *)
Lemma glob_path_name env n p : In (n, p) (glob_json_files env) -> name p = n.
Proof. intros H. apply glob_json_files_spec in H as (-> & _). reflexivity. Qed.

Lemma glob_paths_In env p :
  In p (List.map snd (glob_json_files env)) <-> In (name p, p) (glob_json_files env).
Proof.
  rewrite List.in_map_iff. split.
  - intros ([n q] & Hq & Hin). cbn in Hq. subst q.
    now rewrite (glob_path_name _ _ _ Hin).
  - intros H. now exists (name p, p).
Qed.

(** A file of the directory is named in a snapshot of records exactly
    when it is one of the files of the snapshot. *)
Lemma named_in_snapshot_of env snapshot fs :
  snapshot_of env snapshot fs ->
  forall p, In (name p, p) (glob_json_files env) ->
  named_in snapshot (name p) <-> In p fs.
Proof.
  intros (_ & Hfs & Hrows) p Hp. unfold named_in.
  assert (Hcells : forall cell,
            In cell (List.map (fun r => r !! "source_file") (rows snapshot)) <->
            In cell (List.map (fun r => r !! "source_file")
                       (List.map row_of_record
                          (omap (yields (load_single_file (open_json env))) fs)))).
  { intros cell. split; apply Permutation_in; apply Permutation_map;
      [exact Hrows | now apply Permutation_sym]. }
  rewrite Hcells, List.map_map, List.in_map_iff. split.
  - intros (rec & Hcell & Hrec). apply list_elem_of_In, list_elem_of_omap in Hrec.
    destruct Hrec as (q & Hq & Hyield). apply list_elem_of_In in Hq.
    unfold yields in Hyield.
    destruct (load_single_file (open_json env) q) as [[rec'|]|] eqn:Hload;
      try discriminate Hyield.
    injection Hyield as ->.
    rewrite lookup_row_of_record, (load_single_file_keeps_source _ _ _ Hload) in Hcell.
    injection Hcell as Hname.
    destruct (Hfs q Hq) as [Hglob _].
    apply glob_json_files_spec in Hglob as (Hq' & _).
    apply glob_json_files_spec in Hp as (Hp' & _).
    rewrite Hname in Hq'. rewrite Hp', <- Hq'. exact Hq.
  - intros Hin. destruct (Hfs p Hin) as [_ [rec Hload]]. exists rec. split.
    + now rewrite lookup_row_of_record, (load_single_file_keeps_source _ _ _ Hload).
    + apply list_elem_of_In, list_elem_of_omap. exists p.
      split; [now apply list_elem_of_In|]. unfold yields. now rewrite Hload.
Qed.

(** The files a run parses: distinct matching files that the usable
    snapshot does not name. *)
Lemma parsed_files_NoDup env w : List.NoDup (parsed_files env w).
Proof.
  unfold parsed_files. destruct (usable_snapshot env w).
  - apply glob_json_files_paths_NoDup.
  - rewrite <- (List.filter_true (glob_json_files env)).
    apply (glob_json_files_paths_NoDup env (fun _ => true)).
Qed.

Lemma parsed_files_In env w p :
  In p (parsed_files env w) <->
  In (name p, p) (glob_json_files env) /\
  forall snapshot, usable_snapshot env w = Some snapshot -> ~ named_in snapshot (name p).
Proof.
  unfold parsed_files. destruct (usable_snapshot env w) as [cdf|].
  - rewrite new_files_In. split.
    + intros [Hin Hn]. split; [exact Hin|]. now intros snapshot [= <-].
    + intros [Hin Hn]. split; [exact Hin|]. now apply Hn.
  - rewrite glob_paths_In. split; [|tauto]. intros H. split; [exact H | discriminate].
Qed.

Lemma Path_In_dec (p : Path) fs : In p fs \/ ~ In p fs.
Proof.
  induction fs as [|q fs IH]; [now right|].
  destruct (Path_eqb q p) eqn:E.
  - apply Path_eqb_eq in E. left. now left.
  - destruct IH as [IH|IH]; [left; now right | right].
    intros [Hq|Hin]; [|contradiction].
    apply Path_eqb_eq in Hq. congruence.
Qed.

(** The matching files are the files of the snapshot together with the
    files that the run parses. *)
Lemma all_files_split env w fs :
  (forall snapshot, usable_snapshot env w = Some snapshot -> snapshot_of env snapshot fs) ->
  (usable_snapshot env w = None -> fs = []) ->
  Permutation (List.map snd (glob_json_files env)) (fs ++ parsed_files env w).
Proof.
  intros Hsnap Hnone. apply Permutation.NoDup_Permutation.
  - rewrite <- (List.filter_true (glob_json_files env)).
    apply (glob_json_files_paths_NoDup env (fun _ => true)).
  - apply List.NoDup_app; [| apply parsed_files_NoDup |].
    + destruct (usable_snapshot env w) as [cdf|];
        [exact (proj1 (Hsnap cdf eq_refl)) | rewrite Hnone by reflexivity; constructor].
    + intros p Hp Hparsed. apply parsed_files_In in Hparsed as [Hglob Hnew].
      destruct (usable_snapshot env w) as [cdf|] eqn:Husable.
      * apply (Hnew cdf eq_refl).
        now apply (named_in_snapshot_of env cdf fs (Hsnap cdf eq_refl)).
      * rewrite Hnone in Hp by reflexivity. destruct Hp.
  - intros p. rewrite glob_paths_In, in_app_iff, parsed_files_In. split.
    + intros Hglob. destruct (usable_snapshot env w) as [cdf|] eqn:Husable.
      * destruct (Path_In_dec p fs) as [Hin|Hout].
        -- now left.
        -- right. split; [exact Hglob|]. intros snapshot [= <-] Hnamed.
           apply Hout.
           now apply (named_in_snapshot_of env cdf fs (Hsnap cdf eq_refl)).
      * right. split; [exact Hglob | discriminate].
    + intros [Hin|[Hglob _]]; [|exact Hglob].
      destruct (usable_snapshot env w) as [cdf|] eqn:Husable.
      * exact (proj1 (proj1 (proj2 (Hsnap cdf eq_refl)) p Hin)).
      * rewrite Hnone in Hin by reflexivity. destruct Hin.
Qed.

(** Leaving out the files without a record does not change the records.
    *)
Lemma omap_yields_filter (load : Path -> result (option record)) l :
  omap (yields load)
       (List.filter (fun p => match yields load p with Some _ => true | None => false end) l)
  = omap (yields load) l.
Proof.
  induction l as [|p l IH]; [reflexivity|]. cbn [List.filter].
  destruct (yields load p) as [rec|] eqn:Hp; cbn [omap list_omap]; rewrite ?Hp, IH;
    reflexivity.
Qed.

(** X23: the cache is transparent.  When every pool task finishes once
    and the usable snapshot holds the records of files that are still in
    the directory and still yield them, a run gives the rows that a run
    without any snapshot gives over the same directory, up to their
    order (which is by timestamp in both). *)
Theorem cache_is_transparent env w w0 df w' df0 w0' :
  (forall l, Permutation (as_completed env l) l) ->
  (forall snapshot, usable_snapshot env w = Some snapshot ->
                    exists fs, snapshot_of env snapshot fs) ->
  usable_snapshot env w0 = None ->
  load_all_data env w = (Ok df, w') ->
  load_all_data env w0 = (Ok df0, w0') ->
  Permutation (rows df) (rows df0).
Proof.
  intros Hperm Hsnap Hcold Hrun Hrun0.
  destruct (dir_exists env) eqn:Hdir.
  2:{ rewrite load_all_data_nothing in Hrun, Hrun0 by now left.
      injection Hrun as <- _. injection Hrun0 as <- _. reflexivity. }
  destruct (glob_json_files env) as [|file files] eqn:Hglob.
  { rewrite load_all_data_nothing in Hrun, Hrun0 by now right.
    injection Hrun as <- _. injection Hrun0 as <- _. reflexivity. }
  assert (Hne : glob_json_files env <> []) by (rewrite Hglob; discriminate).
  clear file files Hglob.
  destruct (run_summary env w df w' Hdir Hne Hperm Hrun) as (_ & Hrows & _).
  destruct (run_summary env w0 df0 w0' Hdir Hne Hperm Hrun0) as (_ & Hrows0 & _).
  rewrite Hrows, Hrows0. apply Permutation_map.
  assert (Hfs : exists fs,
            (forall snapshot, usable_snapshot env w = Some snapshot ->
                              snapshot_of env snapshot fs) /\
            (usable_snapshot env w = None -> fs = [])).
  { destruct (usable_snapshot env w) as [cdf|].
    - destruct (Hsnap cdf eq_refl) as [fs Hfs]. exists fs.
      split; [now intros snapshot [= <-] | discriminate].
    - exists []. split; [discriminate | reflexivity]. }
  destruct Hfs as (fs & Hfs & Hnone).
  pose proof (all_files_split env w fs Hfs Hnone) as Hall.
  assert (Hold : Permutation (snapshot_rows env w)
                   (List.map row_of_record
                      (omap (yields (load_single_file (open_json env))) fs))).
  { unfold snapshot_rows. destruct (usable_snapshot env w) as [cdf|].
    - exact (proj2 (proj2 (Hfs cdf eq_refl))).
    - now rewrite Hnone. }
  unfold snapshot_rows at 2, parsed_files at 2. rewrite Hcold. cbn [app].
  rewrite Hold, Hall, omap_app, List.map_app. reflexivity.
Qed.

Lemma cache_is_transparent_witness :
  Permutation
    (rows (value_or pd_DataFrame
             (fst (load_all_data env_sample (snd (load_all_data env_sample no_parquet))))))
    (rows sample_dataset).
Proof.
  set (w1 := snd (load_all_data env_sample no_parquet)).
  assert (Hfirst : load_all_data env_sample no_parquet = (Ok sample_dataset, w1)).
  { unfold w1. rewrite <- load_all_data_sample. apply surjective_pairing. }
  assert (Hsecond : fst (load_all_data env_sample w1) = Ok sample_dataset)
    by (vm_compute; reflexivity).
  assert (Hperm : forall l, Permutation (as_completed env_sample l) l).
  { intros l. cbn [as_completed env_sample]. apply Permutation_sym, Permutation_rev. }
  rewrite Hsecond. cbn [value_or].
  set (fs := [ {| parent := "/data"; name := file_1011 |};
               {| parent := "/data"; name := file_1000 |};
               {| parent := "/data"; name := file_1021 |};
               {| parent := "/data"; name := file_1001 |} ]).
  apply (cache_is_transparent env_sample w1 no_parquet sample_dataset
           (snd (load_all_data env_sample w1)) sample_dataset w1).
  - exact Hperm.
  - intros snapshot H.
    assert (Hne : glob_json_files env_sample <> []) by (vm_compute; discriminate).
    destruct (run_summary env_sample no_parquet sample_dataset w1 eq_refl Hne Hperm Hfirst)
      as (_ & _ & Hnew).
    destruct (Hnew snapshot H) as [Hold|Hrows]; [vm_compute in Hold; discriminate Hold|].
    exists fs. split; [|split].
    + repeat (constructor; [cbn; intuition discriminate|]). constructor.
    + intros p Hp. cbn [In fs] in Hp.
      repeat (destruct Hp as [<-|Hp];
              [split; [vm_compute; tauto | eexists; vm_compute; reflexivity]|]).
      destruct Hp.
    + assert (Hsame : omap (yields (load_single_file (open_json env_sample)))
                           (parsed_files env_sample no_parquet)
                      = omap (yields (load_single_file (open_json env_sample))) fs)
        by (vm_compute; reflexivity).
      rewrite Hrows, Hsame. apply Permutation_refl.
  - vm_compute. reflexivity.
  - rewrite <- Hsecond. apply surjective_pairing.
  - exact Hfirst.
Defined.

(** X24: a snapshot of records stays one.  If the usable snapshot, when
    there is one, holds the records of files of the directory, so does
    the usable snapshot that a run leaves behind: it holds the records
    of those files and of the files parsed in this run. *)
Theorem run_keeps_snapshot_of_records env w df w' :
  (forall l, Permutation (as_completed env l) l) ->
  (forall snapshot, usable_snapshot env w = Some snapshot ->
                    exists fs, snapshot_of env snapshot fs) ->
  load_all_data env w = (Ok df, w') ->
  forall snapshot, usable_snapshot env w' = Some snapshot ->
                   exists fs, snapshot_of env snapshot fs.
Proof.
  intros Hperm Hsnap Hrun snapshot Hsnapshot.
  destruct (dir_exists env) eqn:Hdir.
  2:{ rewrite load_all_data_nothing in Hrun by now left.
      injection Hrun as _ <-. now apply Hsnap. }
  destruct (glob_json_files env) as [|file files] eqn:Hglob.
  { rewrite load_all_data_nothing in Hrun by now right.
    injection Hrun as _ <-. now apply Hsnap. }
  assert (Hne : glob_json_files env <> []) by (rewrite Hglob; discriminate).
  clear file files Hglob.
  destruct (run_summary env w df w' Hdir Hne Hperm Hrun) as (_ & _ & Hnew).
  destruct (Hnew snapshot Hsnapshot) as [Hold|Hrows]; [now apply Hsnap|].
  assert (Hfs : exists fs,
            (forall snapshot, usable_snapshot env w = Some snapshot ->
                              snapshot_of env snapshot fs) /\
            (usable_snapshot env w = None -> fs = [])).
  { destruct (usable_snapshot env w) as [cdf|].
    - destruct (Hsnap cdf eq_refl) as [fs Hfs]. exists fs.
      split; [now intros s [= <-] | discriminate].
    - exists []. split; [discriminate | reflexivity]. }
  destruct Hfs as (fs & Hfs & Hnone).
  set (load := load_single_file (open_json env)) in *.
  set (yielding := List.filter
         (fun p => match yields load p with Some _ => true | None => false end)
         (parsed_files env w)).
  exists (fs ++ yielding)%list. split; [|split].
  - apply List.NoDup_app.
    + destruct (usable_snapshot env w) as [cdf|];
        [exact (proj1 (Hfs cdf eq_refl)) | rewrite Hnone by reflexivity; constructor].
    + apply List.NoDup_filter, parsed_files_NoDup.
    + intros p Hp Hy. apply List.filter_In in Hy as [Hparsed _].
      apply parsed_files_In in Hparsed as [Hin Hnot].
      destruct (usable_snapshot env w) as [cdf|] eqn:Husable.
      * apply (Hnot cdf eq_refl).
        now apply (named_in_snapshot_of env cdf fs (Hfs cdf eq_refl)).
      * rewrite Hnone in Hp by reflexivity. destruct Hp.
  - intros p Hp. apply in_app_or in Hp as [Hp|Hp].
    + destruct (usable_snapshot env w) as [cdf|] eqn:Husable.
      * exact (proj1 (proj2 (Hfs cdf eq_refl)) p Hp).
      * rewrite Hnone in Hp by reflexivity. destruct Hp.
    + apply List.filter_In in Hp as [Hparsed Hy].
      apply parsed_files_In in Hparsed as [Hin _]. split; [exact Hin|].
      fold load. unfold yields in Hy.
      destruct (load p) as [[rec|]|]; try discriminate Hy. eauto.
  - rewrite Hrows, omap_app, List.map_app. unfold yielding.
    rewrite omap_yields_filter. apply Permutation_app_tail.
    unfold snapshot_rows. destruct (usable_snapshot env w) as [cdf|].
    + exact (proj2 (proj2 (Hfs cdf eq_refl))).
    + now rewrite Hnone.
Qed.

Lemma run_keeps_snapshot_of_records_witness :
  match usable_snapshot env_sample (snd (load_all_data env_sample no_parquet)) with
  | Some snapshot => exists fs, snapshot_of env_sample snapshot fs
  | None => False
  end.
Proof.
  assert (Hsome : option_map (fun s => length (rows s))
                    (usable_snapshot env_sample (snd (load_all_data env_sample no_parquet)))
                  = Some 4%nat) by (vm_compute; reflexivity).
  destruct (usable_snapshot env_sample (snd (load_all_data env_sample no_parquet)))
    as [snapshot|] eqn:H.
  - apply (run_keeps_snapshot_of_records env_sample no_parquet sample_dataset
             (snd (load_all_data env_sample no_parquet))).
    + intros l. cbn [as_completed env_sample]. apply Permutation_sym, Permutation_rev.
    + intros s Hs. vm_compute in Hs. discriminate Hs.
    + rewrite <- load_all_data_sample. apply surjective_pairing.
    + exact H.
  - discriminate Hsome.
Defined.

(** ** Dataset Loader: a second run over the unchanged directory *)

(** A run that cannot write the snapshot leaves the parquet files as
    they were. *)
Lemma load_all_data_unwritable env w :
  parquet_writable env = false ->
  parquet_files (snd (load_all_data env w)) = parquet_files w.
Proof.
  intros Hw. unfold load_all_data. cbv zeta.
  destruct (negb (dir_exists env)); [reflexivity|].
  destruct (glob_json_files env) as [|file files]; [reflexivity|].
  destruct (match _load_cache _ w with Some _ => _ | None => _ end) as [cdf|].
  - destruct (series cdf "source_file") as [cells|e]; [|reflexivity].
    destruct (List.map snd _) as [|nf nfs]; [reflexivity|].
    pose proof (parallel_parquet_files env (nf :: nfs) w) as Hfiles.
    destruct (_load_json_files_parallel env (nf :: nfs) w) as [[recs|e] w1];
      cbn [snd] in *; [|exact Hfiles].
    now rewrite sort_and_save_unwritable.
  - pose proof (parallel_parquet_files env (List.map snd (file :: files)) w) as Hfiles.
    destruct (_load_json_files_parallel env _ w) as [[[|rec recs]|e] w1];
      cbn [snd] in *; try exact Hfiles.
    now rewrite sort_and_save_unwritable.
Qed.

(** When the loader returns, every submitted file gave no record or a
    record that is among those returned. *)
Lemma parallel_outcomes env fps w recs w1 :
  Permutation (as_completed env fps) fps ->
  _load_json_files_parallel env fps w = (Ok recs, w1) ->
  forall p, In p fps ->
    load_single_file (open_json env) p = Ok None \/
    exists rec, load_single_file (open_json env) p = Ok (Some rec) /\ In rec recs.
Proof.
  intros Hperm H p Hp.
  pose proof (parallel_Ok_inv env fps w recs w1 Hperm H) as Hrecs.
  destruct (load_single_file (open_json env) p) as [[rec|]|e] eqn:Hload.
  - right. exists rec. split; [reflexivity|].
    apply (Permutation_in _ (Permutation_sym Hrecs)).
    apply list_elem_of_In, list_elem_of_omap. exists p.
    split; [now apply list_elem_of_In|]. unfold yields. now rewrite Hload.
  - now left.
  - exfalso. unfold _load_json_files_parallel in H.
    destruct fps as [|q fps']; [destruct Hp|]. injection H as H _.
    destruct (collect_Raise (load_single_file (open_json env))
                (as_completed env (q :: fps')) [] p e) as [e' He'].
    + apply (Permutation_in _ (Permutation_sym Hperm)). exact Hp.
    + exact Hload.
    + rewrite He' in H. discriminate H.
Qed.

(** When no submitted file makes the extractor raise, the loader
    returns the records of the files that yield one, in some order. *)
Lemma parallel_returns env fps w :
  Permutation (as_completed env fps) fps ->
  (forall p, In p fps -> exists o, load_single_file (open_json env) p = Ok o) ->
  exists recs,
    fst (_load_json_files_parallel env fps w) = Ok recs /\
    Permutation recs (omap (yields (load_single_file (open_json env))) fps).
Proof.
  intros Hperm Hok. unfold _load_json_files_parallel.
  destruct fps as [|q fps']; [exists []; split; reflexivity|]. cbn [fst].
  rewrite (collect_skips (load_single_file (open_json env))).
  - eexists. split; [reflexivity|]. cbn [app]. now rewrite Hperm.
  - intros p Hp. apply Hok. exact (Permutation_in _ Hperm Hp).
  - intros p rec. apply load_single_file_nonempty.
Qed.

(** Files that give no record give the loader nothing. *)
Lemma parallel_nothing env fps w :
  Permutation (as_completed env fps) fps ->
  (forall p, In p fps -> load_single_file (open_json env) p = Ok None) ->
  fst (_load_json_files_parallel env fps w) = Ok [].
Proof.
  intros Hperm Hnone.
  destruct (parallel_returns env fps w Hperm) as (recs & -> & Hrecs).
  { intros p Hp. exists None. now apply Hnone. }
  f_equal. apply Permutation_nil. rewrite Hrecs. symmetry.
  replace (omap _ fps) with (@nil record); [reflexivity|].
  symmetry. clear -Hnone. induction fps as [|p ps IH]; [reflexivity|].
  cbn [omap list_omap]. unfold yields at 1. rewrite (Hnone p) by now left.
  apply IH. intros p' Hp'. apply Hnone. now right.
Qed.

(** Sorting a sorted frame changes nothing. *)
Lemma sort_values_sorted_id df s :
  sort_values df "timestamp" = Ok s -> sort_values s "timestamp" = Ok s.
Proof.
  intros Hs. pose proof (sort_values_sorted _ _ Hs) as [Hsorted _].
  apply sort_values_Ok_inv in Hs as (Hcol & Hcells & ->).
  unfold sort_values, has_column. cbn [columns rows] in *.
  fold (has_column df "timestamp"). rewrite Hcol.
  replace (forallb _ _) with true.
  2:{ symmetry. apply forallb_forall. intros r Hr.
      rewrite forallb_forall in Hcells. apply Hcells.
      eapply Permutation_in; [apply sort_by_perm | exact Hr]. }
  f_equal. f_equal. apply sort_by_sorted_id. exact Hsorted.
Qed.

(** Without a matching file no file is parsed. *)
Lemma parsed_files_nil env w : glob_json_files env = [] -> parsed_files env w = [].
Proof.
  intros H. unfold parsed_files. rewrite H. now destruct (usable_snapshot env w).
Qed.

(** The columns of a frame built from records are the keys of the
    records, whatever their order. *)
Lemma add_new_In cols ks c : In c (add_new cols ks) <-> In c cols \/ In c ks.
Proof.
  split; [|intros [H|H]; [now apply add_new_keeps | now apply add_new_adds]].
  unfold add_new. revert cols. induction ks as [|k ks IH]; intros cols H; cbn in H; [now left|].
  apply IH in H as [H|H]; [|right; now right].
  destruct (existsb (String.eqb k) cols); [now left|].
  apply in_app_or in H as [H|[<-|[]]]; [now left | right; now left].
Qed.

Lemma DataFrame_of_records_columns_In recs c :
  In c (columns (DataFrame_of_records recs)) <->
  exists rec, In rec recs /\ In c (dict_keys rec).
Proof.
  split; [|intros (rec & Hrec & Hc); now apply (DataFrame_of_records_columns recs rec)].
  unfold DataFrame_of_records. cbn [columns].
  enough (H : forall cols,
            In c (fold_left (fun cs r => add_new cs (dict_keys r)) recs cols) ->
            In c cols \/ exists rec, In rec recs /\ In c (dict_keys rec)).
  { intros Hc. destruct (H [] Hc) as [[]|Hrec]. exact Hrec. }
  induction recs as [|r recs IH]; intros cols Hc; cbn [fold_left] in Hc; [now left|].
  apply IH in Hc as [Hc|(rec & Hrec & Hc)].
  - apply add_new_In in Hc as [Hc|Hc]; [now left|]. right. exists r. split; [now left | exact Hc].
  - right. exists rec. split; [now right | exact Hc].
Qed.

(** The tail of a run on a frame with the same rows in another order
    and the same columns in another order. *)
Lemma sort_and_save_similar env env' p p' df df' w w' out w1 :
  sort_and_save env p df w = (Ok out, w1) ->
  Permutation (rows df') (rows df) ->
  (forall c, In c (columns df') <-> In c (columns df)) ->
  exists out',
    fst (sort_and_save env' p' df' w') = Ok out' /\
    Permutation (rows out') (rows out) /\
    (forall c, In c (columns out') <-> In c (columns out)).
Proof.
  intros H Hrows Hcols. unfold sort_and_save in *.
  destruct (sort_values df "timestamp") as [s|e] eqn:Hs; [|discriminate H].
  injection H as Hd _.
  apply sort_values_Ok_inv in Hs as (Hts & Hcells & ->).
  apply drop_columns_Ok_inv in Hd as (Hsrc & ->).
  unfold has_column in Hsrc. cbn [columns rows] in *. fold (has_column df "source_file") in Hsrc.
  unfold sort_values.
  replace (has_column df' "timestamp") with true
    by (symmetry; apply has_column_In, Hcols, has_column_In, Hts).
  replace (forallb _ (rows df')) with true.
  2:{ symmetry. apply forallb_forall. intros r Hr.
      rewrite forallb_forall in Hcells. apply Hcells.
      exact (Permutation_in _ Hrows Hr). }
  unfold drop_columns, has_column. cbn [columns rows fst]. fold (has_column df' "source_file").
  replace (has_column df' "source_file") with true
    by (symmetry; apply has_column_In, Hcols, has_column_In, Hsrc).
  eexists. split; [reflexivity|]. cbn [columns rows]. split.
  - apply Permutation_map. rewrite !sort_by_perm. exact Hrows.
  - intros c. rewrite !List.filter_In, Hcols. reflexivity.
Qed.

(** The run after one that saved a frame which names every matching
    file that yields a record: it finds the saved frame, parses the
    files that yield nothing again, and returns the same dataset. *)
Lemma run_after_save env order writable df w0 df1 w1 :
  (forall l, Permutation (order l) l) ->
  parquet_writable env = true ->
  dir_exists env = true ->
  glob_json_files env <> [] ->
  sort_and_save env (_get_cache_path (tempdir env) (DATA_DIR env)) df w0 = (Ok df1, w1) ->
  rows df <> [] ->
  (forall n p, In (n, p) (glob_json_files env) ->
     named_in df n \/ load_single_file (open_json env) p = Ok None) ->
  fst (load_all_data (later_run order writable env) w1) = Ok df1 /\
  (forall p, In p (parsed_files env w1) ->
     load_single_file (open_json env) p = Ok None) /\
  (forall snapshot, usable_snapshot env w1 = Some snapshot ->
     (d ← drop_columns snapshot "source_file"; sort_values d "timestamp") = Ok df1).
Proof.
  intros Hperm Hwritable Hdir Hglob Hsave Hrows Hcover.
  unfold sort_and_save in Hsave.
  destruct (sort_values df "timestamp") as [s|e] eqn:Hs; [|discriminate Hsave].
  injection Hsave as Hd <-.
  pose proof (sort_values_dropped_id _ _ _ Hs Hd) as Hid.
  pose proof (sort_values_sorted_id _ _ Hs) as Hss.
  pose proof (drop_columns_Ok_inv _ _ _ Hd) as [Hsrc _].
  pose proof (sort_values_Ok_inv _ _ _ Hs) as (Hcol & _ & Heq).
  assert (Hs_rows : Permutation (rows s) (rows df)).
  { subst s. cbn [rows]. apply sort_by_perm. }
  assert (Husable : usable_snapshot env
                      (_save_cache env s (_get_cache_path (tempdir env) (DATA_DIR env)) w0)
                    = Some s).
  { unfold usable_snapshot, _load_cache, _save_cache. rewrite Hwritable.
    cbn [parquet_files]. rewrite (proj2 (Path_eqb_eq _ _) eq_refl).
    rewrite df_empty_false; [reflexivity| |].
    - subst s. cbn [columns]. now apply has_column_nonempty in Hcol.
    - intros Hnil. rewrite Hnil in Hs_rows. apply Permutation_nil in Hs_rows.
      contradiction. }
  set (w1 := _save_cache env s _ w0) in *.
  assert (Hparsed : forall p, In p (parsed_files env w1) ->
            load_single_file (open_json env) p = Ok None).
  { intros p Hp. apply parsed_files_In in Hp as [Hin Hnot].
    destruct (Hcover _ _ Hin) as [Hnamed|Hnone]; [|exact Hnone].
    exfalso. apply (Hnot s Husable). unfold named_in in *.
    eapply Permutation_in; [|exact Hnamed].
    apply Permutation_map. now symmetry. }
  assert (Hsnap : (d ← drop_columns s "source_file"; sort_values d "timestamp") = Ok df1).
  { rewrite Hd. cbn [mbind result_bind]. exact Hid. }
  split; [|split; [exact Hparsed|]].
  2:{ intros snapshot Hsnapshot. rewrite Husable in Hsnapshot.
      injection Hsnapshot as <-. exact Hsnap. }
  unfold parsed_files in Hparsed. rewrite Husable in Hparsed.
  unfold load_all_data. cbv zeta.
  change (dir_exists (later_run order writable env)) with (dir_exists env).
  change (glob_json_files (later_run order writable env)) with (glob_json_files env).
  change (tempdir (later_run order writable env)) with (tempdir env).
  change (DATA_DIR (later_run order writable env)) with (DATA_DIR env).
  rewrite Hdir. cbn [negb].
  destruct (glob_json_files env) as [|file files] eqn:Hfiles; [congruence|].
  rewrite <- Hfiles in *. clear file files Hfiles.
  fold (usable_snapshot env w1). rewrite Husable.
  unfold series. rewrite Hsrc.
  set (new_files := List.map snd _) in *.
  destruct new_files as [|nf nfs] eqn:Hnew; [exact Hsnap|].
  rewrite <- Hnew in *. clear Hnew nf nfs.
  pose proof (parallel_nothing (later_run order writable env) new_files w1 (Hperm _) Hparsed)
    as Hnothing.
  destruct (_load_json_files_parallel _ new_files w1) as [r w2].
  cbn [fst] in Hnothing. subst r.
  unfold sort_and_save. rewrite Hss. cbn [fst]. exact Hd.
Qed.

(** A second run over the unchanged directory, in which the pool tasks
    may finish in another order.  It returns the records of the first
    run under the same column labels; it returns the very dataset of the
    first run when that run could write the snapshot, and then the files
    it parses are files that yield no record and the snapshot it finds
    is the dataset with the source_file column. *)
Lemma second_run_summary env order writable w df1 w1 :
  (forall l, Permutation (as_completed env l) l) ->
  (forall l, Permutation (order l) l) ->
  load_all_data env w = (Ok df1, w1) ->
  exists df2,
    fst (load_all_data (later_run order writable env) w1) = Ok df2 /\
    Permutation (rows df2) (rows df1) /\
    (forall c, In c (columns df2) <-> In c (columns df1)) /\
    (parquet_writable env = true -> df2 = df1) /\
    (dir_exists env = true -> parquet_writable env = true ->
       (forall p, In p (parsed_files env w1) ->
          load_single_file (open_json env) p = Ok None) /\
       (glob_json_files env <> [] ->
        forall snapshot, usable_snapshot env w1 = Some snapshot ->
          (d ← drop_columns snapshot "source_file"; sort_values d "timestamp") = Ok df1)).
Proof.
  intros Hperm Hperm2 Hrun.
  set (again := later_run order writable env).
  assert (Hexact : forall P : Prop,
            fst (load_all_data again w1) = Ok df1 -> P ->
            exists df2,
              fst (load_all_data again w1) = Ok df2 /\
              Permutation (rows df2) (rows df1) /\
              (forall c, In c (columns df2) <-> In c (columns df1)) /\
              (parquet_writable env = true -> df2 = df1) /\ P).
  { intros P H HP. exists df1. repeat split; auto. }
  destruct (dir_exists env) eqn:Hdir.
  2:{ apply Hexact; [|discriminate]. unfold load_all_data in *.
      change (dir_exists again) with (dir_exists env).
      rewrite Hdir in *. cbn [negb] in *. now injection Hrun as <- _. }
  destruct (glob_json_files env) as [|file files] eqn:Hfiles.
  { apply Hexact.
    - unfold load_all_data in *.
      change (dir_exists again) with (dir_exists env).
      change (glob_json_files again) with (glob_json_files env).
      rewrite Hdir, Hfiles in *. cbn [negb] in *. now injection Hrun as <- _.
    - intros _ _. split; [|congruence].
      intros p Hp. now rewrite parsed_files_nil in Hp. }
  assert (Hglob : glob_json_files env <> []) by (rewrite Hfiles; discriminate).
  rewrite <- Hfiles in *. clear file files Hfiles.
  assert (Hsource : forall n p rec,
            In (n, p) (glob_json_files env) ->
            load_single_file (open_json env) p = Ok (Some rec) ->
            row_of_record rec !! "source_file" = Some (PStr n)).
  { intros n p rec Hin Hrec. apply glob_json_files_spec in Hin as (-> & _).
    rewrite lookup_row_of_record, (load_single_file_keeps_source _ _ _ Hrec).
    reflexivity. }
  (* what a run that saved a frame is followed by *)
  assert (Hsaved : forall df w0,
            sort_and_save env (_get_cache_path (tempdir env) (DATA_DIR env)) df w0
            = (Ok df1, w1) ->
            parquet_files w0 = parquet_files w ->
            rows df <> [] ->
            (forall n p, In (n, p) (glob_json_files env) ->
               named_in df n \/ load_single_file (open_json env) p = Ok None) ->
            (parquet_writable env = false ->
             exists df2,
               fst (load_all_data again w1) = Ok df2 /\
               Permutation (rows df2) (rows df1) /\
               (forall c, In c (columns df2) <-> In c (columns df1))) ->
            exists df2,
              fst (load_all_data again w1) = Ok df2 /\
              Permutation (rows df2) (rows df1) /\
              (forall c, In c (columns df2) <-> In c (columns df1)) /\
              (parquet_writable env = true -> df2 = df1) /\
              (true = true -> parquet_writable env = true ->
                 (forall p, In p (parsed_files env w1) ->
                    load_single_file (open_json env) p = Ok None) /\
                 (glob_json_files env <> [] ->
                  forall snapshot, usable_snapshot env w1 = Some snapshot ->
                    (d ← drop_columns snapshot "source_file"; sort_values d "timestamp")
                    = Ok df1))).
  { intros df w0 Hsave Hsame Hrows Hcover Hunwritable.
    destruct (parquet_writable env) eqn:Hwritable.
    - destruct (run_after_save env order writable df w0 df1 w1
                  Hperm2 Hwritable Hdir Hglob Hsave Hrows Hcover) as (H1 & H2 & H3).
      apply Hexact; [exact H1|]. intros _ _. auto.
    - destruct (Hunwritable eq_refl) as (df2 & H1 & H2 & H3).
      exists df2. repeat split; try assumption; try discriminate; apply H3. }
  pose proof Hrun as H. unfold load_all_data in H. cbv zeta in H.
  rewrite Hdir in H. cbn [negb] in H.
  destruct (glob_json_files env) as [|file files] eqn:Hfiles; [congruence|].
  rewrite <- Hfiles in *. clear file files Hfiles.
  fold (usable_snapshot env w) in H.
  (* the second run, as far as it does not depend on the snapshot *)
  assert (Hsecond : load_all_data again w1
            = match usable_snapshot env w1 with
              | Some cdf =>
                  match series cdf "source_file" with
                  | Raise e => (Raise e, w1)
                  | Ok cells =>
                      match parsed_files env w1 with
                      | [] => (d ← drop_columns cdf "source_file";
                               sort_values d "timestamp", w1)
                      | _ =>
                          match _load_json_files_parallel again (parsed_files env w1) w1 with
                          | (Raise e, w2) => (Raise e, w2)
                          | (Ok new_records, w2) =>
                              sort_and_save again
                                (_get_cache_path (tempdir env) (DATA_DIR env))
                                match new_records with
                                | [] => cdf
                                | _ => concat cdf (DataFrame_of_records new_records)
                                end w2
                          end
                      end
                  end
              | None =>
                  match _load_json_files_parallel again (parsed_files env w1) w1 with
                  | (Raise e, w2) => (Raise e, w2)
                  | (Ok [], w2) => (Ok pd_DataFrame, w2)
                  | (Ok records, w2) =>
                      sort_and_save again (_get_cache_path (tempdir env) (DATA_DIR env))
                                    (DataFrame_of_records records) w2
                  end
              end).
  { unfold load_all_data. cbv zeta.
    change (dir_exists again) with (dir_exists env).
    change (glob_json_files again) with (glob_json_files env).
    change (tempdir again) with (tempdir env).
    change (DATA_DIR again) with (DATA_DIR env).
    rewrite Hdir. cbn [negb].
    destruct (glob_json_files env) as [|file files] eqn:Hfiles; [congruence|].
    rewrite <- Hfiles in *. clear file files Hfiles.
    fold (usable_snapshot env w1). unfold parsed_files.
    destruct (usable_snapshot env w1) as [cdf|]; [|reflexivity].
    unfold series. destruct (has_column cdf "source_file"); reflexivity. }
  destruct (usable_snapshot env w) as [cdf|] eqn:Husable.
  - (* a usable snapshot *)
    assert (Hcdf : rows cdf <> []).
    { unfold usable_snapshot in Husable.
      destruct (_load_cache _ w) as [c|]; [|discriminate Husable].
      destruct (df_empty c) eqn:E; [discriminate Husable|].
      injection Husable as <-. now apply df_empty_false_inv in E. }
    destruct (series cdf "source_file") as [cells|e] eqn:Hseries; [|discriminate H].
    assert (Hcells : cells = List.map (fun r => r !! "source_file") (rows cdf)).
    { unfold series in Hseries. destruct (has_column cdf "source_file"); [|discriminate].
      now injection Hseries as <-. }
    subst cells.
    set (new_files := List.map snd _) in *.
    assert (Hnew : forall p, In p new_files <->
              In (name p, p) (glob_json_files env) /\ ~ named_in cdf (name p)).
    { intros p. apply new_files_In. }
    assert (Hparsed : parsed_files env w = new_files).
    { unfold parsed_files. now rewrite Husable. }
    destruct new_files as [|nf nfs] eqn:Hnf.
    + (* nothing new: the world is as it was *)
      injection H as H <-. apply Hexact.
      * rewrite Hsecond, Husable, Hseries, Hparsed. cbn [fst]. exact H.
      * intros _ _. split.
        -- intros p Hp. rewrite Hparsed in Hp. destruct Hp.
        -- intros _ snapshot Hsnapshot. rewrite Husable in Hsnapshot.
           now injection Hsnapshot as <-.
    + assert (Hne : nf :: nfs <> []) by discriminate.
      rewrite <- Hnf in *. clear Hnf nf nfs.
      pose proof (parallel_parquet_files env new_files w) as Hsame.
      destruct (_load_json_files_parallel env new_files w) as [[recs|e] w0] eqn:Hpar;
        [|discriminate H].
      cbn [snd] in Hsame.
      pose proof (parallel_outcomes env new_files w recs w0 (Hperm _) Hpar) as Hout.
      pose proof (parallel_Ok_inv env new_files w recs w0 (Hperm _) Hpar) as Hrecs.
      apply (Hsaved _ w0 H Hsame).
      * destruct recs; cbn [concat rows]; [exact Hcdf|].
        intros Hnil. apply app_eq_nil in Hnil as [Hnil _]. contradiction.
      * intros n p Hin.
        assert (Hname : name p = n).
        { apply glob_json_files_spec in Hin as (-> & _). reflexivity. }
        destruct (decide (n ∈ source_files
                                (List.map (fun r => r !! "source_file") (rows cdf))))
          as [Hnamed|Hfresh]; rewrite elem_of_source_files in *.
        -- left. unfold named_in. destruct recs; cbn [concat rows]; [exact Hnamed|].
           rewrite List.map_app. apply in_or_app. now left.
        -- assert (Hp : In p new_files).
           { apply Hnew. rewrite Hname. split; [exact Hin | exact Hfresh]. }
           destruct (Hout p Hp) as [Hnone|(rec & Hrec & Hin_recs)]; [now right|].
           left. unfold named_in.
           destruct recs as [|r0 rs] eqn:Erecs; [destruct Hin_recs|]. rewrite <- Erecs in *.
           cbn [concat rows DataFrame_of_records]. rewrite List.map_app.
           apply in_or_app. right. apply List.in_map_iff.
           exists (row_of_record rec). split; [exact (Hsource n p rec Hin Hrec)|].
           now apply List.in_map.
      * (* the snapshot could not be written: the same files are parsed again *)
        intros Hunwritable.
        assert (Hfiles1 : parquet_files w1 = parquet_files w).
        { pose proof (load_all_data_unwritable env w Hunwritable) as Hp.
          now rewrite Hrun in Hp. }
        rewrite Hsecond, (usable_snapshot_ext env w1 w Hfiles1), Husable, Hseries.
        assert (Hparsed1 : parsed_files env w1 = parsed_files env w).
        { unfold parsed_files. now rewrite (usable_snapshot_ext env w1 w Hfiles1). }
        rewrite Hparsed1, Hparsed.
        destruct (parallel_returns again new_files w1 (Hperm2 _)) as (recs2 & Hpar2 & Hrecs2).
        { intros p Hp. destruct (Hout p Hp) as [Hnone|(rec & Hrec & _)]; eauto. }
        change (load_single_file (open_json again)) with (load_single_file (open_json env))
          in Hrecs2.
        destruct (_load_json_files_parallel again new_files w1) as [r2 w2] eqn:Hpar2'.
        destruct new_files as [|nf nfs] eqn:Hnf; [now destruct Hne|].
        rewrite <- Hnf in *.
        cbn [fst] in Hpar2. subst r2.
        assert (Hperm12 : Permutation recs2 recs) by (now rewrite Hrecs2, Hrecs).
        destruct (sort_and_save_similar env again _ (_get_cache_path (tempdir env) (DATA_DIR env))
                    _ (match recs2 with
                       | [] => cdf
                       | _ => concat cdf (DataFrame_of_records recs2)
                       end) w0 w2 df1 w1 H) as (df2 & Hdf2 & Hrows2 & Hcols2).
        -- destruct recs2 as [|a2 l2] eqn:E2.
           ++ apply Permutation_nil in Hperm12. now subst recs.
           ++ rewrite <- E2 in *. destruct recs as [|a1 l1] eqn:E1.
              { symmetry in Hperm12. apply Permutation_nil in Hperm12. congruence. }
              rewrite <- E1 in *. cbn [concat rows DataFrame_of_records].
              apply Permutation_app_head, Permutation_map. exact Hperm12.
        -- intros c. destruct recs2 as [|a2 l2] eqn:E2.
           ++ apply Permutation_nil in Hperm12. now subst recs.
           ++ rewrite <- E2 in *. destruct recs as [|a1 l1] eqn:E1.
              { symmetry in Hperm12. apply Permutation_nil in Hperm12. congruence. }
              rewrite <- E1 in *. cbn [concat columns].
              rewrite !add_new_In, !DataFrame_of_records_columns_In.
              split; (intros [Hc|(rec & Hrec & Hc)]; [now left|right; exists rec; split; [|exact Hc]]).
              ** exact (Permutation_in _ Hperm12 Hrec).
              ** exact (Permutation_in _ (Permutation_sym Hperm12) Hrec).
        -- exists df2. auto.
  - (* no usable snapshot: every file is parsed *)
    set (all_files := List.map snd (glob_json_files env)) in *.
    assert (Hparsed : parsed_files env w = all_files).
    { unfold parsed_files. now rewrite Husable. }
    pose proof (parallel_parquet_files env all_files w) as Hsame.
    destruct (_load_json_files_parallel env all_files w) as [[recs|e] w0] eqn:Hpar;
      [|discriminate H].
    cbn [snd] in Hsame.
    pose proof (parallel_outcomes env all_files w recs w0 (Hperm _) Hpar) as Hout.
    pose proof (parallel_Ok_inv env all_files w recs w0 (Hperm _) Hpar) as Hrecs.
    assert (Hall : forall n p, In (n, p) (glob_json_files env) -> In p all_files).
    { intros n p Hin. apply List.in_map_iff. now exists (n, p). }
    destruct (parallel_returns again all_files w1 (Hperm2 _)) as (recs2 & Hpar2 & Hrecs2).
    { intros p Hp. destruct (Hout p Hp) as [Hnone|(rec & Hrec & _)]; eauto. }
    change (load_single_file (open_json again)) with (load_single_file (open_json env))
      in Hrecs2.
    assert (Hperm12 : Permutation recs2 recs) by (now rewrite Hrecs2, Hrecs).
    destruct recs as [|r0 rs] eqn:Erecs.
    + (* no record: no snapshot is written *)
      injection H as <- <-.
      assert (Hnone1 : usable_snapshot env w0 = None).
      { rewrite <- Husable. now apply usable_snapshot_ext. }
      assert (Hparsed1 : parsed_files env w0 = all_files).
      { unfold parsed_files. now rewrite Hnone1. }
      apply Permutation_nil_r in Hperm12. subst recs2.
      apply Hexact.
      * rewrite Hsecond, Hnone1, Hparsed1.
        destruct (_load_json_files_parallel again all_files w0) as [r2 w2].
        cbn [fst] in Hpar2. now subst r2.
      * intros _ _. split.
        -- intros p Hp. rewrite Hparsed1 in Hp.
           destruct (Hout p Hp) as [Hnone|(rec & _ & [])]. exact Hnone.
        -- intros _ snapshot Hsnapshot. congruence.
    + rewrite <- Erecs in *.
      apply (Hsaved _ w0 H Hsame).
      * rewrite Erecs. cbn [DataFrame_of_records rows List.map]. discriminate.
      * intros n p Hin.
        destruct (Hout p (Hall _ _ Hin)) as [Hnone|(rec & Hrec & Hin_recs)]; [now right|].
        left. unfold named_in. cbn [DataFrame_of_records rows].
        apply List.in_map_iff.
        exists (row_of_record rec). split; [exact (Hsource n p rec Hin Hrec)|].
        now apply List.in_map.
      * intros Hunwritable.
        assert (Hfiles1 : parquet_files w1 = parquet_files w).
        { pose proof (load_all_data_unwritable env w Hunwritable) as Hp.
          now rewrite Hrun in Hp. }
        rewrite Hsecond, (usable_snapshot_ext env w1 w Hfiles1), Husable.
        assert (Hparsed1 : parsed_files env w1 = all_files).
        { unfold parsed_files. now rewrite (usable_snapshot_ext env w1 w Hfiles1), Husable. }
        rewrite Hparsed1.
        destruct (_load_json_files_parallel again all_files w1) as [r2 w2].
        cbn [fst] in Hpar2. subst r2.
        destruct recs2 as [|a2 l2] eqn:E2.
        { apply Permutation_nil in Hperm12. congruence. }
        rewrite <- E2 in *.
        destruct (sort_and_save_similar env again _
                    (_get_cache_path (tempdir env) (DATA_DIR env))
                    _ (DataFrame_of_records recs2) w0 w2 df1 w1 H)
          as (df2 & Hdf2 & Hrows2 & Hcols2).
        -- cbn [rows DataFrame_of_records]. now apply Permutation_map.
        -- intros c. rewrite !DataFrame_of_records_columns_In.
           split; intros (rec & Hrec & Hc); exists rec; (split; [|exact Hc]).
           ++ exact (Permutation_in _ Hperm12 Hrec).
           ++ exact (Permutation_in _ (Permutation_sym Hperm12) Hrec).
        -- exists df2. auto.
Qed.

(** With pairwise distinct sort keys there is one ascending
    arrangement. *)
Lemma key_leb_antisym a b : key_leb a b = true -> key_leb b a = true -> a = b.
Proof.
  destruct a as [x|], b as [y|]; cbn; try discriminate; [|reflexivity].
  intros H1 H2. apply Z.leb_le in H1. apply Z.leb_le in H2. f_equal. lia.
Qed.

Lemma sorted_arrangement_unique (l0 : list (gmap string pyval)) :
  List.NoDup (List.map (ts_key "timestamp") l0) ->
  StronglySorted ts_le l0 ->
  forall l, Permutation l l0 -> StronglySorted ts_le l -> l = l0.
Proof.
  induction l0 as [|y l0 IH]; intros Hnd Hs0 l Hperm Hs.
  - symmetry in Hperm. now apply Permutation_nil in Hperm.
  - destruct l as [|x l]; [now apply Permutation_nil in Hperm|].
    apply StronglySorted_inv in Hs0 as [Hs0 Hy]. apply StronglySorted_inv in Hs as [Hs Hx].
    rewrite List.Forall_forall in Hx, Hy.
    assert (Hxy : x = y).
    { assert (Hx0 : In x (y :: l0)) by (apply (Permutation_in _ Hperm); now left).
      assert (Hy0 : In y (x :: l))
        by (apply (Permutation_in _ (Permutation_sym Hperm)); now left).
      destruct Hx0 as [->|Hx0]; [reflexivity|].
      destruct Hy0 as [->|Hy0]; [reflexivity|].
      exfalso. cbn [List.map] in Hnd. apply List.NoDup_cons_iff in Hnd as [Hnd _].
      apply Hnd. rewrite (key_leb_antisym _ _ (Hy x Hx0) (Hx y Hy0)).
      now apply List.in_map. }
    subst y. f_equal. cbn [List.map] in Hnd. apply List.NoDup_cons_iff in Hnd as [_ Hnd].
    apply IH; try assumption. now apply Permutation_cons_inv in Hperm.
Qed.

(** What every returned dataset is. *)
Lemma load_all_data_is_public env w df w' :
  load_all_data env w = (Ok df, w') -> public df.
Proof.
  intros H.
  destruct (load_all_data_Ok_cases env w df w' H)
    as [->|[(cdf & Hhit)|(df0 & w0 & Hsave)]].
  - apply public_empty.
  - exact (drop_then_sort_public cdf df Hhit).
  - exact (sort_and_save_public _ _ _ _ _ _ Hsave).
Qed.

(** C4, amended: a second run over the unchanged directory, after a run
    that returned a dataset; every pool task completes once, in the
    second run possibly in another order.  The second run returns a
    dataset, with the same rows up to their order and the same column
    labels up to their order; neither dataset has a source_file column.
    When no two rows have the same timestamp the rows are in the same
    order (pandas does not promise the order of rows of equal
    timestamp; with distinct ones the ascending arrangement is the only
    one).  When the first run could write the snapshot the columns are
    in the same order too, and what the second run returns is the
    snapshot it finds without its source_file column, sorted.  The
    second run hands to the Record Extractor the matching files that
    the snapshot it finds does not name: when the first run could write
    the snapshot these are files that yield no record, so none at all
    when every matching file yields a record. *)
Theorem second_run_uses_snapshot env order writable w df1 w1 :
  (forall l, Permutation (as_completed env l) l) ->
  (forall l, Permutation (order l) l) ->
  load_all_data env w = (Ok df1, w1) ->
  let again := later_run order writable env in
  exists df2,
    fst (load_all_data again w1) = Ok df2 /\
    has_column df1 "source_file" = false /\
    has_column df2 "source_file" = false /\
    Permutation (rows df2) (rows df1) /\
    (forall c, In c (columns df2) <-> In c (columns df1)) /\
    (parquet_writable env = true -> columns df2 = columns df1) /\
    (List.NoDup (List.map (ts_key "timestamp") (rows df1)) ->
       rows df2 = rows df1 /\
       (forall l, Permutation l (rows df1) -> StronglySorted ts_le l -> l = rows df1) /\
       (dir_exists env = true -> parquet_writable env = true ->
        glob_json_files env <> [] ->
        forall snapshot, usable_snapshot env w1 = Some snapshot ->
          (d ← drop_columns snapshot "source_file"; sort_values d "timestamp") = Ok df2)) /\
    (dir_exists env = true ->
       extractor_calls (snd (load_all_data again w1))
       = (extractor_calls w1 ++ parsed_files env w1)%list /\
       (parquet_writable env = true ->
          (forall p, In p (parsed_files env w1) ->
             load_single_file (open_json env) p = Ok None) /\
          ((forall n p, In (n, p) (glob_json_files env) ->
              exists rec, load_single_file (open_json env) p = Ok (Some rec)) ->
           parsed_files env w1 = []))).
Proof.
  intros Hperm Hperm2 Hrun again.
  destruct (second_run_summary env order writable w df1 w1 Hperm Hperm2 Hrun)
    as (df2 & Hsecond & Hrows & Hcols & Hsame & Hfiles).
  fold again in Hsecond.
  assert (Hrun2 : load_all_data again w1 = (Ok df2, snd (load_all_data again w1))).
  { rewrite <- Hsecond. apply surjective_pairing. }
  destruct (load_all_data_is_public _ _ _ _ Hrun) as (Hsorted1 & Hnocol1 & _).
  destruct (load_all_data_is_public _ _ _ _ Hrun2) as (Hsorted2 & Hnocol2 & _).
  exists df2. split; [exact Hsecond|]. split; [exact Hnocol1|]. split; [exact Hnocol2|].
  split; [exact Hrows|]. split; [exact Hcols|].
  split; [intros Hw; now rewrite (Hsame Hw)|]. split.
  - intros Hnd.
    pose proof (sorted_arrangement_unique _ Hnd Hsorted1) as Hunique.
    split; [exact (Hunique _ Hrows Hsorted2)|]. split; [exact Hunique|].
    intros Hdir Hwritable Hglob snapshot Hsnapshot.
    rewrite (Hsame Hwritable).
    exact (proj2 (Hfiles Hdir Hwritable) Hglob snapshot Hsnapshot).
  - intros Hdir. split.
    + destruct (glob_json_files env) as [|file files] eqn:Hglob.
      * rewrite parsed_files_nil by exact Hglob. rewrite app_nil_r.
        unfold load_all_data.
        change (dir_exists again) with (dir_exists env).
        change (glob_json_files again) with (glob_json_files env).
        rewrite Hdir, Hglob. reflexivity.
      * assert (Hne : glob_json_files again <> [])
          by (change (glob_json_files again) with (glob_json_files env);
              rewrite Hglob; discriminate).
        exact (proj1 (run_summary again w1 df2 _ Hdir Hne Hperm2 Hrun2)).
    + intros Hwritable. destruct (Hfiles Hdir Hwritable) as [Hnone _].
      split; [exact Hnone|].
      intros Hall.
      assert (Hno : forall p, ~ In p (parsed_files env w1)).
      { intros p Hin. pose proof (Hnone p Hin) as Hn.
        apply parsed_files_In in Hin as [Hin _].
        destruct (Hall _ _ Hin) as [rec Hrec]. congruence. }
      destruct (parsed_files env w1) as [|p ps]; [reflexivity|].
      destruct (Hno p). now left.
Qed.

Lemma sample_dataset_distinct_timestamps :
  List.NoDup (List.map (ts_key "timestamp") (rows sample_dataset)).
Proof.
  vm_compute.
  repeat (apply List.NoDup_cons;
          [intros H; repeat (destruct H as [H|H]; [discriminate H|]); destruct H|]).
  apply List.NoDup_nil.
Qed.

Lemma env_sample_completes (l : list Path) : Permutation (as_completed env_sample l) l.
Proof. symmetry. apply Permutation_rev. Qed.

Lemma env_sample_first_run :
  load_all_data env_sample no_parquet
  = (Ok sample_dataset, snd (load_all_data env_sample no_parquet)).
Proof. rewrite <- load_all_data_sample. apply surjective_pairing. Qed.

Lemma second_run_uses_snapshot_witness :
  let first := load_all_data env_sample no_parquet in
  let second := load_all_data (later_run (fun l => l) false env_sample) (snd first) in
  fst first = Ok sample_dataset /\
  exists df2,
    fst second = Ok df2 /\
    rows df2 = rows sample_dataset /\
    columns df2 = columns sample_dataset /\
    extractor_calls (snd second)
    = (extractor_calls (snd first) ++ parsed_files env_sample (snd first))%list /\
    forall p, In p (parsed_files env_sample (snd first)) ->
              load_single_file (open_json env_sample) p = Ok None.
Proof.
  cbv zeta. split; [exact load_all_data_sample|].
  destruct (second_run_uses_snapshot env_sample (fun l => l) false no_parquet sample_dataset
              (snd (load_all_data env_sample no_parquet))
              env_sample_completes (fun l => Permutation_refl l) env_sample_first_run)
    as (df2 & Hsecond & _ & _ & _ & _ & Hcols & Hrows & Hcalls).
  exists df2. split; [exact Hsecond|].
  split; [exact (proj1 (Hrows sample_dataset_distinct_timestamps))|].
  split; [exact (Hcols eq_refl)|].
  destruct (Hcalls eq_refl) as [Hc Hw].
  split; [exact Hc | exact (proj1 (Hw eq_refl))].
Defined.

(** That the columns keep their order only when the snapshot was
    written is no artefact: two files with different metrics, a cache
    that cannot be written, and pool tasks that finish in the opposite
    order in the second run give the columns in another order. *)
Example second_run_column_order :
  let first := load_all_data env_two_shapes no_parquet in
  let second := load_all_data (later_run (fun l => l) false env_two_shapes) (snd first) in
  option_map columns (value_of (fst first))
  = Some ["timestamp"; "sessionID"; "endpoint"; "download"; "latency"] /\
  option_map columns (value_of (fst second))
  = Some ["timestamp"; "sessionID"; "endpoint"; "latency"; "download"].
Proof. split; vm_compute; reflexivity. Qed.

(** The row labels of the two datasets differ.  The first run sorts the
    records in the order in which the pool tasks finished, and its
    dataset keeps the labels of that order; the second run sorts the
    snapshot, which is in ascending order already. *)
Example second_run_row_labels :
  let first := load_all_data env_clean no_parquet in
  let second := load_all_data env_clean (snd first) in
  exists records snapshot d df,
    fst (_load_json_files_parallel env_clean (List.map snd (glob_json_files env_clean))
           no_parquet) = Ok records /\
    fst first
    = (sorted ← sort_values (DataFrame_of_records records) "timestamp";
       drop_columns sorted "source_file") /\
    sort_values_index (DataFrame_of_records records) "timestamp" = [2; 0; 3; 1]%nat /\
    usable_snapshot env_clean (snd first) = Some snapshot /\
    drop_columns snapshot "source_file" = Ok d /\
    fst second = sort_values d "timestamp" /\
    sort_values_index d "timestamp" = [0; 1; 2; 3]%nat /\
    fst first = Ok df /\ fst second = Ok df.
Proof.
  cbv zeta. do 4 eexists.
  split; [vm_compute; reflexivity|].
  split; [vm_compute; reflexivity|].
  split; [vm_compute; reflexivity|].
  split; [vm_compute; reflexivity|].
  split; [vm_compute; reflexivity|].
  split; [vm_compute; reflexivity|].
  split; [vm_compute; reflexivity|].
  split; vm_compute; reflexivity.
Qed.

(** ** Latest measurements of a loaded dataset *)

(** Sorted lists: a suffix is sorted, the reverse is sorted the other
    way round. *)
Lemma StronglySorted_skipn {A} (R : A -> A -> Prop) n l :
  StronglySorted R l -> StronglySorted R (skipn n l).
Proof.
  revert l. induction n as [|n IH]; intros l H; [exact H|].
  destruct l as [|x l]; [constructor|]. cbn. apply IH. now inversion H.
Qed.

Lemma StronglySorted_snoc {A} (R : A -> A -> Prop) l x :
  StronglySorted R l -> List.Forall (fun y => R y x) l -> StronglySorted R (l ++ [x]).
Proof.
  induction 1 as [|y l Hl IH Hy]; intros Hx; cbn.
  - repeat constructor.
  - inversion Hx; subst. constructor; [now apply IH|].
    apply List.Forall_app. split; [assumption | now repeat constructor].
Qed.

Lemma StronglySorted_rev {A} (R : A -> A -> Prop) l :
  StronglySorted R l -> StronglySorted (fun a b => R b a) (rev l).
Proof.
  induction 1 as [|x l Hl IH Hx]; [constructor|]. cbn.
  apply StronglySorted_snoc; [exact IH|].
  apply List.Forall_forall. intros y Hy. apply List.in_rev in Hy.
  rewrite List.Forall_forall in Hx. now apply Hx.
Qed.

Lemma slice_from_skipn {A} start (l : list A) : exists n, slice_from start l = skipn n l.
Proof. unfold slice_from. destruct (start <? 0); eauto. Qed.

(** A loaded dataset is sorted, and it is the empty frame or has a
    timestamp column. *)
Lemma load_all_data_sorted env w df w' :
  load_all_data env w = (Ok df, w') -> StronglySorted ts_le (rows df).
Proof.
  intros H.
  destruct (load_all_data_Ok_cases env w df w' H)
    as [->|[(cdf & Hhit)|(df0 & w0 & Hsave)]].
  - apply public_empty.
  - exact (proj1 (drop_then_sort_public cdf df Hhit)).
  - exact (proj1 (sort_and_save_public _ _ _ _ _ _ Hsave)).
Qed.

Lemma load_all_data_columns env w df w' :
  load_all_data env w = (Ok df, w') ->
  df = pd_DataFrame \/ has_column df "timestamp" = true.
Proof.
  intros H.
  destruct (load_all_data_Ok_cases env w df w' H)
    as [->|[(cdf & Hhit)|(df0 & w0 & Hsave)]]; [now left| |]; right.
  - bind_inv Hhit as d Hd. now apply sort_values_Ok_inv in Hhit as (Hcol & _ & ->).
  - unfold sort_and_save in Hsave.
    destruct (sort_values df0 "timestamp") as [s|e] eqn:Hs; [|discriminate Hsave].
    injection Hsave as Hd _. apply sort_values_Ok_inv in Hs as (Hcol & _ & ->).
    apply drop_columns_Ok_inv in Hd as (_ & ->). unfold has_column. cbn [columns].
    now rewrite has_column_after_drop.
Qed.

(** X18: the latest measurements of a loaded dataset are rows of the
    dataset, most recent first, for every count. *)
Theorem latest_of_loaded_newest_first env w df w' count :
  load_all_data env w = (Ok df, w') ->
  StronglySorted (fun r1 r2 => ts_le r2 r1) (rows (get_latest_measurements df count)) /\
  (forall r, In r (rows (get_latest_measurements df count)) -> In r (rows df)).
Proof.
  intros H. pose proof (load_all_data_sorted _ _ _ _ H) as Hsorted.
  unfold get_latest_measurements.
  destruct (df_empty df) eqn:Hempty.
  - destruct (load_all_data_columns _ _ _ _ H) as [->|Hcol].
    + split; [constructor | intros r []].
    + assert (Hrows : rows df = []).
      { unfold df_empty in Hempty. apply has_column_nonempty in Hcol.
        destruct (columns df); [congruence|]. now destruct (rows df). }
      rewrite Hrows. split; [constructor | intros r []].
  - unfold iloc_reversed, tail. cbn [rows].
    destruct (count =? 0); [split; [constructor | intros r []]|].
    destruct (slice_from_skipn (- count) (rows df)) as [n ->]. split.
    + apply StronglySorted_rev. now apply StronglySorted_skipn.
    + intros r Hr. apply List.in_rev in Hr.
      rewrite <- (List.firstn_skipn n (rows df)). apply in_or_app. now right.
Qed.

Lemma latest_of_loaded_newest_first_witness :
  StronglySorted (fun r1 r2 => ts_le r2 r1)
    (rows (get_latest_measurements sample_dataset 2)).
Proof.
  refine (proj1 (latest_of_loaded_newest_first env_sample no_parquet sample_dataset
                   (snd (load_all_data env_sample no_parquet)) 2 _)).
  rewrite <- load_all_data_sample. apply surjective_pairing.
Defined.

(** ** Aggregator: the intervals *)






(** ** The table of recent measurements *)

(** Assigning to a column that exists keeps the columns. *)
Lemma set_column_existing df c cells :
  has_column df c = true -> columns (set_column df c cells) = columns df.
Proof. intros H. unfold set_column. cbn. now rewrite H. Qed.

(** The formatting loop keeps the columns and the number of rows. *)
Lemma format_columns_shape fmt cols :
  (forall c, length_preserving (apply_2f fmt c)) ->
  forall df out,
  format_columns fmt cols df = Ok out ->
  columns out = columns df /\ length (rows out) = length (rows df).
Proof.
  intros Hlen. induction cols as [|c cols IH]; intros df out H; cbn in H.
  - now injection H as <-.
  - bind_inv H as cells Hcells. bind_inv H as texts Htexts.
    apply IH in H as [Hc Hr]. rewrite Hc, Hr.
    unfold series in Hcells. destruct (has_column df c) eqn:Hcol; [|discriminate].
    injection Hcells as <-. apply Hlen in Htexts. rewrite length_map in Htexts.
    split; [now apply set_column_existing|].
    unfold set_column. cbn [rows]. rewrite length_zip_with. lia.
Qed.

Lemma rename_all_rows df names :
  length (rows (rename_all df names)) = length (rows df).
Proof.
  unfold rename_all. revert df. induction names as [|on names IH]; intros df; cbn.
  - reflexivity.
  - rewrite IH. cbn. apply length_map.
Qed.

(** [l[:n]] has [min(n, len(l))] elements for [n >= 0]. *)
Lemma slice_to_length {A} (l : list A) n :
  0 <= n -> Z.of_nat (length (slice_to n l)) = Z.min n (Z.of_nat (length l)).
Proof.
  intros Hn. unfold slice_to. destruct (n <? 0) eqn:E; [lia|].
  rewrite length_firstn. lia.
Qed.

(** X21: the table needs all five columns.  For a non-empty dataset that
    lacks one of timestamp, download, upload, latency and jitter,
    [render_recent_table] writes the subheader and raises [KeyError]
    (when formatting the timestamps, if there are any, did not raise
    before); no table is shown. *)
Theorem render_recent_table_missing_column fmt df count c texts :
  df_empty df = false ->
  In c columns_to_show ->
  has_column df c = false ->
  (has_column df "timestamp" = true ->
   dt_strftime fmt "%Y-%m-%d %H:%M"
     (List.map (fun r => r !! "timestamp") (rows (head df count))) = Ok texts) ->
  render_recent_table fmt df count
  = (Raise KeyError,
     [ st_subheader ("Last " +:+ pretty (Z.min count (Z.of_nat (length (rows df))))
                     +:+ " Measurements") ]).
Proof.
  intros Hne Hc Hmissing Hts. unfold render_recent_table. rewrite Hne. cbv zeta.
  unfold series. change (has_column (head df count) "timestamp")
    with (has_column df "timestamp").
  destruct (has_column df "timestamp") eqn:Hcol; [|reflexivity].
  cbn [mbind result_bind]. rewrite (Hts eq_refl). cbn [mbind result_bind].
  unfold select_columns.
  replace (forallb _ columns_to_show) with false; [reflexivity|].
  symmetry. apply not_true_is_false. intros Hall.
  rewrite forallb_forall in Hall. specialize (Hall c Hc).
  unfold has_column in Hall.
  rewrite (set_column_existing (head df count) "timestamp" texts Hcol) in Hall.
  unfold has_column in Hmissing. cbn [columns head] in Hall. congruence.
Qed.

Lemma render_recent_table_missing_column_witness :
  render_recent_table sample_formatting sample_dataset 5
  = (Raise KeyError, [st_subheader "Last 4 Measurements"]).
Proof.
  apply (render_recent_table_missing_column sample_formatting sample_dataset 5 "upload"
           (List.map (fun r => r !! "timestamp") (rows (head sample_dataset 5)))).
  - reflexivity.
  - cbn. tauto.
  - reflexivity.
  - intros _. reflexivity.
Defined.

(** X22: the table shown.  With formatting calls that return one cell
    per cell, for a count [N >= 0], when [render_recent_table] returns
    on a non-empty dataset it has written the subheader and one table;
    the table has the columns Time, Download (Mbps), Upload (Mbps),
    Latency (ms) and Jitter (ms), and [min(N, rows)] rows, the number
    the subheader announces. *)
Theorem render_recent_table_shows_head fmt df count calls :
  (forall f, length_preserving (dt_strftime fmt f)) ->
  (forall c, length_preserving (apply_2f fmt c)) ->
  0 <= count ->
  df_empty df = false ->
  render_recent_table fmt df count = (Ok tt, calls) ->
  exists table,
    calls = [ st_subheader ("Last " +:+ pretty (Z.of_nat (length (rows table)))
                            +:+ " Measurements");
              st_dataframe table ] /\
    columns table
    = ["Time"; "Download (Mbps)"; "Upload (Mbps)"; "Latency (ms)"; "Jitter (ms)"] /\
    Z.of_nat (length (rows table)) = Z.min count (Z.of_nat (length (rows df))).
Proof.
  intros Hts Hfmt Hcount Hne H. unfold render_recent_table in H. rewrite Hne in H.
  cbv zeta in H.
  match type of H with match ?b with _ => _ end = _ => destruct b as [t|e] eqn:Hbody end;
    [|discriminate H].
  injection H as <-.
  bind_inv Hbody as ts Hseries. bind_inv Hbody as texts Htexts.
  bind_inv Hbody as sel Hsel.
  apply (format_columns_shape _ _ Hfmt) in Hbody as [Hcols Hrows].
  unfold select_columns in Hsel. destruct (forallb _ columns_to_show); [|discriminate].
  injection Hsel as <-.
  unfold series in Hseries. destruct (has_column _ "timestamp"); [|discriminate].
  injection Hseries as <-. apply Hts in Htexts. rewrite length_map in Htexts.
  assert (Hlen : Z.of_nat (length (rows t))
                 = Z.min count (Z.of_nat (length (rows df)))).
  { rewrite Hrows, rename_all_rows. cbn [rows]. rewrite length_map.
    unfold set_column. cbn [rows]. rewrite length_zip_with, Htexts, Nat.min_id.
    unfold head. cbn [rows]. now apply slice_to_length. }
  exists t. split; [|split].
  - cbn [app]. now rewrite Hlen.
  - rewrite Hcols. reflexivity.
  - exact Hlen.
Qed.

Lemma render_recent_table_shows_head_witness :
  exists table,
    snd (render_recent_table sample_formatting full_dataset 2)
    = [ st_subheader ("Last " +:+ pretty (Z.of_nat (length (rows table)))
                      +:+ " Measurements");
        st_dataframe table ] /\
    columns table
    = ["Time"; "Download (Mbps)"; "Upload (Mbps)"; "Latency (ms)"; "Jitter (ms)"] /\
    Z.of_nat (length (rows table)) = Z.min 2 (Z.of_nat (length (rows full_dataset))).
Proof.
  apply (render_recent_table_shows_head sample_formatting full_dataset 2).
  - intros f cells out [= <-]. reflexivity.
  - intros c cells out [= <-]. reflexivity.
  - lia.
  - reflexivity.
  - assert (H : fst (render_recent_table sample_formatting full_dataset 2) = Ok tt)
      by (vm_compute; reflexivity).
    rewrite <- H. apply surjective_pairing.
Defined.
